(** * Drive-thru ordering session: catalog, resolver, order state machine

    A shallow embedding of [mcdonalds.py]: the menu scraper that builds the
    catalog, the [DriveThruAI] session object and the agent tools that
    resolve a free-text item name and mutate the active order.

    Conventions of the embedding.
    - A Python [str] is a [string] of bytes (UTF-8).  [lower], [strip] and
      [split] act on the ASCII range: they are Python's on the strings for
      which [isascii] holds, and the properties of the search, of the
      removal by name and of the scraped names are stated for such strings.
      Python also lowers capitals and strips white space beyond ASCII.
    - A Python [float] is the carrier of a [PyFloat] structure.  Two
      instances are given: [Binary64], IEEE doubles as CPython has them, and
      [Exact], the rationals, with which the sums of an order are exact.
      The range of the scraped prices is proved for [Binary64], from the
      specification of the primitive operations in [SpecFloat].
    - A Python [int] is a [Z]; [len] is a [nat].
    - A [dict] is an insertion-ordered association list.
    - An exception that escapes a method is a [Raise] result carrying the
      state the method leaves behind. *)

From Stdlib Require Import ZArith QArith Qround List String Ascii Bool Lia Lqa.
From Stdlib Require Import DecimalString.
From Stdlib Require DecimalNat.
From Stdlib Require Import PrimFloat FloatOps SpecFloat FloatAxioms.
Import ListNotations.

Local Close Scope Q_scope.
Local Open Scope nat_scope.
Local Open Scope string_scope.
Local Open Scope list_scope.

(** ** Python strings *)

Module Str.

(** [str.isspace] on one ASCII character: TAB..CR, FS..US and space. *)
Definition is_space (c : ascii) : bool :=
  let n := nat_of_ascii c in
  (Nat.leb 9 n && Nat.leb n 13) || (Nat.leb 28 n && Nat.leb n 32).

Definition lower_char (c : ascii) : ascii :=
  let n := nat_of_ascii c in
  if Nat.leb 65 n && Nat.leb n 90 then ascii_of_nat (n + 32) else c.

(** [s.lower()] for a string in ASCII: the capitals A to Z are lowered.
    (Python lowers the capitals of other alphabets too.) *)
Fixpoint lower (s : string) : string :=
  match s with
  | EmptyString => EmptyString
  | String c r => String (lower_char c) (lower r)
  end.

Fixpoint lstrip (s : string) : string :=
  match s with
  | EmptyString => EmptyString
  | String c r => if is_space c then lstrip r else s
  end.

Fixpoint rstrip (s : string) : string :=
  match s with
  | EmptyString => EmptyString
  | String c r =>
      match rstrip r with
      | EmptyString => if is_space c then EmptyString else String c EmptyString
      | r' => String c r'
      end
  end.

(** [s.strip()] for a string in ASCII.  (Python strips the white space
    beyond ASCII too, such as the no-break space.) *)
Definition strip (s : string) : string := rstrip (lstrip s).

(** [sub in s] *)
Fixpoint contains (sub s : string) : bool :=
  prefix sub s ||
  match s with
  | EmptyString => false
  | String _ r => contains sub r
  end.

(** [s.replace(old, new)] for a non-empty [old]: occurrences are replaced
    left to right and do not overlap.  [skip] counts the characters of a
    matched occurrence that are still to be dropped. *)
Fixpoint replace_from (old new : string) (skip : nat) (s : string) : string :=
  match s with
  | EmptyString => EmptyString
  | String c r =>
      match skip with
      | S k => replace_from old new k r
      | O =>
          if prefix old s
          then new ++ replace_from old new (String.length old - 1) r
          else String c (replace_from old new O r)
      end
  end.

Definition replace (old new s : string) : string := replace_from old new 0 s.

(** [s.split()] for a string in ASCII: the maximal runs of non-space
    characters.  [tok] is the run being read. *)
Fixpoint split_from (tok s : string) : list string :=
  match s with
  | EmptyString => match tok with EmptyString => [] | _ => [tok] end
  | String c r =>
      if is_space c
      then match tok with
           | EmptyString => split_from EmptyString r
           | _ => tok :: split_from EmptyString r
           end
      else split_from (tok ++ String c EmptyString) r
  end.

Definition split (s : string) : list string := split_from EmptyString s.

(** [s[:n]] *)
Definition take (n : nat) (s : string) : string := substring 0 n s.

(** [str(n)] for an [int] *)
Definition of_Z (z : Z) : string := NilZero.string_of_int (Z.to_int z).
Definition of_nat (n : nat) : string := NilZero.string_of_uint (Nat.to_uint n).

(** truth value of a string: non-empty *)
Definition truthy (s : string) : bool :=
  match s with EmptyString => false | _ => true end.

(** [s.isascii()]: every character is below 128.  On these strings
    [lower], [strip] and [split] above are Python's. *)
Fixpoint isascii (s : string) : bool :=
  match s with
  | EmptyString => true
  | String c r => Nat.ltb (nat_of_ascii c) 128 && isascii r
  end.

(** [len(set(a) & set(b))] for two lists of tokens *)
Definition common (a b : list string) : nat :=
  List.length (nodup string_dec (filter (fun t => existsb (String.eqb t) b) a)).

Fixpoint join (sep : string) (l : list string) : string :=
  match l with
  | [] => EmptyString
  | [x] => x
  | x :: r => x ++ sep ++ join sep r
  end.

End Str.

(** ** Python floats *)

Class PyFloat := {
  pyfloat : Type;
  (** the literal [0.0] *)
  f_zero : pyfloat;
  (** a literal written with two decimals, given in hundredths: [5.99] is
      [f_cents 599] *)
  f_cents : Z -> pyfloat;
  f_add : pyfloat -> pyfloat -> pyfloat;
  f_mul : pyfloat -> pyfloat -> pyfloat;
  (** conversion of an [int] operand; [None] is [OverflowError] *)
  f_of_int : Z -> option pyfloat;
  (** [round(x, 2)] *)
  f_round2 : pyfloat -> pyfloat;
}.

(** Round to the nearest integer, ties to the even one. *)
Definition round_half_even (q : Q) : Z :=
  let f := Qfloor q in
  match Qcompare (q - inject_Z f)%Q (1 # 2)%Q with
  | Lt => f
  | Gt => (f + 1)%Z
  | Eq => if Z.even f then f else (f + 1)%Z
  end.

Module ExactFloat.

Definition round2 (q : Q) : Q := Qmake (round_half_even (q * 100)%Q) 100.

End ExactFloat.

(** Floats as exact rationals: no rounding of sums and products, no
    overflow. *)
Definition Exact : PyFloat := {|
  pyfloat := Q;
  f_zero := 0%Q;
  f_cents := fun k => Qmake k 100;
  f_add := Qplus;
  f_mul := Qmult;
  f_of_int := fun z => Some (inject_Z z);
  f_round2 := ExactFloat.round2;
|}.

Module Double.

(** The nearest double to an integer. *)
Definition of_Z (z : Z) : float :=
  SF2Prim (binary_normalize prec emax z 0 false).

(** The rational a finite double stands for. *)
Definition to_Q (x : float) : Q :=
  match Prim2SF x with
  | S754_finite s m e =>
      let n := if s then Z.neg m else Z.pos m in
      match e with
      | Z0 => inject_Z n
      | Zpos p => inject_Z (n * Z.pow_pos 2 p)%Z
      | Zneg p => Qmake n (Pos.pow 2 p)
      end
  | _ => 0%Q
  end.

(** [float(z)]: CPython raises [OverflowError] beyond the double range. *)
Definition of_int (z : Z) : option float :=
  let x := of_Z z in
  if is_infinity x then None else Some x.

(** The literal [k/100]: division of two exact doubles is rounded once. *)
Definition cents (k : Z) : float := PrimFloat.div (of_Z k) (of_Z 100).

(** [round(x, 2)] as CPython computes it: the exact value of [x] is
    rounded half-even to hundredths, and the decimal result is read back
    as the nearest double.  From 2^53 hundredths on, doubles are more
    than a hundredth apart and [x] comes back unchanged. *)
Definition round2 (x : float) : float :=
  if is_nan x || is_infinity x || is_zero x then x
  else
    let k := round_half_even (to_Q x * 100)%Q in
    if (Z.abs k <? 2 ^ 53)%Z then
      if (k =? 0)%Z then (if get_sign x then neg_zero else zero)
      else PrimFloat.div (of_Z k) (of_Z 100)
    else x.

End Double.

(** IEEE 754 binary64, the floats of CPython. *)
Definition Binary64 : PyFloat := {|
  pyfloat := float;
  f_zero := zero;
  f_cents := Double.cents;
  f_add := PrimFloat.add;
  f_mul := PrimFloat.mul;
  f_of_int := Double.of_int;
  f_round2 := Double.round2;
|}.

(** ** Outcomes, dictionaries, lists *)

Inductive Exn := IndexError | KeyError | OverflowError.

(** What a call does: it returns a value or lets an exception escape. *)
Inductive Outcome (A : Type) :=
| Return (a : A)
| Raise (e : Exn).
Arguments Return {A} a.
Arguments Raise {A} e.

Section Dict.
Context {V : Type}.

(** A [dict] with [str] keys, in insertion order. *)
Definition dict := list (string * V).

(** [d.get(k)]; [d[k]] raises [KeyError] where this is [None]. *)
Fixpoint dict_get (d : dict) (k : string) : option V :=
  match d with
  | [] => None
  | (k', v) :: r => if String.eqb k k' then Some v else dict_get r k
  end.

(** [k in d] *)
Definition dict_mem (d : dict) (k : string) : bool :=
  match dict_get d k with Some _ => true | None => false end.

(** [d[k] = v]: a present key keeps its place, a new one goes last. *)
Fixpoint dict_set (d : dict) (k : string) (v : V) : dict :=
  match d with
  | [] => [(k, v)]
  | (k', v') :: r =>
      if String.eqb k k' then (k', v) :: r else (k', v') :: dict_set r k v
  end.

Definition dict_keys (d : dict) : list string := map fst d.
Definition dict_values (d : dict) : list V := map snd d.
End Dict.
Arguments dict V : clear implicits.

Section ListPop.
Context {A : Type}.

Fixpoint remove_nth (n : nat) (l : list A) : list A :=
  match n, l with
  | _, [] => []
  | O, _ :: r => r
  | S k, x :: r => x :: remove_nth k r
  end.

(** [l.pop(i)] once [i] is a C [Py_ssize_t]: a negative index counts from
    the end; [None] stands for [IndexError].  The result is the popped
    element and the list left. *)
Definition list_pop (l : list A) (i : Z) : option (A * list A) :=
  let n := Z.of_nat (List.length l) in
  let j := if (i <? 0)%Z then (i + n)%Z else i in
  if ((j <? 0) || (n <=? j))%Z then None
  else match nth_error l (Z.to_nat j) with
       | Some x => Some (x, remove_nth (Z.to_nat j) l)
       | None => None
       end.
End ListPop.

(** The least [Py_ssize_t] of a 64-bit build.  [l.pop(i)] converts its
    argument to a [Py_ssize_t] first, and the conversion of an [int] below
    this one raises [OverflowError].  (An [int] above the greatest
    [Py_ssize_t] is at or past the end of every list.) *)
Definition ssize_t_min : Z := (- 2 ^ 63)%Z.

(** ** Data model *)

Module ItemSize.
Inductive t := SMALL | MEDIUM | LARGE.

Definition value (s : t) : string :=
  match s with SMALL => "small" | MEDIUM => "medium" | LARGE => "large" end.

Definition eqb (a b : t) : bool :=
  match a, b with
  | SMALL, SMALL | MEDIUM, MEDIUM | LARGE, LARGE => true
  | _, _ => false
  end.

(** [size in sizes] for an optional [size]: [None] is in no list. *)
Definition mem (size : option t) (sizes : list t) : bool :=
  match size with
  | Some s => existsb (eqb s) sizes
  | None => false
  end.
End ItemSize.

Module MenuItem.
Record t {F : PyFloat} := mk {
  id : string;
  name : string;
  description : string;
  price : pyfloat;
  category : string;
  available_sizes : option (list ItemSize.t);
  is_available : bool;
}.

(** truth value of [item.available_sizes]: a non-empty list *)
Definition has_sizes {F : PyFloat} (item : t) : bool :=
  match available_sizes item with
  | Some (_ :: _) => true
  | _ => false
  end.

Definition sizes {F : PyFloat} (item : t) : list ItemSize.t :=
  match available_sizes item with Some l => l | None => [] end.
End MenuItem.

Module OrderItem.
Record t {F : PyFloat} := mk {
  menu_item : MenuItem.t;
  quantity : Z;
  size : option ItemSize.t;
  special_instructions : option string;
}.
End OrderItem.

Module Order.
Record t {F : PyFloat} := mk {
  id : string;
  items : list OrderItem.t;
  created_at : Z;
  status : string;
  total : pyfloat;
}.

Section Methods.
Context {F : PyFloat}.

(** [Order(id=...)] with the defaults of the other fields; [now] is what
    [datetime.now] returns. *)
Definition new (id : string) (now : Z) : t :=
  mk F id [] now "in_progress" f_zero.

Definition set_items (o : t) (l : list OrderItem.t) : t :=
  mk F (id o) l (created_at o) (status o) (total o).
Definition set_total (o : t) (x : pyfloat) : t :=
  mk F (id o) (items o) (created_at o) (status o) x.
Definition set_status (o : t) (s : string) : t :=
  mk F (id o) (items o) (created_at o) s (total o).

(** The loop of [calculate_total]; [None] is the [OverflowError] of an
    [int] quantity beyond the floats. *)
Fixpoint total_loop (l : list OrderItem.t) (total : pyfloat) : option pyfloat :=
  match l with
  | [] => Some total
  | item :: r =>
      match f_of_int (OrderItem.quantity item) with
      | Some q =>
          total_loop r
            (f_add total (f_mul (MenuItem.price (OrderItem.menu_item item)) q))
      | None => None
      end
  end.

Definition calculate_total (o : t) : option pyfloat :=
  total_loop (items o) f_zero.
End Methods.
End Order.

(** ** The menu scraper *)

(** What the page holds for one category name: no [h2] with that text, an
    [h2] with no [ul] after it ([find_next] gives [None] and the call on it
    raises), or the texts of the [li] elements of the list that follows. *)
Inductive Listing :=
| NoHeading
| NoList
| Entries (texts : list string).

(** The outside world of one call of [scrape_menu]: the page [requests.get]
    fetches ([None] when it raises), and the values the successive calls of
    [random.uniform(0, 2)] return. *)
Record Web {F : PyFloat} := {
  response : option (string -> Listing);
  uniform : nat -> pyfloat;
}.

(** What a variable holding a menu refers to: the scraper's own [menu_data]
    dictionary, or a dictionary of its own. *)
Inductive MenuRef {F : PyFloat} :=
| ScraperMenuData
| OwnDict (d : dict MenuItem.t).

Module MenuScraper.
Record t {F : PyFloat} := mk {
  base_url : string;
  menu_data : dict MenuItem.t;
  categories : dict (list MenuItem.t);
}.

Section Methods.
Context {F : PyFloat}.

Definition init : t :=
  mk F "https://www.mcdonalds.com/us/en-us/full-menu.html"
    []
    [ ("Featured Favorites", []);
      ("Breakfast", []);
      ("Burgers", []);
      ("Chicken & Fish Sandwiches", []);
      ("McNuggets", []);
      ("Fries & Sides", []);
      ("Happy Meal", []);
      ("McCafé Coffees", []);
      ("Sweets & Treats", []);
      ("Beverages", []) ].

Definition prices : dict Z :=
  [ ("Featured Favorites", 599);
    ("Breakfast", 499);
    ("Burgers", 549);
    ("Chicken & Fish Sandwiches", 599);
    ("McNuggets", 499);
    ("Fries & Sides", 299);
    ("Happy Meal", 449);
    ("McCafé Coffees", 399);
    ("Sweets & Treats", 299);
    ("Beverages", 199) ]%Z.

(** The table of base prices, in hundredths, and its default. *)
Definition base_cents (category : string) : Z :=
  match dict_get prices category with
  | Some c => c
  | None => 499%Z
  end.

Definition _get_base_price (category : string) : pyfloat :=
  f_cents (base_cents category).

Definition descriptions (name : string) : dict string :=
  [ ("Burgers", "A delicious " ++ name ++ " with fresh ingredients");
    ("Breakfast", "A satisfying " ++ name ++ " to start your day");
    ("Beverages", "Refreshing " ++ name);
    ("Sweets & Treats", "Sweet and tasty " ++ name);
    ("McCafé Coffees", "Premium " ++ name ++ " made with quality ingredients");
    ("Fries & Sides", "Crispy and golden " ++ name);
    ("Chicken & Fish Sandwiches", "Tender and flavorful " ++ name);
    ("McNuggets", "Tender and juicy " ++ name);
    ("Happy Meal", "Fun " ++ name ++ " for kids");
    ("Featured Favorites", "Popular " ++ name ++ " that customers love") ]%string.

Definition _generate_description (name category : string) : string :=
  match dict_get (descriptions name) category with
  | Some d => d
  | None => ("Tasty " ++ name)%string
  end.

Definition sized_items : list string :=
  ["Beverages"; "McCafé Coffees"; "Fries & Sides"].

Definition _get_available_sizes (category : string) : option (list ItemSize.t) :=
  if existsb (String.eqb category) sized_items
  then Some [ItemSize.SMALL; ItemSize.MEDIUM; ItemSize.LARGE]
  else None.

(** [self.categories[category_name].append(menu_item)] *)
Definition append_to_category (cats : dict (list MenuItem.t))
    (category_name : string) (menu_item : MenuItem.t) : dict (list MenuItem.t) :=
  match dict_get cats category_name with
  | Some l => dict_set cats category_name (l ++ [menu_item])
  | None => cats
  end.

(** The body of [for item in items] for one [li] with a non-empty text.
    [u] is the value [random.uniform(0, 2)] returns. *)
Definition add_entry (category_name item_name : string) (u : pyfloat) (self : t) : t :=
  let item_id :=
    (Str.take 3 category_name ++ "_"
       ++ Str.of_nat (List.length (menu_data self) + 1))%string in
  let base_price := _get_base_price category_name in
  let price := f_round2 (f_add base_price u) in
  let menu_item :=
    MenuItem.mk F item_id item_name
      (_generate_description item_name category_name)
      price category_name (_get_available_sizes category_name) true in
  mk F (base_url self)
    (dict_set (menu_data self) item_id menu_item)
    (append_to_category (categories self) category_name menu_item).

(** [for item in items]; [drawn] counts the random draws made so far. *)
Fixpoint scrape_entries (w : Web) (category_name : string)
    (texts : list string) (self : t) (drawn : nat) : t * nat :=
  match texts with
  | [] => (self, drawn)
  | text :: r =>
      let item_name := Str.strip text in
      if Str.truthy item_name
      then scrape_entries w category_name r
             (add_entry category_name item_name (uniform w drawn) self)
             (S drawn)
      else scrape_entries w category_name r self drawn
  end.

(** [for category_name in self.categories.keys()].  The boolean tells
    whether the loop ran to its end: it is [false] when an exception
    stopped it, and the scraper keeps what was stored until then. *)
Fixpoint scrape_categories (w : Web) (page : string -> Listing)
    (names : list string) (self : t) (drawn : nat) : bool * t :=
  match names with
  | [] => (true, self)
  | category_name :: r =>
      match page category_name with
      | NoHeading => scrape_categories w page r self drawn
      | NoList => (false, self)
      | Entries texts =>
          let '(self', drawn') := scrape_entries w category_name texts self drawn in
          scrape_categories w page r self' drawn'
      end
  end.

(** [scrape_menu]: the dictionary returned and the scraper afterwards.
    On success the result is [self.menu_data] itself, after an exception
    it is a new empty dictionary. *)
Definition scrape_menu (w : Web) (self : t) : MenuRef * t :=
  match response w with
  | None => (OwnDict [], self)
  | Some page =>
      match scrape_categories w page (dict_keys (categories self)) self 0 with
      | (true, self') => (ScraperMenuData, self')
      | (false, self') => (OwnDict [], self')
      end
  end.
End Methods.
End MenuScraper.

(** ** The session object *)

Module DriveThruAI.
Record t {F : PyFloat} := mk {
  menu_scraper : MenuScraper.t;
  menu : MenuRef;
  current_order : option Order.t;
  orders_history : list Order.t;
}.

Section Methods.
Context {F : PyFloat}.

Definition set_current_order (self : t) (o : option Order.t) : t :=
  mk F (menu_scraper self) (menu self) o (orders_history self).

(** The dictionary a reference stands for, given the scraper. *)
Definition contents (r : MenuRef) (scraper : MenuScraper.t) : dict MenuItem.t :=
  match r with
  | ScraperMenuData => MenuScraper.menu_data scraper
  | OwnDict d => d
  end.

(** The dictionary [self.menu] refers to. *)
Definition get_menu (self : t) : dict MenuItem.t :=
  contents (menu self) (menu_scraper self).

Definition get_current_order (self : t) : option Order.t := current_order self.
Definition get_order_history (self : t) : list Order.t := orders_history self.

(** [DriveThruAI()] *)
Definition init (w : Web) : t :=
  let '(m, scraper) := MenuScraper.scrape_menu w MenuScraper.init in
  mk F scraper m None [].

Definition refresh_menu (w : Web) (self : t) : t :=
  let '(m, scraper) := MenuScraper.scrape_menu w (menu_scraper self) in
  mk F scraper m (current_order self) (orders_history self).

Definition start_new_order (now : Z) (self : t) : Order.t * t :=
  let order :=
    Order.new ("order_" ++ Str.of_nat (List.length (orders_history self) + 1)) now in
  (order, set_current_order self (Some order)).

Definition add_item_to_order (self : t) (item_id : string) (quantity : Z)
    (size : option ItemSize.t) (special_instructions : option string)
    : Outcome bool * t :=
  match current_order self with
  | None => (Return false, self)
  | Some order =>
      match dict_get (get_menu self) item_id with
      | None => (Return false, self)
      | Some menu_item =>
          if MenuItem.has_sizes menu_item
             && negb (ItemSize.mem size (MenuItem.sizes menu_item))
          then (Return false, self)
          else
            let order_item :=
              OrderItem.mk F menu_item quantity size special_instructions in
            let order := Order.set_items order (Order.items order ++ [order_item]) in
            match Order.calculate_total order with
            | None => (Raise OverflowError, set_current_order self (Some order))
            | Some x =>
                (Return true, set_current_order self (Some (Order.set_total order x)))
            end
      end
  end.

Definition remove_item_from_order (self : t) (item_index : Z) : Outcome bool * t :=
  match current_order self with
  | None => (Return false, self)
  | Some order =>
      if (Z.of_nat (List.length (Order.items order)) <=? item_index)%Z
      then (Return false, self)
      else if (item_index <? ssize_t_min)%Z then (Raise OverflowError, self)
      else
        match list_pop (Order.items order) item_index with
        | None => (Raise IndexError, self)
        | Some (_, rest) =>
            let order := Order.set_items order rest in
            match Order.calculate_total order with
            | None => (Raise OverflowError, set_current_order self (Some order))
            | Some x =>
                (Return true, set_current_order self (Some (Order.set_total order x)))
            end
        end
  end.

Definition checkout (self : t) : bool * t :=
  match current_order self with
  | None => (false, self)
  | Some order =>
      match Order.items order with
      | [] => (false, self)
      | _ :: _ =>
          let order := Order.set_status order "completed" in
          (true,
           mk F (menu_scraper self) (menu self) None (orders_history self ++ [order]))
      end
  end.
End Methods.
End DriveThruAI.

(** ** The agent's tools *)

(** What a tool answers; [message] is the text it returns. *)
Inductive Reply {F : PyFloat} :=
| NotOnMenu (item_name : string)
| WhichMilk
| WhichCoffee
| WhichSize (menu_item : MenuItem.t)
| Added (quantity : Z) (menu_item : MenuItem.t) (size : option ItemSize.t)
| NotAdded
| OrderEmpty
| NotInOrder (item_name : string)
| Removed (removed_count : nat) (item_name : string)
| CheckedOut
| NotCheckedOut.

Section Tools.
Context {F : PyFloat}.

Definition message (r : Reply) : string :=
  match r with
  | NotOnMenu item_name =>
      "Sorry, I couldn't find '" ++ item_name
        ++ "' on the menu. Please check the menu and try again."
  | WhichMilk =>
      "I see you want milk. Would you like 1% Low Fat Milk Jug or Reduced Sugar Low Fat Chocolate Milk Jug?"
  | WhichCoffee =>
      "I see you want coffee. Would you like regular McCafé Premium Roast Coffee or one of our specialty drinks?"
  | WhichSize menu_item =>
      "I see you want " ++ MenuItem.name menu_item
        ++ ". What size would you like? Available sizes: "
        ++ Str.join ", " (map ItemSize.value (MenuItem.sizes menu_item))
  | Added quantity menu_item size =>
      "Added " ++ Str.of_Z quantity ++ "x " ++ MenuItem.name menu_item
        ++ match size with
           | Some s => " (" ++ ItemSize.value s ++ ")"
           | None => ""
           end
        ++ " to your order"
  | NotAdded => "Sorry, I couldn't add that item to your order"
  | OrderEmpty => "Your order is currently empty."
  | NotInOrder item_name =>
      "Sorry, I couldn't find '" ++ item_name ++ "' in your current order."
  | Removed removed_count item_name =>
      "Removed " ++ Str.of_nat removed_count ++ "x " ++ item_name ++ " from your order"
  | CheckedOut =>
      "Thank you for your order! Your order has been completed. Please pull forward to the next window."
  | NotCheckedOut =>
      "Sorry, I couldn't process your checkout. Your order might be empty."
  end%string.

(** The clean-up of the name the customer gave. *)
Definition clean_input (item_name : string) : string :=
  let input_name := Str.strip (Str.lower item_name) in
  let input_name := Str.replace " and " " & " input_name in
  let input_name := Str.replace " with " " w/ " input_name in
  Str.replace " meal" "" input_name.

(** The clean-up of a menu item's name. *)
Definition clean_menu_name (name : string) : string :=
  let menu_name := Str.lower name in
  let menu_name := Str.replace " and " " & " menu_name in
  let menu_name := Str.replace " with " " w/ " menu_name in
  Str.replace " meal" "" menu_name.

Definition partial_match (input_name menu_name : string) : bool :=
  Str.contains input_name menu_name || Str.contains menu_name input_name.

Definition score (input_name menu_name : string) : nat :=
  Str.common (Str.split input_name) (Str.split menu_name).

(** [for id, item in ctx.deps.menu.items()], from the entries still to
    visit and the current [best_match] and [best_score]; the result is
    [item_id] and [best_match] when the loop is left. *)
Fixpoint match_loop (input_name : string) (entries : dict MenuItem.t)
    (best_match : option string) (best_score : nat)
    : option string * option string :=
  match entries with
  | [] => (None, best_match)
  | (id, item) :: r =>
      let menu_name := clean_menu_name (MenuItem.name item) in
      if String.eqb input_name menu_name then (Some id, best_match)
      else if partial_match input_name menu_name then
        let score := score input_name menu_name in
        if Nat.ltb best_score score
        then match_loop input_name r (Some id) score
        else match_loop input_name r best_match best_score
      else match_loop input_name r best_match best_score
  end.

(** truth value of a variable that holds [None] or a string *)
Definition truthy (x : option string) : bool :=
  match x with Some s => Str.truthy s | None => false end.

(** The search of [add_to_order] for the item named: the value of
    [item_id] once the best partial match has been taken into account. *)
Definition find_item (menu : dict MenuItem.t) (item_name : string) : option string :=
  let '(item_id, best_match) := match_loop (clean_input item_name) menu None 0 in
  if negb (truthy item_id) && truthy best_match then best_match else item_id.

Definition ensure_order (now : Z) (deps : DriveThruAI.t) : DriveThruAI.t :=
  match DriveThruAI.current_order deps with
  | None => snd (DriveThruAI.start_new_order now deps)
  | Some _ => deps
  end.

Definition add_to_order (now : Z) (deps : DriveThruAI.t) (item_name : string)
    (quantity : Z) (size : option ItemSize.t) (special_instructions : option string)
    : Outcome Reply * DriveThruAI.t :=
  let deps := ensure_order now deps in
  let item_id := find_item (DriveThruAI.get_menu deps) item_name in
  if negb (truthy item_id) then (Return (NotOnMenu item_name), deps)
  else
    let item_id := match item_id with Some s => s | None => EmptyString end in
    match dict_get (DriveThruAI.get_menu deps) item_id with
    | None => (Raise KeyError, deps)
    | Some menu_item =>
        if Str.contains "milk" (Str.lower (MenuItem.name menu_item))
        then (Return WhichMilk, deps)
        else if Str.contains "coffee" (Str.lower (MenuItem.name menu_item))
        then (Return WhichCoffee, deps)
        else if MenuItem.has_sizes menu_item
                && match size with None => true | Some _ => false end
        then (Return (WhichSize menu_item), deps)
        else
          match DriveThruAI.add_item_to_order deps item_id quantity size
                  special_instructions with
          | (Return true, deps') => (Return (Added quantity menu_item size), deps')
          | (Return false, deps') => (Return NotAdded, deps')
          | (Raise e, deps') => (Raise e, deps')
          end
    end.

(** The positions, in increasing order, of the lines whose item name
    holds [item_name], whatever the case. *)
Fixpoint positions (item_name : string) (l : list OrderItem.t) (i : nat) : list nat :=
  match l with
  | [] => []
  | order_item :: r =>
      if Str.contains (Str.lower item_name)
           (Str.lower (MenuItem.name (OrderItem.menu_item order_item)))
      then i :: positions item_name r (S i)
      else positions item_name r (S i)
  end.

(** [for i in sorted(items_to_remove, reverse=True)], on the positions
    already put in decreasing order.  [None] stands for the [IndexError] of
    a [pop] out of range, which the positions found never cause. *)
Fixpoint pop_loop (quantity : Z) (to_visit : list nat)
    (l : list OrderItem.t) (removed_count : nat)
    : option (list OrderItem.t * nat) :=
  match to_visit with
  | [] => Some (l, removed_count)
  | i :: r =>
      if (Z.of_nat removed_count <? quantity)%Z
      then match list_pop l (Z.of_nat i) with
           | Some (_, l') => pop_loop quantity r l' (S removed_count)
           | None => None
           end
      else pop_loop quantity r l removed_count
  end.

Definition remove_from_order (deps : DriveThruAI.t) (item_name : string)
    (quantity : Z) : Outcome Reply * DriveThruAI.t :=
  match DriveThruAI.current_order deps with
  | None => (Return OrderEmpty, deps)
  | Some order =>
      match Order.items order with
      | [] => (Return OrderEmpty, deps)
      | _ :: _ =>
          let items_to_remove := positions item_name (Order.items order) 0 in
          match items_to_remove with
          | [] => (Return (NotInOrder item_name), deps)
          | _ :: _ =>
              match pop_loop quantity (rev items_to_remove) (Order.items order) 0 with
              | None => (Raise IndexError, deps)
              | Some (rest, removed_count) =>
                  let order := Order.set_items order rest in
                  match Order.calculate_total order with
                  | None =>
                      (Raise OverflowError,
                       DriveThruAI.set_current_order deps (Some order))
                  | Some x =>
                      (Return (Removed removed_count item_name),
                       DriveThruAI.set_current_order deps
                         (Some (Order.set_total order x)))
                  end
              end
          end
      end
  end.

Definition checkout_order (deps : DriveThruAI.t) : Reply * DriveThruAI.t :=
  match DriveThruAI.checkout deps with
  | (true, deps') => (CheckedOut, deps')
  | (false, deps') => (NotCheckedOut, deps')
  end.
End Tools.

(** ** The sum the total is compared with, and runs of mutations *)

Section Sums.
Context {F : PyFloat}.

(** [item.price * line.quantity] for one line *)
Definition line_amount (line : OrderItem.t) : option pyfloat :=
  match f_of_int (OrderItem.quantity line) with
  | Some q => Some (f_mul (MenuItem.price (OrderItem.menu_item line)) q)
  | None => None
  end.

Definition add_amount (acc : option pyfloat) (line : OrderItem.t) : option pyfloat :=
  match acc, line_amount line with
  | Some a, Some x => Some (f_add a x)
  | _, _ => None
  end.

(** [sum(item.price * line.quantity for line in lines)]: the amounts are
    added from the left, starting from zero. *)
Definition lines_sum (lines : list OrderItem.t) : option pyfloat :=
  fold_left add_amount lines (Some f_zero).

(** The total of an order agrees with its lines. *)
Definition total_matches (o : Order.t) : Prop :=
  lines_sum (Order.items o) = Some (Order.total o).
End Sums.

(** A mutation of the active order, by a method of the session or by a tool. *)
Inductive Mutation :=
| AddItem (item_id : string) (quantity : Z) (size : option ItemSize.t)
    (special_instructions : option string)
| RemoveItem (item_index : Z)
| AddToOrder (now : Z) (item_name : string) (quantity : Z)
    (size : option ItemSize.t) (special_instructions : option string)
| RemoveFromOrder (item_name : string) (quantity : Z).

Section Runs.
Context {F : PyFloat}.

(** One mutation: whether it succeeded (the method returned [True], the
    tool reported the line added or lines removed) and the session after. *)
Definition apply (m : Mutation) (deps : DriveThruAI.t) : bool * DriveThruAI.t :=
  match m with
  | AddItem item_id quantity size special_instructions =>
      match DriveThruAI.add_item_to_order deps item_id quantity size
              special_instructions with
      | (Return b, deps') => (b, deps')
      | (Raise _, deps') => (false, deps')
      end
  | RemoveItem item_index =>
      match DriveThruAI.remove_item_from_order deps item_index with
      | (Return b, deps') => (b, deps')
      | (Raise _, deps') => (false, deps')
      end
  | AddToOrder now item_name quantity size special_instructions =>
      match add_to_order now deps item_name quantity size special_instructions with
      | (Return (Added _ _ _), deps') => (true, deps')
      | (_, deps') => (false, deps')
      end
  | RemoveFromOrder item_name quantity =>
      match remove_from_order deps item_name quantity with
      | (Return (Removed _ _), deps') => (true, deps')
      | (_, deps') => (false, deps')
      end
  end.

(** The sessions a sequence of mutations goes through, one per mutation,
    each with the success of the mutation that led to it. *)
Fixpoint run (ms : list Mutation) (deps : DriveThruAI.t) : list (bool * DriveThruAI.t) :=
  match ms with
  | [] => []
  | m :: r => let '(b, deps') := apply m deps in (b, deps') :: run r deps'
  end.
End Runs.

(** ** Sessions the program can be in *)

Inductive reachable {F : PyFloat} : DriveThruAI.t -> Prop :=
| reach_init w : reachable (DriveThruAI.init w)
| reach_refresh w deps :
    reachable deps -> reachable (DriveThruAI.refresh_menu w deps)
| reach_start now deps :
    reachable deps -> reachable (snd (DriveThruAI.start_new_order now deps))
| reach_checkout deps :
    reachable deps -> reachable (snd (DriveThruAI.checkout deps))
| reach_apply m deps :
    reachable deps -> reachable (snd (apply m deps)).

(** ** A small menu page and the sessions built from it *)

Module Fixture.

Definition page (category_name : string) : Listing :=
  if String.eqb category_name "Burgers" then Entries ["Big Mac"; " Big Mac Meal "]
  else if String.eqb category_name "McNuggets" then Entries ["McNuggets"; "  "]
  else if String.eqb category_name "McCafé Coffees"
  then Entries ["McCafé Premium Roast Coffee"]
  else if String.eqb category_name "Beverages" then Entries ["Coca-Cola"]
  else NoHeading.

(** Every draw of [random.uniform(0, 2)] gives [u]. *)
Definition web (u : float) : @Web Binary64 :=
  @Build_Web Binary64 (Some page) (fun _ => u).

Definition exact_web (u : Q) : @Web Exact :=
  @Build_Web Exact (Some page) (fun _ => u).

(** The session at start-up, then with an empty order, then with two
    Big Macs in it. *)
Definition session : @DriveThruAI.t Binary64 :=
  DriveThruAI.init (web (Double.cents 50)).

(** The double nearest to 1.996. *)
Definition high_draw : float := PrimFloat.div (Double.of_Z 1996) (Double.of_Z 1000).

Definition started : @DriveThruAI.t Binary64 :=
  snd (DriveThruAI.start_new_order 0 session).

(** The session when the order is started at time 7. *)
Definition started' : @DriveThruAI.t Binary64 :=
  snd (DriveThruAI.start_new_order 7 session).

Definition two_big_macs : Mutation := AddItem "Bur_1" 2 None None.

(** The items of the menu of [session]. *)
Definition big_mac : @MenuItem.t Binary64 :=
  MenuItem.mk Binary64 "Bur_1" "Big Mac"
    "A delicious Big Mac with fresh ingredients"
    (Double.cents 599) "Burgers" None true.

Definition big_mac_meal : @MenuItem.t Binary64 :=
  MenuItem.mk Binary64 "Bur_2" "Big Mac Meal"
    "A delicious Big Mac Meal with fresh ingredients"
    (Double.cents 599) "Burgers" None true.

Definition mcnuggets : @MenuItem.t Binary64 :=
  MenuItem.mk Binary64 "McN_3" "McNuggets" "Tender and juicy McNuggets"
    (Double.cents 549) "McNuggets" None true.

Definition coffee : @MenuItem.t Binary64 :=
  MenuItem.mk Binary64 "McC_4" "McCafé Premium Roast Coffee"
    "Premium McCafé Premium Roast Coffee made with quality ingredients"
    (Double.cents 449) "McCafé Coffees"
    (Some [ItemSize.SMALL; ItemSize.MEDIUM; ItemSize.LARGE]) true.

Definition coca_cola : @MenuItem.t Binary64 :=
  MenuItem.mk Binary64 "Bev_5" "Coca-Cola" "Refreshing Coca-Cola"
    (Double.cents 249) "Beverages"
    (Some [ItemSize.SMALL; ItemSize.MEDIUM; ItemSize.LARGE]) true.

Definition menu : dict (@MenuItem.t Binary64) :=
  [ ("Bur_1", big_mac); ("Bur_2", big_mac_meal); ("McN_3", mcnuggets);
    ("McC_4", coffee); ("Bev_5", coca_cola) ].

Definition ordering : @DriveThruAI.t Binary64 := snd (apply two_big_macs started).

End Fixture.

(** ** The words of the properties *)

Section Vocabulary.
Context {F : PyFloat}.

(** The session has an active order whose total agrees with its lines. *)
Definition active_total_matches (deps : DriveThruAI.t) : Prop :=
  exists o, DriveThruAI.current_order deps = Some o /\ total_matches o.

Definition all_sizes : list ItemSize.t :=
  [ItemSize.SMALL; ItemSize.MEDIUM; ItemSize.LARGE].

(** The sizes the scraper gives an item: none, or all three. *)
Definition scraped_sizes (item : MenuItem.t) : Prop :=
  MenuItem.available_sizes item = None
  \/ MenuItem.available_sizes item = Some all_sizes.

(** The invariant of the session. *)
Record session_ok (deps : DriveThruAI.t) : Prop := {
  ok_menu :
    DriveThruAI.menu deps = ScraperMenuData \/ DriveThruAI.menu deps = OwnDict [];
  ok_sizes :
    Forall scraped_sizes
      (dict_values (MenuScraper.menu_data (DriveThruAI.menu_scraper deps)));
  ok_current :
    forall o, DriveThruAI.current_order deps = Some o ->
              Order.status o = "in_progress";
  ok_history :
    Forall (fun o => Order.status o = "completed") (DriveThruAI.orders_history deps);
}.

(** What a mutation leaves alone: the scraper, the menu, the history, and
    the status of the active order. *)
Definition only_order_changes (deps deps' : DriveThruAI.t) : Prop :=
  DriveThruAI.menu_scraper deps' = DriveThruAI.menu_scraper deps
  /\ DriveThruAI.menu deps' = DriveThruAI.menu deps
  /\ DriveThruAI.orders_history deps' = DriveThruAI.orders_history deps
  /\ forall o', DriveThruAI.current_order deps' = Some o' ->
       Order.status o' = "in_progress"
       \/ exists o, DriveThruAI.current_order deps = Some o
                    /\ Order.status o' = Order.status o.

(** The cleaned name of the item is the cleaned name asked for. *)
Definition exact_match (item_name : string) (item : MenuItem.t) : Prop :=
  clean_menu_name (MenuItem.name item) = clean_input item_name.

(** One cleaned name is inside the other. *)
Definition substring_match (item_name : string) (item : MenuItem.t) : Prop :=
  partial_match (clean_input item_name) (clean_menu_name (MenuItem.name item)) = true.

(** The number of distinct words the two cleaned names share. *)
Definition match_score (item_name : string) (item : MenuItem.t) : nat :=
  score (clean_input item_name) (clean_menu_name (MenuItem.name item)).

Definition no_exact_match (item_name : string) (entries : dict MenuItem.t) : Prop :=
  forall id item, In (id, item) entries -> ~ exact_match item_name item.

(** Among [before ++ (id, item) :: after], [item] is the first of the
    substring matches with the largest score. *)
Definition first_best (item_name : string)
    (before : dict MenuItem.t) (item : MenuItem.t) (after : dict MenuItem.t) : Prop :=
  substring_match item_name item
  /\ (forall id' item', In (id', item') before -> substring_match item_name item' ->
        match_score item_name item' < match_score item_name item)
  /\ (forall id' item', In (id', item') after -> substring_match item_name item' ->
        match_score item_name item' <= match_score item_name item).

(** [best_match] and [best_score] after the entries, when none of them
    is an exact match. *)
Fixpoint best_after (input_name : string) (entries : dict MenuItem.t)
    (best_match : option string) (best_score : nat) : option string * nat :=
  match entries with
  | [] => (best_match, best_score)
  | (id, item) :: r =>
      let menu_name := clean_menu_name (MenuItem.name item) in
      if partial_match input_name menu_name
         && Nat.ltb best_score (score input_name menu_name)
      then best_after input_name r (Some id) (score input_name menu_name)
      else best_after input_name r best_match best_score
  end.

(** The word is in the name of the item, as written or once the name is
    put in lower case. *)
Definition mentions (word : string) (item : MenuItem.t) : Prop :=
  Str.contains word (MenuItem.name item) = true
  \/ Str.contains word (Str.lower (MenuItem.name item)) = true.

Definition lower_case (s : string) : Prop := Str.lower s = s.
End Vocabulary.

Module PriceRange.

(** Every draw of [random.uniform(0, 2)] is in [[0, 2)]. *)
Definition jitter_in_range (w : @Web Exact) : Prop :=
  forall i, (0 <= uniform w i < 2)%Q.

(** The price is at least the base price of the item's category and below
    the base price plus 2. *)
Definition in_half_open_range (item : @MenuItem.t Exact) : Prop :=
  let base := MenuScraper._get_base_price (F := Exact) (MenuItem.category item) in
  (base <= MenuItem.price item < base + 2)%Q.

End PriceRange.

(** The range of the prices as the program computes them, with doubles. *)
Module DoublePrices.

(** Every draw of [random.uniform(0, 2)] is a double [u] for which Python
    finds [0.0 <= u] and [u < 2.0]. *)
Definition jitter_in_range (w : @Web Binary64) : Prop :=
  forall i,
    PrimFloat.leb zero (uniform w i) = true /\ PrimFloat.ltb (uniform w i) two = true.

(** The price is the literal of a whole number of hundredths, from the
    base price of the item's category to that base price plus 2.00, and
    Python finds [base <= price] and [price <= base + 2.0]. *)
Definition in_closed_range (item : @MenuItem.t Binary64) : Prop :=
  let k := MenuScraper.base_cents (MenuItem.category item) in
  let base := MenuScraper._get_base_price (F := Binary64) (MenuItem.category item) in
  (exists n, (k <= n <= k + 200)%Z /\ MenuItem.price item = Double.cents n)
  /\ PrimFloat.leb base (MenuItem.price item) = true
  /\ PrimFloat.leb (MenuItem.price item) (PrimFloat.add base two) = true.

(** The base prices, in hundredths: the default and those of the table. *)
Definition base_prices : list Z := 499%Z :: dict_values MenuScraper.prices.

(** Python finds [base <= p] and [p <= base + 2.0] for the literal [p] of
    each number of hundredths from [k] to [k + 200], [base] being the
    literal of [k] hundredths. *)
Definition literals_in_range (k : Z) : bool :=
  forallb (fun i =>
             let p := Double.cents (k + Z.of_nat i) in
             PrimFloat.leb (Double.cents k) p
             && PrimFloat.leb p (PrimFloat.add (Double.cents k) two))
    (seq 0 201).

End DoublePrices.

(** ** Further words *)

Section FurtherWords.
Context {F : PyFloat}.

(** The line [add_item_to_order] builds. *)
Definition new_line (menu_item : MenuItem.t) (quantity : Z)
    (size : option ItemSize.t) (special_instructions : option string) : OrderItem.t :=
  OrderItem.mk F menu_item quantity size special_instructions.

(** The size asked for is one the item accepts: the item has no sizes, or
    the size is among them. *)
Definition size_accepted (menu_item : MenuItem.t) (size : option ItemSize.t) : bool :=
  negb (MenuItem.has_sizes menu_item && negb (ItemSize.mem size (MenuItem.sizes menu_item))).

(** The id the [n]-th order of a session gets. *)
Definition order_id (n : nat) : string := ("order_" ++ Str.of_nat n)%string.

(** The orders of the history are numbered from 1 in the order of their
    checkout, and the active order has the next number. *)
Definition order_ids_ok (deps : DriveThruAI.t) : Prop :=
  (forall i o, nth_error (DriveThruAI.orders_history deps) i = Some o ->
               Order.id o = order_id (i + 1))
  /\ (forall o, DriveThruAI.current_order deps = Some o ->
                Order.id o = order_id (List.length (DriveThruAI.orders_history deps) + 1)).

(** What a mutation leaves alone, as to the ids: the history, and the id of
    the active order, unless the order is new and has the next number. *)
Definition order_id_kept (deps deps' : DriveThruAI.t) : Prop :=
  DriveThruAI.orders_history deps' = DriveThruAI.orders_history deps
  /\ forall o', DriveThruAI.current_order deps' = Some o' ->
       Order.id o' = order_id (List.length (DriveThruAI.orders_history deps) + 1)
       \/ exists o, DriveThruAI.current_order deps = Some o /\ Order.id o' = Order.id o.
(** The name asked for is inside the name of the line's item, whatever the
    case of the letters. *)
Definition line_matches (item_name : string) (line : OrderItem.t) : bool :=
  Str.contains (Str.lower item_name)
    (Str.lower (MenuItem.name (OrderItem.menu_item line))).

Definition count_matching (item_name : string) (l : list OrderItem.t) : nat :=
  List.length (filter (line_matches item_name) l).

(** The lines without the first [n] of those that match. *)
Fixpoint drop_matching (item_name : string) (n : nat) (l : list OrderItem.t)
    : list OrderItem.t :=
  match l with
  | [] => []
  | line :: r =>
      if line_matches item_name line
      then match n with
           | O => line :: drop_matching item_name O r
           | S k => drop_matching item_name k r
           end
      else line :: drop_matching item_name n r
  end.

(** The lines without the last [n] of those that match. *)
Definition drop_last_matching (item_name : string) (n : nat) (l : list OrderItem.t)
    : list OrderItem.t :=
  rev (drop_matching item_name n (rev l)).

(** The lines of the active order; none when there is no order. *)
Definition active_lines (deps : DriveThruAI.t) : list OrderItem.t :=
  match DriveThruAI.current_order deps with
  | Some o => Order.items o
  | None => []
  end.
(** The names of the categories a scraper starts with. *)
Definition category_names : list string :=
  dict_keys (MenuScraper.categories MenuScraper.init).

(** The scrapers the program can hold. *)
Inductive scraper_reachable : MenuScraper.t -> Prop :=
| scraper_new : scraper_reachable MenuScraper.init
| scraper_scraped w self :
    scraper_reachable self -> scraper_reachable (snd (MenuScraper.scrape_menu w self)).

(** What the entry at position [i] of [menu_data] (from 0) looks like: its
    key is made of the first three letters of its category and of [i + 1],
    and is the id of the item; the name is not empty and has no ASCII
    white space at either end; the description and the sizes are those of
    the category. *)
Definition entry_at (i : nat) (key : string) (item : MenuItem.t) : Prop :=
  In (MenuItem.category item) category_names
  /\ key = (Str.take 3 (MenuItem.category item) ++ "_" ++ Str.of_nat (i + 1))%string
  /\ MenuItem.id item = key
  /\ Str.truthy (MenuItem.name item) = true
  /\ Str.strip (MenuItem.name item) = MenuItem.name item
  /\ MenuItem.description item
     = MenuScraper._generate_description (MenuItem.name item) (MenuItem.category item)
  /\ MenuItem.available_sizes item
     = MenuScraper._get_available_sizes (MenuItem.category item)
  /\ MenuItem.is_available item = true.

(** The items of a category among the items given. *)
Definition of_category (category_name : string) (items : list MenuItem.t)
    : list MenuItem.t :=
  filter (fun item => String.eqb (MenuItem.category item) category_name) items.

(** The invariant of the scraper. *)
Record scraper_ok (self : MenuScraper.t) : Prop := {
  ok_names : dict_keys (MenuScraper.categories self) = category_names;
  ok_entries :
    forall i key item,
      nth_error (MenuScraper.menu_data self) i = Some (key, item) ->
      entry_at i key item;
  ok_lists :
    forall category_name l,
      dict_get (MenuScraper.categories self) category_name = Some l ->
      l = of_category category_name (dict_values (MenuScraper.menu_data self));
}.

(** The categories and names of the entries a build adds for a page: for
    each category in turn, the texts of its list, stripped, the empty ones
    left out; nothing from a category whose list is missing on. *)
Fixpoint page_entries (page : string -> Listing) (names : list string)
    : list (string * string) :=
  match names with
  | [] => []
  | category_name :: r =>
      match page category_name with
      | NoHeading => page_entries page r
      | NoList => []
      | Entries texts =>
          map (pair category_name) (filter Str.truthy (map Str.strip texts))
            ++ page_entries page r
      end
  end.

(** The page has a list, or no heading, for each of the names. *)
Fixpoint page_complete (page : string -> Listing) (names : list string) : bool :=
  match names with
  | [] => true
  | category_name :: r =>
      match page category_name with
      | NoList => false
      | _ => page_complete page r
      end
  end.

(** The category and the name of each entry. *)
Definition entry_names (entries : dict MenuItem.t) : list (string * string) :=
  map (fun e => (MenuItem.category (snd e), MenuItem.name (snd e))) entries.
End FurtherWords.

(** ** Names in ASCII *)

Section AsciiNames.
Context {F : PyFloat}.

(** Every item of the menu has a name in ASCII. *)
Definition menu_isascii (menu : dict MenuItem.t) : bool :=
  forallb (fun entry => Str.isascii (MenuItem.name (snd entry))) menu.

(** Every line is for an item with a name in ASCII. *)
Definition lines_isascii (l : list OrderItem.t) : bool :=
  forallb (fun line => Str.isascii (MenuItem.name (OrderItem.menu_item line))) l.
End AsciiNames.

(** The texts of the lists the page has for the names are in ASCII. *)
Fixpoint page_isascii (page : string -> Listing) (names : list string) : bool :=
  match names with
  | [] => true
  | category_name :: r =>
      match page category_name with
      | Entries texts => forallb Str.isascii texts
      | _ => true
      end && page_isascii page r
  end.

(** ** Further sessions *)

Module Scenario.

(** The fixture with three lines: two Big Macs, a large Coca-Cola and a
    Big Mac Meal. *)
Definition three_lines : @DriveThruAI.t Binary64 :=
  snd (apply (AddItem "Bur_2" 1 None None)
         (snd (apply (AddItem "Bev_5" 1 (Some ItemSize.LARGE) None) Fixture.ordering))).

Definition three_lines_order : @Order.t Binary64 :=
  match DriveThruAI.current_order three_lines with
  | Some o => o
  | None => Order.new EmptyString 0
  end.

(** The order of the fixture with its two Big Macs. *)
Definition ordering_order : @Order.t Binary64 :=
  match DriveThruAI.current_order Fixture.ordering with
  | Some o => o
  | None => Order.new EmptyString 0
  end.

(** The names of the items of the lines of the active order. *)
Definition line_names (deps : @DriveThruAI.t Binary64) : list string :=
  map (fun line => MenuItem.name (OrderItem.menu_item line)) (active_lines deps).

(** A fetch that fails, and a page whose list of burgers is missing. *)
Definition no_web : @Web Binary64 :=
  @Build_Web Binary64 None (fun _ => Double.cents 50).

Definition broken_page (category_name : string) : Listing :=
  if String.eqb category_name "Breakfast" then Entries ["Egg McMuffin"]
  else if String.eqb category_name "Burgers" then NoList
  else Fixture.page category_name.

Definition broken_web : @Web Binary64 :=
  @Build_Web Binary64 (Some broken_page) (fun _ => Double.cents 50).

(** The fixture page without its coffee: every text is in ASCII.  The
    session built from it, its menu, and the session with an order of two
    Big Macs. *)
Definition ascii_page (category_name : string) : Listing :=
  if String.eqb category_name "McCafé Coffees" then NoHeading
  else Fixture.page category_name.

Definition ascii_web : @Web Binary64 :=
  @Build_Web Binary64 (Some ascii_page) (fun _ => Double.cents 50).

Definition ascii_session : @DriveThruAI.t Binary64 := DriveThruAI.init ascii_web.

Definition coca_cola : @MenuItem.t Binary64 :=
  MenuItem.mk Binary64 "Bev_4" "Coca-Cola" "Refreshing Coca-Cola"
    (Double.cents 249) "Beverages"
    (Some [ItemSize.SMALL; ItemSize.MEDIUM; ItemSize.LARGE]) true.

Definition ascii_menu : dict (@MenuItem.t Binary64) :=
  [ ("Bur_1", Fixture.big_mac); ("Bur_2", Fixture.big_mac_meal);
    ("McN_3", Fixture.mcnuggets); ("Bev_4", coca_cola) ].

Definition ascii_ordering : @DriveThruAI.t Binary64 :=
  snd (apply Fixture.two_big_macs (snd (DriveThruAI.start_new_order 0 ascii_session))).

End Scenario.

(** ** Tactics *)

(** Case analysis on whatever the goal matches on. *)
Ltac split_match :=
  match goal with
  | |- context [match ?x with _ => _ end] => destruct x eqn:?
  end.

(** Case analysis on the entries of a menu given in full. *)
Ltac each_entry :=
  repeat match goal with
         | H : In _ (_ :: _) |- _ =>
             destruct H as [H|H]; [inversion H; subst; clear H|]
         | H : In _ [] |- _ => destruct H
         | H : In _ (_ ++ _) |- _ => cbn [app] in H
         end.

(** * Properties *)

(** ** The library functions on examples *)

Example str_ops :
  Str.replace " meal" "" (Str.strip (Str.lower "  Big Mac Meal ")) = "big mac"
  /\ Str.split " a  bc d " = ["a"; "bc"; "d"]
  /\ Str.contains "mac" "big mac" = true
  /\ Str.replace " and " " & " "mac and cheese and fries" = "mac & cheese & fries"
  /\ (Str.take 3 "McCafé Coffees" ++ "_" ++ Str.of_nat 12)%string = "McC_12".
Proof. repeat split; reflexivity. Qed.

Example double_ops :
  Double.round2 (PrimFloat.add (Double.cents 549%Z) (Double.cents 199%Z)) = Double.cents 748%Z
  /\ Double.round2 (Double.cents (-1)%Z) = Double.cents (-1)%Z
  /\ Double.of_int (2 ^ 1024)%Z = None
  /\ Double.of_int 3%Z = Some (Double.cents 300%Z).
Proof. repeat split; vm_compute; reflexivity. Qed.

(** ** The total after a mutation *)

Section TotalAfterMutation.
Context {F : PyFloat}.

Lemma add_amount_none (l : list OrderItem.t) :
  fold_left add_amount l None = None.
Proof. induction l as [|x l IH]; simpl; auto. Qed.

Lemma total_loop_sum (l : list OrderItem.t) (x : pyfloat) :
  Order.total_loop l x = fold_left add_amount l (Some x).
Proof.
  revert x; induction l as [|line l IH]; intros x; [reflexivity|].
  cbn [Order.total_loop fold_left].
  replace (add_amount (Some x) line)
    with (match f_of_int (OrderItem.quantity line) with
          | Some q =>
              Some (f_add x (f_mul (MenuItem.price (OrderItem.menu_item line)) q))
          | None => None
          end)
    by (unfold add_amount, line_amount;
        destruct (f_of_int (OrderItem.quantity line)); reflexivity).
  destruct (f_of_int (OrderItem.quantity line)) as [q|].
  - apply IH.
  - symmetry; apply add_amount_none.
Qed.

Lemma calculate_total_sum (o : Order.t) :
  Order.calculate_total o = lines_sum (Order.items o).
Proof. apply total_loop_sum. Qed.

(** Storing the value [calculate_total] returns makes the total match. *)
Lemma recomputed_total_matches (o : Order.t) (x : pyfloat) :
  Order.calculate_total o = Some x -> total_matches (Order.set_total o x).
Proof.
  intros H. unfold total_matches. simpl.
  rewrite <- H. symmetry. apply calculate_total_sum.
Qed.

Lemma add_item_to_order_total deps item_id quantity size instr deps' :
  DriveThruAI.add_item_to_order deps item_id quantity size instr = (Return true, deps') ->
  active_total_matches deps'.
Proof.
  unfold DriveThruAI.add_item_to_order.
  destruct (DriveThruAI.current_order deps) as [order|]; [|discriminate].
  destruct (dict_get _ item_id) as [menu_item|]; [|discriminate].
  destruct (_ && _); [discriminate|].
  destruct (Order.calculate_total _) as [x|] eqn:E; [|discriminate].
  intros H; inversion H; subst; clear H.
  eexists; split; [reflexivity|].
  apply recomputed_total_matches; exact E.
Qed.

Lemma remove_item_from_order_total deps item_index deps' :
  DriveThruAI.remove_item_from_order deps item_index = (Return true, deps') ->
  active_total_matches deps'.
Proof.
  unfold DriveThruAI.remove_item_from_order.
  destruct (DriveThruAI.current_order deps) as [order|]; [|discriminate].
  destruct (_ <=? _)%Z; [discriminate|].
  destruct (_ <? _)%Z; [discriminate|].
  destruct (list_pop _ _) as [[popped rest]|]; [|discriminate].
  destruct (Order.calculate_total _) as [x|] eqn:E; [|discriminate].
  intros H; inversion H; subst; clear H.
  eexists; split; [reflexivity|].
  apply recomputed_total_matches; exact E.
Qed.

Lemma add_to_order_total now deps item_name quantity size instr q item sz deps' :
  add_to_order now deps item_name quantity size instr = (Return (Added q item sz), deps') ->
  active_total_matches deps'.
Proof.
  unfold add_to_order.
  destruct (negb _); [discriminate|].
  destruct (dict_get _ _) as [menu_item|]; [|discriminate].
  destruct (Str.contains "milk" _); [discriminate|].
  destruct (Str.contains "coffee" _); [discriminate|].
  destruct (_ && _); [discriminate|].
  destruct (DriveThruAI.add_item_to_order _ _ _ _ _) as [[[|]|e] d] eqn:E;
    try discriminate.
  intros H; inversion H; subst; clear H.
  eapply add_item_to_order_total; exact E.
Qed.

Lemma remove_from_order_total deps item_name quantity n name deps' :
  remove_from_order deps item_name quantity = (Return (Removed n name), deps') ->
  active_total_matches deps'.
Proof.
  unfold remove_from_order.
  destruct (DriveThruAI.current_order deps) as [order|]; [|discriminate].
  destruct (Order.items order) as [|line lines]; [discriminate|].
  destruct (positions _ _ _) as [|i more]; [discriminate|].
  destruct (pop_loop _ _ _ _) as [[rest removed_count]|]; [|discriminate].
  destruct (Order.calculate_total _) as [x|] eqn:E; [|discriminate].
  intros H; inversion H; subst; clear H.
  eexists; split; [reflexivity|].
  apply recomputed_total_matches; exact E.
Qed.

Lemma apply_total m deps deps' :
  apply m deps = (true, deps') -> active_total_matches deps'.
Proof.
  destruct m as [item_id q sz instr | idx | now name q sz instr | name q]; simpl.
  - destruct (DriveThruAI.add_item_to_order _ _ _ _ _) as [[b|e] d] eqn:E;
      intros H; inversion H; subst.
    eapply add_item_to_order_total; exact E.
  - destruct (DriveThruAI.remove_item_from_order _ _) as [[b|e] d] eqn:E;
      intros H; inversion H; subst.
    eapply remove_item_from_order_total; exact E.
  - destruct (add_to_order _ _ _ _ _ _) as [[r|e] d] eqn:E;
      [destruct r|]; intros H; inversion H; subst.
    eapply add_to_order_total; exact E.
  - destruct (remove_from_order _ _ _) as [[r|e] d] eqn:E;
      [destruct r|]; intros H; inversion H; subst.
    eapply remove_from_order_total; exact E.
Qed.

(** C1.  Take any session and any sequence of mutations of its active
    order, through [add_item_to_order], [remove_item_from_order] or the
    tools built on them.  In every session the run goes through right
    after a mutation that succeeded, there is an active order and its
    [total] is the sum, over its lines in order, of the price of the
    line's item times the line's quantity. *)
Theorem total_matches_after_each_mutation
    (deps : DriveThruAI.t) (ms : list Mutation) (deps' : DriveThruAI.t) :
  In (true, deps') (run ms deps) ->
  exists o,
    DriveThruAI.current_order deps' = Some o
    /\ lines_sum (Order.items o) = Some (Order.total o).
Proof.
  revert deps; induction ms as [|m ms IH]; intros deps; simpl; [tauto|].
  destruct (apply m deps) as [b d] eqn:E.
  intros [H|H].
  - inversion H; subst. eapply apply_total; exact E.
  - eapply IH; exact H.
Qed.
End TotalAfterMutation.

(** Two Big Macs added to the empty order of the fixture: the run holds the
    session reached, and its total is the sum over its one line. *)
Lemma total_matches_after_each_mutation_witness :
  In (true, Fixture.ordering) (run [Fixture.two_big_macs] Fixture.started)
  /\ exists o,
       DriveThruAI.current_order Fixture.ordering = Some o
       /\ lines_sum (Order.items o) = Some (Order.total o).
Proof.
  split.
  - left; reflexivity.
  - apply (total_matches_after_each_mutation Fixture.started [Fixture.two_big_macs]).
    left; reflexivity.
Defined.

(** ** What holds in every session the program can be in *)

Section Invariants.
Context {F : PyFloat}.

Lemma dict_set_values {V} (P : V -> Prop) (d : dict V) k v :
  Forall P (dict_values d) -> P v -> Forall P (dict_values (dict_set d k v)).
Proof.
  intros Hd Hv. induction d as [|[k' v'] d IH]; simpl.
  - constructor; auto.
  - inversion Hd; subst.
    destruct (String.eqb k k'); simpl; constructor; auto.
Qed.

Lemma dict_get_values {V} (P : V -> Prop) (d : dict V) k v :
  Forall P (dict_values d) -> dict_get d k = Some v -> P v.
Proof.
  intros Hd. induction d as [|[k' v'] d IH]; simpl; [discriminate|].
  inversion Hd; subst.
  destruct (String.eqb k k'); [intros E; inversion E; subst; auto | auto].
Qed.

Lemma get_available_sizes_cases category :
  MenuScraper._get_available_sizes category = None
  \/ MenuScraper._get_available_sizes category = Some all_sizes.
Proof.
  unfold MenuScraper._get_available_sizes.
  destruct (existsb _ _); [right | left]; reflexivity.
Qed.

Section EntryInvariant.
(** A property of menu items that each new entry has. *)
Variable P : Web -> MenuItem.t -> Prop.
Hypothesis new_entry :
  forall w category_name item_name drawn self,
    P w (MenuItem.mk F
           (Str.take 3 category_name ++ "_"
              ++ Str.of_nat (List.length (MenuScraper.menu_data self) + 1))%string
           item_name
           (MenuScraper._generate_description item_name category_name)
           (f_round2 (f_add (MenuScraper._get_base_price category_name)
                            (uniform w drawn)))
           category_name
           (MenuScraper._get_available_sizes category_name) true).

Lemma scrape_entries_values w category_name texts self drawn :
  Forall (P w) (dict_values (MenuScraper.menu_data self)) ->
  Forall (P w) (dict_values (MenuScraper.menu_data
    (fst (MenuScraper.scrape_entries w category_name texts self drawn)))).
Proof.
  revert self drawn; induction texts as [|text r IH]; intros self drawn H; simpl.
  - exact H.
  - destruct (Str.truthy (Str.strip text)); [|apply IH; exact H].
    apply IH. unfold MenuScraper.add_entry; simpl.
    apply dict_set_values; [exact H | apply new_entry].
Qed.

Lemma scrape_categories_values w page names self drawn :
  Forall (P w) (dict_values (MenuScraper.menu_data self)) ->
  Forall (P w) (dict_values (MenuScraper.menu_data
    (snd (MenuScraper.scrape_categories w page names self drawn)))).
Proof.
  revert self drawn; induction names as [|c r IH]; intros self drawn H; simpl.
  - exact H.
  - destruct (page c) as [| |texts]; [apply IH; exact H | exact H |].
    pose proof (scrape_entries_values w c texts self drawn H) as H'.
    destruct (MenuScraper.scrape_entries w c texts self drawn) as [self' drawn'].
    apply IH; exact H'.
Qed.

Lemma scrape_menu_values w self :
  Forall (P w) (dict_values (MenuScraper.menu_data self)) ->
  Forall (P w) (dict_values (MenuScraper.menu_data
    (snd (MenuScraper.scrape_menu w self)))).
Proof.
  intros H. unfold MenuScraper.scrape_menu.
  destruct (response w) as [page|]; [|exact H].
  pose proof (scrape_categories_values w page
                (dict_keys (MenuScraper.categories self)) self 0 H) as H'.
  destruct (MenuScraper.scrape_categories _ _ _ _ _) as [[|] self']; exact H'.
Qed.
End EntryInvariant.

Lemma scrape_menu_ref w self :
  fst (MenuScraper.scrape_menu w self) = ScraperMenuData
  \/ fst (MenuScraper.scrape_menu w self) = OwnDict [].
Proof.
  unfold MenuScraper.scrape_menu.
  destruct (response w); [|right; reflexivity].
  destruct (MenuScraper.scrape_categories _ _ _ _ _) as [[|] self'];
    [left | right]; reflexivity.
Qed.

Lemma only_order_changes_refl deps : only_order_changes deps deps.
Proof. repeat split; intros; right; eauto. Qed.

Lemma only_order_changes_set deps o o' :
  DriveThruAI.current_order deps = Some o ->
  Order.status o' = Order.status o ->
  only_order_changes deps (DriveThruAI.set_current_order deps (Some o')).
Proof.
  intros Ho Hs. repeat split. simpl. intros o'' E; inversion E; subst.
  right; eauto.
Qed.

Lemma only_order_changes_trans a b c :
  only_order_changes a b -> only_order_changes b c -> only_order_changes a c.
Proof.
  intros (S1 & M1 & H1 & C1) (S2 & M2 & H2 & C2).
  repeat split; try congruence.
  intros o' E. destruct (C2 o' E) as [?|(o & Eo & Es)]; [left; assumption|].
  destruct (C1 o Eo) as [?|(o0 & Eo0 & Es0)]; [left; congruence|].
  right; exists o0; split; congruence.
Qed.

Lemma add_item_to_order_frame deps item_id quantity size instr :
  only_order_changes deps
    (snd (DriveThruAI.add_item_to_order deps item_id quantity size instr)).
Proof.
  unfold DriveThruAI.add_item_to_order.
  repeat split_match; simpl;
    try apply only_order_changes_refl;
    eapply only_order_changes_set; eauto.
Qed.

Lemma remove_item_from_order_frame deps item_index :
  only_order_changes deps (snd (DriveThruAI.remove_item_from_order deps item_index)).
Proof.
  unfold DriveThruAI.remove_item_from_order.
  repeat split_match; simpl;
    try apply only_order_changes_refl;
    eapply only_order_changes_set; eauto.
Qed.

Lemma ensure_order_frame now deps :
  only_order_changes deps (ensure_order now deps).
Proof.
  unfold ensure_order.
  destruct (DriveThruAI.current_order deps) eqn:E;
    [apply only_order_changes_refl|].
  repeat split. simpl. intros o' H; inversion H; subst. left; reflexivity.
Qed.

Lemma add_to_order_frame now deps item_name quantity size instr :
  only_order_changes deps
    (snd (add_to_order now deps item_name quantity size instr)).
Proof.
  eapply only_order_changes_trans; [apply (ensure_order_frame now)|].
  unfold add_to_order.
  pose proof (add_item_to_order_frame (ensure_order now deps)) as Hadd.
  repeat split_match; simpl; try apply only_order_changes_refl;
    match goal with
    | E : DriveThruAI.add_item_to_order _ ?i ?q ?s ?n = (_, ?d) |- _ =>
        specialize (Hadd i q s n); rewrite E in Hadd; exact Hadd
    end.
Qed.

Lemma remove_from_order_frame deps item_name quantity :
  only_order_changes deps (snd (remove_from_order deps item_name quantity)).
Proof.
  unfold remove_from_order.
  repeat split_match; simpl;
    try apply only_order_changes_refl;
    eapply only_order_changes_set; eauto.
Qed.

Lemma apply_frame m deps : only_order_changes deps (snd (apply m deps)).
Proof.
  destruct m as [item_id q sz instr | idx | now name q sz instr | name q]; simpl.
  - pose proof (add_item_to_order_frame deps item_id q sz instr) as H.
    destruct (DriveThruAI.add_item_to_order _ _ _ _ _) as [[b|e] d]; exact H.
  - pose proof (remove_item_from_order_frame deps idx) as H.
    destruct (DriveThruAI.remove_item_from_order _ _) as [[b|e] d]; exact H.
  - pose proof (add_to_order_frame now deps name q sz instr) as H.
    destruct (add_to_order _ _ _ _ _ _) as [[r|e] d]; [destruct r|]; exact H.
  - pose proof (remove_from_order_frame deps name q) as H.
    destruct (remove_from_order _ _ _) as [[r|e] d]; [destruct r|]; exact H.
Qed.

Lemma session_ok_frame deps deps' :
  session_ok deps -> only_order_changes deps deps' -> session_ok deps'.
Proof.
  intros [Hm Hs Hc Hh] (S1 & M1 & H1 & C1).
  split.
  - rewrite M1; exact Hm.
  - rewrite S1; exact Hs.
  - intros o' E. destruct (C1 o' E) as [?|(o & Eo & Es)]; [assumption|].
    rewrite Es; auto.
  - rewrite H1; exact Hh.
Qed.

Lemma scrape_menu_sizes w self :
  Forall scraped_sizes (dict_values (MenuScraper.menu_data self)) ->
  Forall scraped_sizes (dict_values (MenuScraper.menu_data
    (snd (MenuScraper.scrape_menu w self)))).
Proof.
  apply (scrape_menu_values (fun _ => scraped_sizes)).
  intros; apply get_available_sizes_cases.
Qed.

Lemma reachable_ok deps : reachable deps -> session_ok deps.
Proof.
  induction 1 as [w | w deps R IH | now deps R IH | deps R IH | m deps R IH].
  - unfold DriveThruAI.init.
    pose proof (scrape_menu_ref w MenuScraper.init) as Hr.
    pose proof (scrape_menu_sizes w MenuScraper.init (Forall_nil _)) as Hs.
    destruct (MenuScraper.scrape_menu w MenuScraper.init) as [m scraper].
    split; simpl; auto; discriminate.
  - destruct IH as [Hm Hs Hc Hh]. unfold DriveThruAI.refresh_menu.
    pose proof (scrape_menu_ref w (DriveThruAI.menu_scraper deps)) as Hr.
    pose proof (scrape_menu_sizes w _ Hs) as Hs'.
    destruct (MenuScraper.scrape_menu w _) as [m scraper].
    split; simpl; auto.
  - destruct IH as [Hm Hs Hc Hh]. split; simpl; auto.
    intros o E; inversion E; subst; reflexivity.
  - destruct IH as [Hm Hs Hc Hh]. unfold DriveThruAI.checkout.
    destruct (DriveThruAI.current_order deps) as [o|] eqn:E;
      [|split; simpl; auto; rewrite E; auto].
    destruct (Order.items o); [split; simpl; auto; rewrite E; auto|].
    split; simpl; auto; [discriminate|].
    apply Forall_app; split; [exact Hh|]. constructor; [reflexivity|constructor].
  - eapply session_ok_frame; [exact IH | apply apply_frame].
Qed.

(** In every session the program can be in, the history holds completed
    orders only, and the active order, if any, is in progress. *)
Theorem history_holds_completed_orders deps :
  reachable deps ->
  Forall (fun o => Order.status o = "completed") (DriveThruAI.orders_history deps)
  /\ (forall o, DriveThruAI.current_order deps = Some o ->
                Order.status o = "in_progress").
Proof.
  intros R. destruct (reachable_ok deps R) as [_ _ Hc Hh]. split; assumption.
Qed.

(** In a session the program can be in, an item of the menu that has
    sizes has all three. *)
Lemma reachable_sizes deps item_id menu_item sizes :
  reachable deps ->
  dict_get (DriveThruAI.get_menu deps) item_id = Some menu_item ->
  MenuItem.available_sizes menu_item = Some sizes ->
  sizes = all_sizes.
Proof.
  intros R Hget Hsz. destruct (reachable_ok deps R) as [Hm Hs _ _].
  unfold DriveThruAI.get_menu in Hget.
  destruct Hm as [Hm|Hm]; rewrite Hm in Hget; simpl in Hget; [|discriminate].
  destruct (dict_get_values _ _ _ _ Hs Hget) as [E|E]; congruence.
Qed.
End Invariants.

(** The fixture after checkout: one order in the history, completed. *)
Lemma history_holds_completed_orders_witness :
  reachable (snd (DriveThruAI.checkout Fixture.ordering))
  /\ Forall (fun o => Order.status o = "completed")
       (DriveThruAI.orders_history (snd (DriveThruAI.checkout Fixture.ordering)))
  /\ List.length (DriveThruAI.orders_history (snd (DriveThruAI.checkout Fixture.ordering)))
     = 1.
Proof.
  assert (reachable (snd (DriveThruAI.checkout Fixture.ordering))) as R
    by (apply reach_checkout, reach_apply, reach_start, reach_init).
  split; [exact R|]. split; [|reflexivity].
  apply (history_holds_completed_orders _ R).
Defined.

(** ** Checkout *)

Section Checkout.
Context {F : PyFloat}.

(** C2.  [checkout] with no active order, or with an active order that
    has no line, returns [False] and leaves the session as it was; the
    order in the slot, if any, is still "in_progress".  With an active
    order that has a line it returns [True], the order goes last in the
    history with status "completed" and nothing else changed in it, and
    the slot is empty. *)
Theorem checkout_spec (deps : DriveThruAI.t) :
  (DriveThruAI.current_order deps = None ->
     DriveThruAI.checkout deps = (false, deps))
  /\ (forall o,
        DriveThruAI.current_order deps = Some o -> Order.items o = [] ->
        DriveThruAI.checkout deps = (false, deps)
        /\ (reachable deps ->
            exists o', DriveThruAI.current_order (snd (DriveThruAI.checkout deps)) = Some o'
                       /\ Order.status o' = "in_progress"))
  /\ (forall o,
        DriveThruAI.current_order deps = Some o -> Order.items o <> [] ->
        exists deps' o',
          DriveThruAI.checkout deps = (true, deps')
          /\ DriveThruAI.current_order deps' = None
          /\ DriveThruAI.orders_history deps' = DriveThruAI.orders_history deps ++ [o']
          /\ Order.status o' = "completed"
          /\ Order.id o' = Order.id o
          /\ Order.items o' = Order.items o
          /\ Order.created_at o' = Order.created_at o
          /\ Order.total o' = Order.total o
          /\ DriveThruAI.menu deps' = DriveThruAI.menu deps
          /\ DriveThruAI.menu_scraper deps' = DriveThruAI.menu_scraper deps).
Proof.
  unfold DriveThruAI.checkout. split; [|split].
  - intros E; rewrite E; reflexivity.
  - intros o E Hempty. rewrite E, Hempty. split; [reflexivity|].
    intros R. exists o. split; [exact E|].
    apply (ok_current deps (reachable_ok deps R) o E).
  - intros o E Hlines. rewrite E.
    destruct (Order.items o) as [|line lines] eqn:El; [congruence|].
    eexists; eexists; repeat split; simpl; auto.
Qed.
End Checkout.

(** The three cases of [checkout] on the fixture: no order, an empty order,
    an order with a line. *)
Lemma checkout_spec_witness :
  DriveThruAI.checkout Fixture.session = (false, Fixture.session)
  /\ DriveThruAI.checkout Fixture.started = (false, Fixture.started)
  /\ exists deps' o',
       DriveThruAI.checkout Fixture.ordering = (true, deps')
       /\ DriveThruAI.current_order deps' = None
       /\ DriveThruAI.orders_history deps' = [o']
       /\ Order.status o' = "completed".
Proof.
  destruct (checkout_spec Fixture.session) as (Hnone & _ & _).
  destruct (checkout_spec Fixture.started) as (_ & Hempty & _).
  destruct (checkout_spec Fixture.ordering) as (_ & _ & Hlines).
  split; [apply Hnone; reflexivity|].
  split; [eapply Hempty; reflexivity|].
  edestruct Hlines as (deps' & o' & H1 & H2 & H3 & H4 & _);
    [reflexivity | simpl; discriminate |].
  exists deps', o'. repeat split; assumption.
Defined.

(** ** Removing a line by index *)

Section RemoveByIndex.
Context {F : PyFloat}.

(** With an active order, [remove_item_from_order] at an index equal to
    the number of lines or above returns [False] and leaves the session,
    with the lines and the total of the order, as it was. *)
Theorem remove_item_past_end deps o item_index :
  DriveThruAI.current_order deps = Some o ->
  (Z.of_nat (List.length (Order.items o)) <= item_index)%Z ->
  DriveThruAI.remove_item_from_order deps item_index = (Return false, deps).
Proof.
  intros E H. unfold DriveThruAI.remove_item_from_order. rewrite E.
  destruct (Z.leb_spec (Z.of_nat (List.length (Order.items o))) item_index);
    [reflexivity | lia].
Qed.

Lemma ssize_t_min_neg : (ssize_t_min < 0)%Z.
Proof. reflexivity. Qed.

Lemma list_pop_in_range {A} (l : list A) (i : nat) :
  i < List.length l ->
  exists x, nth_error l i = Some x
            /\ list_pop l (Z.of_nat i) = Some (x, remove_nth i l).
Proof.
  intros H. unfold list_pop.
  destruct (Z.ltb_spec (Z.of_nat i) 0); [lia|].
  destruct (Z.ltb_spec (Z.of_nat i) 0); [lia|].
  destruct (Z.leb_spec (Z.of_nat (List.length l)) (Z.of_nat i)); [lia|].
  simpl. rewrite Nat2Z.id.
  destruct (nth_error l i) as [x|] eqn:E.
  - exists x; auto.
  - apply nth_error_None in E; lia.
Qed.

(** With an active order, [remove_item_from_order] at an index from 0 to
    the number of lines less one returns [True]; the line at that index is
    removed, the other lines keep their order, and the total is the sum
    over the lines left ([x], when no quantity is beyond the floats). *)
Theorem remove_item_in_range deps o (i : nat) x :
  DriveThruAI.current_order deps = Some o ->
  i < List.length (Order.items o) ->
  lines_sum (remove_nth i (Order.items o)) = Some x ->
  DriveThruAI.remove_item_from_order deps (Z.of_nat i)
  = (Return true,
     DriveThruAI.set_current_order deps
       (Some (Order.set_total (Order.set_items o (remove_nth i (Order.items o))) x))).
Proof.
  intros E H Hsum. unfold DriveThruAI.remove_item_from_order. rewrite E.
  destruct (Z.leb_spec (Z.of_nat (List.length (Order.items o))) (Z.of_nat i)); [lia|].
  destruct (Z.ltb_spec (Z.of_nat i) ssize_t_min);
    [pose proof ssize_t_min_neg; lia|].
  destruct (list_pop_in_range (Order.items o) i H) as (line & _ & Hpop).
  rewrite Hpop, calculate_total_sum. simpl. rewrite Hsum. reflexivity.
Qed.
End RemoveByIndex.

(** Index 1 on the one-line order of the fixture. *)
Lemma remove_item_past_end_witness :
  DriveThruAI.remove_item_from_order Fixture.ordering 1 = (Return false, Fixture.ordering).
Proof.
  eapply (remove_item_past_end Fixture.ordering).
  - reflexivity.
  - vm_compute. discriminate.
Defined.

(** Index 0 on the one-line order of the fixture. *)
Lemma remove_item_in_range_witness :
  exists deps',
    DriveThruAI.remove_item_from_order Fixture.ordering 0 = (Return true, deps')
    /\ option_map Order.items (DriveThruAI.current_order deps') = Some []
    /\ option_map Order.total (DriveThruAI.current_order deps') = Some zero.
Proof.
  eexists. split.
  - eapply (remove_item_in_range Fixture.ordering _ 0 zero).
    + reflexivity.
    + vm_compute. lia.
    + reflexivity.
  - split; reflexivity.
Defined.

(** C3.  The index -1 is below the bounds of a one-line order, yet
    [remove_item_from_order] returns [True] and the order loses its line
    and its total; the index -2 makes [pop] raise [IndexError]. *)
Theorem remove_item_negative_index :
  option_map (fun o => List.length (Order.items o))
    (DriveThruAI.current_order Fixture.ordering) = Some 1
  /\ fst (DriveThruAI.remove_item_from_order Fixture.ordering (-1)) = Return true
  /\ option_map (fun o => (Order.items o, Order.total o))
       (DriveThruAI.current_order
          (snd (DriveThruAI.remove_item_from_order Fixture.ordering (-1))))
     = Some ([], zero)
  /\ option_map Order.total (DriveThruAI.current_order Fixture.ordering)
     = Some (Double.cents 1198)
  /\ fst (DriveThruAI.remove_item_from_order Fixture.ordering (-2)) = Raise IndexError.
Proof. repeat split; reflexivity. Qed.

(** ** Sizes *)

Section Sizes.
Context {F : PyFloat}.

Lemma mem_false_iff size sizes :
  ItemSize.mem size sizes = false <-> forall s, size = Some s -> ~ In s sizes.
Proof.
  destruct size as [s|]; simpl.
  - split.
    + intros H s' E Hin; inversion E; subst s'.
      assert (existsb (ItemSize.eqb s) sizes = true) as Ht; [|congruence].
      apply existsb_exists. exists s. split; [exact Hin | destruct s; reflexivity].
    + intros H. destruct (existsb (ItemSize.eqb s) sizes) eqn:E; [|reflexivity].
      apply existsb_exists in E. destruct E as (x & Hin & Heq).
      exfalso. apply (H s eq_refl).
      destruct s, x; try discriminate; exact Hin.
  - split; [intros _ s E; discriminate | reflexivity].
Qed.

(** C4.  Let an item of the menu declare its sizes, and let the size asked
    for be none of them: either another size, or no size at all.  Then
    [add_item_to_order] returns [False] and the session, with the lines
    and the total of its active order, is what it was.  The list of sizes
    is taken non-empty, as it is for every item of a menu the program
    builds. *)
Theorem add_item_rejects_size (deps : DriveThruAI.t) (item_id : string)
    (menu_item : MenuItem.t) (sizes : list ItemSize.t) (quantity : Z)
    (size : option ItemSize.t) (special_instructions : option string) :
  dict_get (DriveThruAI.get_menu deps) item_id = Some menu_item ->
  MenuItem.available_sizes menu_item = Some sizes ->
  sizes <> [] \/ reachable deps ->
  (forall s, size = Some s -> ~ In s sizes) ->
  DriveThruAI.add_item_to_order deps item_id quantity size special_instructions
  = (Return false, deps).
Proof.
  intros Hget Hsz Hne Hsize.
  assert (sizes <> []) as Hne'.
  { destruct Hne as [H|R]; [exact H|].
    rewrite (reachable_sizes deps item_id menu_item sizes R Hget Hsz); discriminate. }
  unfold DriveThruAI.add_item_to_order.
  destruct (DriveThruAI.current_order deps) as [order|]; [|reflexivity].
  rewrite Hget.
  unfold MenuItem.has_sizes, MenuItem.sizes. rewrite Hsz.
  destruct sizes as [|s0 r]; [congruence|].
  apply mem_false_iff in Hsize. rewrite Hsize. reflexivity.
Qed.
End Sizes.

(** A Coca-Cola, which has sizes, asked for with no size. *)
Lemma add_item_rejects_size_witness :
  (exists menu_item,
     dict_get (DriveThruAI.get_menu Fixture.ordering) "Bev_5" = Some menu_item
     /\ MenuItem.available_sizes menu_item = Some all_sizes)
  /\ DriveThruAI.add_item_to_order Fixture.ordering "Bev_5" 1 None None
     = (Return false, Fixture.ordering).
Proof.
  split.
  - eexists; split; reflexivity.
  - eapply (add_item_rejects_size Fixture.ordering "Bev_5" _ all_sizes 1 None None).
    + reflexivity.
    + reflexivity.
    + left; discriminate.
    + intros s E; discriminate.
Defined.

(** ** The search for the item named *)

Section Resolver.
Context {F : PyFloat}.
Variable item_name : string.

Lemma best_after_app before after bm bs :
  best_after (clean_input item_name) (before ++ after) bm bs
  = best_after (clean_input item_name) after
      (fst (best_after (clean_input item_name) before bm bs))
      (snd (best_after (clean_input item_name) before bm bs)).
Proof.
  revert bm bs; induction before as [|[id item] r IH]; intros bm bs; simpl.
  - reflexivity.
  - destruct (_ && _); apply IH.
Qed.

Lemma eqb_exact_match item :
  String.eqb (clean_input item_name) (clean_menu_name (MenuItem.name item)) = true
  <-> exact_match item_name item.
Proof.
  unfold exact_match. rewrite String.eqb_eq. split; intros H; symmetry; exact H.
Qed.

Lemma eqb_no_exact_match item :
  ~ exact_match item_name item ->
  String.eqb (clean_input item_name) (clean_menu_name (MenuItem.name item)) = false.
Proof.
  intros H. destruct (String.eqb _ _) eqn:E; [|reflexivity].
  apply eqb_exact_match in E. contradiction.
Qed.

Lemma no_exact_match_cons id item r :
  no_exact_match item_name ((id, item) :: r) ->
  ~ exact_match item_name item /\ no_exact_match item_name r.
Proof.
  intros H; split; [apply (H id); left; reflexivity|].
  intros id' item' Hin; apply (H id'); right; exact Hin.
Qed.

(** Without an exact match the loop runs to its end and leaves the best
    partial match. *)
Lemma match_loop_no_exact entries bm bs :
  no_exact_match item_name entries ->
  match_loop (clean_input item_name) entries bm bs
  = (None, fst (best_after (clean_input item_name) entries bm bs)).
Proof.
  revert bm bs; induction entries as [|[id item] r IH]; intros bm bs H; simpl.
  - reflexivity.
  - apply no_exact_match_cons in H. destruct H as [Hx Hr].
    rewrite (eqb_no_exact_match item Hx).
    destruct (partial_match _ _); simpl; [|apply IH; exact Hr].
    destruct (Nat.ltb _ _); apply IH; exact Hr.
Qed.

(** The first exact match ends the loop. *)
Lemma match_loop_exact before id item after bm bs :
  no_exact_match item_name before ->
  exact_match item_name item ->
  match_loop (clean_input item_name) (before ++ (id, item) :: after) bm bs
  = (Some id, fst (best_after (clean_input item_name) before bm bs)).
Proof.
  revert bm bs; induction before as [|[id' item'] r IH]; intros bm bs H Hx; simpl.
  - apply eqb_exact_match in Hx. rewrite Hx. reflexivity.
  - apply no_exact_match_cons in H. destruct H as [Hx' Hr].
    rewrite (eqb_no_exact_match item' Hx').
    destruct (partial_match _ _); simpl; [|apply IH; assumption].
    destruct (Nat.ltb _ _); apply IH; assumption.
Qed.

(** Entries whose substring matches score less than [s] keep the best
    score under [s]. *)
Lemma best_after_below entries s bm bs :
  (forall id item, In (id, item) entries -> substring_match item_name item ->
     match_score item_name item < s) ->
  bs < s ->
  snd (best_after (clean_input item_name) entries bm bs) < s.
Proof.
  revert bm bs; induction entries as [|[id item] r IH]; intros bm bs H Hbs; simpl.
  - exact Hbs.
  - assert (forall id' item', In (id', item') r -> substring_match item_name item' ->
              match_score item_name item' < s) as Hr
      by (intros id' item' Hin; apply (H id'); right; exact Hin).
    destruct (partial_match _ _) eqn:Ep; simpl; [|apply IH; assumption].
    destruct (Nat.ltb _ _); apply IH; try assumption.
    apply (H id item); [left; reflexivity | exact Ep].
Qed.

(** Entries whose substring matches score at most the best score do not
    change the best match. *)
Lemma best_after_keep entries bm bs :
  (forall id item, In (id, item) entries -> substring_match item_name item ->
     match_score item_name item <= bs) ->
  best_after (clean_input item_name) entries bm bs = (bm, bs).
Proof.
  revert bm bs; induction entries as [|[id item] r IH]; intros bm bs H; simpl.
  - reflexivity.
  - assert (forall id' item', In (id', item') r -> substring_match item_name item' ->
              match_score item_name item' <= bs) as Hr
      by (intros id' item' Hin; apply (H id'); right; exact Hin).
    destruct (partial_match _ _) eqn:Ep; simpl; [|apply IH; assumption].
    destruct (Nat.ltb_spec bs
                (score (clean_input item_name) (clean_menu_name (MenuItem.name item))));
      [|apply IH; assumption].
    pose proof (H id item (or_introl eq_refl) Ep) as Hle.
    unfold match_score in Hle. lia.
Qed.

Lemma truthy_nonempty id : id <> EmptyString -> Str.truthy id = true.
Proof. destruct id; [congruence | reflexivity]. Qed.

(** The first exact match is the item found. *)
Lemma find_item_exact before id item after :
  no_exact_match item_name before ->
  exact_match item_name item ->
  id <> EmptyString ->
  find_item (before ++ (id, item) :: after) item_name = Some id.
Proof.
  intros H Hx Hid. unfold find_item.
  rewrite (match_loop_exact before id item after None 0 H Hx).
  simpl. rewrite (truthy_nonempty id Hid). reflexivity.
Qed.

(** Without an exact match, the first of the best substring matches is
    the item found, provided it shares a word with the name asked for. *)
Lemma find_item_best before id item after :
  no_exact_match item_name (before ++ (id, item) :: after) ->
  first_best item_name before item after ->
  0 < match_score item_name item ->
  id <> EmptyString ->
  find_item (before ++ (id, item) :: after) item_name = Some id.
Proof.
  intros H (Hp & Hb & Ha) Hpos Hid. unfold find_item.
  rewrite (match_loop_no_exact _ None 0 H), best_after_app.
  pose proof (best_after_below before (match_score item_name item) None 0 Hb Hpos) as Hlt.
  destruct (best_after (clean_input item_name) before None 0) as [bm bs].
  simpl in Hlt |- *. unfold substring_match in Hp. rewrite Hp. simpl.
  apply Nat.ltb_lt in Hlt. unfold match_score in Hlt. rewrite Hlt.
  pose proof (best_after_keep after (Some id) _ Ha) as Hk.
  unfold match_score in Hk. rewrite Hk. simpl.
  rewrite (truthy_nonempty id Hid). reflexivity.
Qed.

(** Without an exact match and without a substring match that shares a
    word, no item is found. *)
Lemma find_item_none entries :
  no_exact_match item_name entries ->
  (forall id item, In (id, item) entries -> substring_match item_name item ->
     match_score item_name item = 0) ->
  find_item entries item_name = None.
Proof.
  intros H Hz. unfold find_item.
  rewrite (match_loop_no_exact _ None 0 H), best_after_keep; [reflexivity|].
  intros id item Hin Hp. rewrite (Hz id item Hin Hp). lia.
Qed.
End Resolver.

Example fixture_menu : DriveThruAI.get_menu Fixture.session = Fixture.menu.
Proof. reflexivity. Qed.

(** C5, as stated, fails: the cleaned name "big mac" is the cleaned name of
    the item "Big Mac Meal", entry "Bur_2" of the menu, and the item found
    is the entry "Bur_1", which has the same cleaned name and comes first. *)
Lemma exact_match_not_that_candidate :
  In ("Bur_2", Fixture.big_mac_meal) Fixture.menu
  /\ exact_match "big mac" Fixture.big_mac_meal
  /\ find_item Fixture.menu "big mac" = Some "Bur_1"
  /\ ~ (forall (menu : dict (@MenuItem.t Binary64)) item_name id item,
          In (id, item) menu -> exact_match item_name item ->
          find_item menu item_name = Some id).
Proof.
  assert (In ("Bur_2", Fixture.big_mac_meal) Fixture.menu) as Hin
    by (right; left; reflexivity).
  assert (exact_match "big mac" Fixture.big_mac_meal) as Hx by reflexivity.
  repeat split; try assumption; try reflexivity.
  intros H. specialize (H Fixture.menu "big mac" "Bur_2" Fixture.big_mac_meal Hin Hx).
  vm_compute in H. discriminate.
Qed.

Section ExactMatch.
Context {F : PyFloat}.

(** C5, amended.  Let the name asked for and the names of the menu be in
    ASCII.  When the cleaned name asked for is the cleaned name of entries
    of the menu, the item found is the first of them in the order of the
    menu, whatever the scores of the partial matches before or after it,
    provided its id is not the empty string (no id of a menu the program
    builds is).  With the one-entry menu "B1": "Big Mac", the name
    "I'd like a big mac meal" finds "B1": it is cleaned to
    "i'd like a big mac", which is not the cleaned name "big mac" but
    holds it, and shares two words with it. *)
Theorem exact_match_first
    (before after : dict MenuItem.t) (id : string) (item : MenuItem.t)
    (item_name : string) :
  (Str.isascii item_name = true ->
   menu_isascii (before ++ (id, item) :: after) = true ->
   no_exact_match item_name before ->
   exact_match item_name item ->
   id <> EmptyString ->
   find_item (before ++ (id, item) :: after) item_name = Some id)
  /\ (forall big_mac,
        MenuItem.name big_mac = "Big Mac" ->
        clean_input "I'd like a big mac meal" = "i'd like a big mac"
        /\ ~ exact_match "I'd like a big mac meal" big_mac
        /\ substring_match "I'd like a big mac meal" big_mac
        /\ match_score "I'd like a big mac meal" big_mac = 2
        /\ find_item [("B1", big_mac)] "I'd like a big mac meal" = Some "B1").
Proof.
  split; [intros _ _; apply find_item_exact|].
  intros [id' name' d p c sz av] Hname. simpl in Hname. subst name'.
  repeat split; try (vm_compute; reflexivity).
  intros H; vm_compute in H; discriminate.
Qed.
End ExactMatch.

Example ascii_session_menu :
  DriveThruAI.get_menu Scenario.ascii_session = Scenario.ascii_menu
  /\ DriveThruAI.get_menu Scenario.ascii_ordering = Scenario.ascii_menu
  /\ menu_isascii Scenario.ascii_menu = true
  /\ menu_isascii Fixture.menu = false.
Proof. repeat split; reflexivity. Qed.

(** "Big Mac meal" is cleaned to the cleaned name of the first entry of the
    menu without coffee, and to that of the second entry too. *)
Lemma exact_match_first_witness :
  Str.isascii "Big Mac meal" = true
  /\ menu_isascii Scenario.ascii_menu = true
  /\ no_exact_match (F := Binary64) "Big Mac meal" []
  /\ exact_match "Big Mac meal" Fixture.big_mac
  /\ exact_match "Big Mac meal" Fixture.big_mac_meal
  /\ find_item Scenario.ascii_menu "Big Mac meal" = Some "Bur_1"
  /\ find_item [("B1", Fixture.big_mac)] "I'd like a big mac meal" = Some "B1".
Proof.
  assert (no_exact_match (F := Binary64) "Big Mac meal" []) as Hnone
    by (intros id item H; destruct H).
  assert (exact_match "Big Mac meal" Fixture.big_mac) as Hx by reflexivity.
  destruct (exact_match_first [] (tl Scenario.ascii_menu) "Bur_1" Fixture.big_mac
              "Big Mac meal") as [Hfirst Hscenario].
  split; [reflexivity|]. split; [reflexivity|].
  split; [exact Hnone|]. split; [exact Hx|]. split; [reflexivity|]. split.
  - apply Hfirst; [reflexivity | reflexivity | exact Hnone | exact Hx | discriminate].
  - apply (Hscenario Fixture.big_mac); reflexivity.
Defined.

(** C6.  The search drops a substring match that shares no whole word with
    the name asked for, although it is the best partial match there is.
    On the menu without coffee, whose names are in ASCII like the name
    asked for, no entry is an exact match for "nuggets"; "McNuggets" is
    the only entry whose cleaned name holds "nuggets", so it is the first
    of the substring matches with the largest score; that score is 0, the
    loop keeps a candidate only when its score is above [best_score],
    which starts at 0, and no item is found: [add_to_order] answers that
    "nuggets" is not on the menu. *)
Theorem best_partial_match_dropped :
  Str.isascii "nuggets" = true
  /\ menu_isascii Scenario.ascii_menu = true
  /\ DriveThruAI.get_menu Scenario.ascii_session = Scenario.ascii_menu
  /\ no_exact_match "nuggets" Scenario.ascii_menu
  /\ first_best "nuggets" [("Bur_1", Fixture.big_mac); ("Bur_2", Fixture.big_mac_meal)]
       Fixture.mcnuggets [("Bev_4", Scenario.coca_cola)]
  /\ match_score "nuggets" Fixture.mcnuggets = 0
  /\ find_item Scenario.ascii_menu "nuggets" = None
  /\ fst (add_to_order 0 Scenario.ascii_session "nuggets" 1 None None)
     = Return (NotOnMenu "nuggets").
Proof.
  repeat split; try reflexivity.
  - intros id item H E. unfold Scenario.ascii_menu in H. each_entry;
      vm_compute in E; discriminate.
  - intros id item H E. each_entry; vm_compute in E; discriminate.
  - intros id item H E. each_entry; vm_compute in E; discriminate.
Qed.

Section BestPartialMatch.
Context {F : PyFloat}.

(** Let the name asked for and the names of the menu be in ASCII.  When no
    entry is an exact match, and the first, in the order of the menu, of
    the substring matches with the largest score shares a word with the
    name asked for, that entry is the item found (its id is not the empty
    string).  With "Chicken" before "Sandwich" in the menu, each sharing
    one word with "chicken sandwich", the item found is "Chicken". *)
Theorem best_partial_match_first
    (before after : dict MenuItem.t) (id : string) (item : MenuItem.t)
    (item_name : string) :
  (Str.isascii item_name = true ->
   menu_isascii (before ++ (id, item) :: after) = true ->
   no_exact_match item_name (before ++ (id, item) :: after) ->
   first_best item_name before item after ->
   0 < match_score item_name item ->
   id <> EmptyString ->
   find_item (before ++ (id, item) :: after) item_name = Some id)
  /\ (forall chicken sandwich,
        MenuItem.name chicken = "Chicken" ->
        MenuItem.name sandwich = "Sandwich" ->
        match_score "chicken sandwich" chicken = 1
        /\ match_score "chicken sandwich" sandwich = 1
        /\ find_item [("K1", chicken); ("K2", sandwich)] "chicken sandwich" = Some "K1").
Proof.
  split.
  - intros _ _ Hno Hbest Hpos Hid. apply find_item_best; assumption.
  - intros [id1 name1 d1 p1 c1 sz1 av1] [id2 name2 d2 p2 c2 sz2 av2] Hc Hs.
    simpl in Hc, Hs. subst name1 name2.
    repeat split; vm_compute; reflexivity.
Qed.
End BestPartialMatch.

(** On the menu without coffee, "mcnuggets please" holds the name of one
    entry and shares a word with it. *)
Lemma best_partial_match_first_witness :
  Str.isascii "mcnuggets please" = true
  /\ menu_isascii Scenario.ascii_menu = true
  /\ 0 < match_score "mcnuggets please" Fixture.mcnuggets
  /\ find_item Scenario.ascii_menu "mcnuggets please" = Some "McN_3".
Proof.
  split; [reflexivity|]. split; [reflexivity|]. split; [vm_compute; lia|].
  destruct (best_partial_match_first
              [("Bur_1", Fixture.big_mac); ("Bur_2", Fixture.big_mac_meal)]
              [("Bev_4", Scenario.coca_cola)]
              "McN_3" Fixture.mcnuggets "mcnuggets please") as [H _].
  apply H.
  - reflexivity.
  - reflexivity.
  - intros id item Hin E. each_entry; vm_compute in E; discriminate.
  - repeat split; try reflexivity.
    + intros id item Hin E. each_entry; vm_compute in E; discriminate.
    + intros id item Hin E. each_entry; vm_compute in E; discriminate.
  - vm_compute. lia.
  - discriminate.
Defined.

(** ** Items that need a clarification *)

Section Clarification.
Context {F : PyFloat}.

Lemma prefix_lower p s :
  prefix p s = true -> prefix (Str.lower p) (Str.lower s) = true.
Proof.
  revert s; induction p as [|a p IH]; intros s; [destruct s; reflexivity|].
  destruct s as [|b s]; simpl; [discriminate|].
  destruct (ascii_dec a b) as [E|E]; [|discriminate].
  subst b. intros H.
  destruct (ascii_dec (Str.lower_char a) (Str.lower_char a)); [|congruence].
  apply IH; exact H.
Qed.

Lemma contains_lower sub s :
  Str.contains sub s = true -> Str.contains (Str.lower sub) (Str.lower s) = true.
Proof.
  induction s as [|c s IH]; simpl; intros H.
  - rewrite orb_false_r in H |- *. apply (prefix_lower sub EmptyString H).
  - apply orb_true_iff in H. apply orb_true_iff. destruct H as [H|H].
    + left. apply (prefix_lower sub (String c s) H).
    + right. apply IH; exact H.
Qed.

Lemma mentions_lower word item :
  lower_case word -> mentions word item ->
  Str.contains word (Str.lower (MenuItem.name item)) = true.
Proof.
  intros Hw [H|H]; [|exact H].
  rewrite <- Hw. apply contains_lower; exact H.
Qed.

Lemma ensure_order_menu now deps :
  DriveThruAI.get_menu (ensure_order now deps) = DriveThruAI.get_menu deps.
Proof.
  unfold ensure_order. destruct (DriveThruAI.current_order deps); reflexivity.
Qed.

Lemma ensure_order_some now deps o :
  DriveThruAI.current_order deps = Some o -> ensure_order now deps = deps.
Proof. unfold ensure_order. intros E; rewrite E; reflexivity. Qed.

Lemma ensure_order_none now deps :
  DriveThruAI.current_order deps = None ->
  ensure_order now deps = snd (DriveThruAI.start_new_order now deps).
Proof. unfold ensure_order. intros E; rewrite E; reflexivity. Qed.


End Clarification.


(** ** The order a tool starts *)

Section AutoStart.
Context {F : PyFloat}.

Lemma add_item_to_order_keeps_order deps item_id quantity size instr o :
  DriveThruAI.current_order deps = Some o ->
  exists o',
    DriveThruAI.current_order
      (snd (DriveThruAI.add_item_to_order deps item_id quantity size instr)) = Some o'.
Proof.
  intros E. unfold DriveThruAI.add_item_to_order. rewrite E.
  repeat split_match; simpl; eauto.
Qed.

Lemma ensure_order_has_order now deps :
  exists o, DriveThruAI.current_order (ensure_order now deps) = Some o.
Proof.
  unfold ensure_order.
  destruct (DriveThruAI.current_order deps) as [o|] eqn:E; simpl; eauto.
Qed.

(** [add_item_to_order] on a session with an order answers [False] only
    for a size that the item does not have. *)
Lemma add_item_to_order_false deps item_id quantity size instr o deps' :
  DriveThruAI.current_order deps = Some o ->
  dict_mem (DriveThruAI.get_menu deps) item_id = true ->
  DriveThruAI.add_item_to_order deps item_id quantity size instr = (Return false, deps') ->
  exists menu_item,
    dict_get (DriveThruAI.get_menu deps) item_id = Some menu_item
    /\ MenuItem.has_sizes menu_item = true
    /\ ItemSize.mem size (MenuItem.sizes menu_item) = false.
Proof.
  intros E Hmem. unfold DriveThruAI.add_item_to_order, dict_mem in *. rewrite E.
  destruct (dict_get _ item_id) as [menu_item|]; [|discriminate].
  destruct (MenuItem.has_sizes menu_item) eqn:Hs; simpl.
  - destruct (ItemSize.mem size _) eqn:Hm; simpl.
    + destruct (Order.calculate_total _); discriminate.
    + intros _. exists menu_item; auto.
  - destruct (Order.calculate_total _); discriminate.
Qed.

(** C10.  [add_to_order] on a session with no active order goes on as on
    the session [start_new_order] gives: the new order has no line, the
    status "in_progress", the id "order_n" after the n-1 orders of the
    history, and a total of zero.  Whatever the session, the search and
    the call of [add_item_to_order] run with an active order, and the slot
    holds an order afterwards; so when the tool reports that the item
    could not be added, the item is on the menu and the cause is its
    sizes, not a missing order. *)
Theorem add_to_order_starts_order
    (now : Z) (deps : DriveThruAI.t) (item_name : string) (quantity : Z)
    (size : option ItemSize.t) (special_instructions : option string) :
  (DriveThruAI.current_order deps = None ->
     add_to_order now deps item_name quantity size special_instructions
     = add_to_order now (snd (DriveThruAI.start_new_order now deps))
         item_name quantity size special_instructions
     /\ exists o,
          DriveThruAI.current_order (snd (DriveThruAI.start_new_order now deps)) = Some o
          /\ Order.items o = []
          /\ Order.status o = "in_progress"
          /\ Order.total o = f_zero
          /\ Order.id o
             = ("order_"
                ++ Str.of_nat (List.length (DriveThruAI.orders_history deps) + 1))%string)
  /\ (exists o,
        DriveThruAI.current_order
          (snd (add_to_order now deps item_name quantity size special_instructions))
        = Some o)
  /\ (fst (add_to_order now deps item_name quantity size special_instructions)
      = Return NotAdded ->
      exists o item_id menu_item,
        DriveThruAI.current_order (ensure_order now deps) = Some o
        /\ dict_get (DriveThruAI.get_menu deps) item_id = Some menu_item
        /\ MenuItem.has_sizes menu_item = true
        /\ ItemSize.mem size (MenuItem.sizes menu_item) = false).
Proof.
  split; [|split].
  - intros E. split.
    + unfold add_to_order.
      rewrite (ensure_order_none now deps E).
      rewrite (ensure_order_some now (snd (DriveThruAI.start_new_order now deps))
                 (fst (DriveThruAI.start_new_order now deps)) eq_refl).
      reflexivity.
    + eexists; split; [reflexivity|]. repeat split.
  - destruct (ensure_order_has_order now deps) as [o Ho].
    unfold add_to_order.
    destruct (negb _); [exists o; exact Ho|].
    destruct (dict_get _ _) as [menu_item|]; [|exists o; exact Ho].
    destruct (Str.contains "milk" _); [exists o; exact Ho|].
    destruct (Str.contains "coffee" _); [exists o; exact Ho|].
    destruct (_ && _); [exists o; exact Ho|].
    match goal with
    | |- context [DriveThruAI.add_item_to_order ?d ?i ?q ?s ?n] =>
        destruct (add_item_to_order_keeps_order d i q s n o Ho) as [o' Ho'];
        destruct (DriveThruAI.add_item_to_order d i q s n) as [[[|]|e] d']
    end; exists o'; exact Ho'.
  - destruct (ensure_order_has_order now deps) as [o Ho].
    unfold add_to_order.
    destruct (negb _); [discriminate|].
    destruct (dict_get (DriveThruAI.get_menu (ensure_order now deps)) _)
      as [menu_item|] eqn:Hget; [|discriminate].
    destruct (Str.contains "milk" _); [discriminate|].
    destruct (Str.contains "coffee" _); [discriminate|].
    destruct (_ && _); [discriminate|].
    match goal with
    | |- context [DriveThruAI.add_item_to_order ?d ?i ?q ?s ?n] =>
        pose proof (add_item_to_order_false d i q s n o) as Hfalse;
        destruct (DriveThruAI.add_item_to_order d i q s n) as [[[|]|e] d'] eqn:Hadd;
        try discriminate
    end.
    intros _.
    destruct (Hfalse d' Ho) as (item & Hitem & Hs & Hm);
      [unfold dict_mem; rewrite Hget; reflexivity | reflexivity |].
    rewrite ensure_order_menu in Hitem.
    exists o. eexists. exists item. repeat split; eassumption.
Qed.
End AutoStart.

(** A Big Mac asked for on the fixture before any order was started. *)
Lemma add_to_order_starts_order_witness :
  DriveThruAI.current_order Fixture.session = None
  /\ add_to_order 7 Fixture.session "big mac" 2 None None
     = add_to_order 7 Fixture.started' "big mac" 2 None None
  /\ fst (add_to_order 7 Fixture.session "big mac" 2 None None)
     = Return (Added 2 Fixture.big_mac None).
Proof.
  destruct (add_to_order_starts_order 7 Fixture.session "big mac" 2 None None)
    as (Hstart & _ & _).
  split; [reflexivity|]. split; [|reflexivity].
  apply Hstart. reflexivity.
Defined.

(** ** The range of prices *)

(** The price of an entry is [round(base + u, 2)] in doubles.  The sum is
    rounded once, by [binary_round_aux]; the lemmas below bound what the
    rounding can lose, which is far less than half a hundredth, so that the
    hundredths kept are those of the exact sum or next to them. *)

Section DoubleSums.
Local Open Scope Z_scope.

Lemma shr_1_m mrs : 0 <= shr_m mrs -> shr_m (shr_1 mrs) = shr_m mrs / 2.
Proof.
  destruct mrs as [m r s]. cbn [shr_m]. intros H.
  rewrite <- Z.div2_div.
  destruct m as [|[p|p|]|p]; try reflexivity. lia.
Qed.

Lemma pow2_xO p : 2 ^ Zpos p~0 = 2 ^ Zpos p * 2 ^ Zpos p.
Proof. rewrite (Pos2Z.inj_xO p). apply Z.pow_twice_r. Qed.

Lemma pow2_xI p : 2 ^ Zpos p~1 = 2 * (2 ^ Zpos p * 2 ^ Zpos p).
Proof.
  rewrite (Pos2Z.inj_xI p).
  replace (2 * Zpos p + 1) with (Z.succ (2 * Zpos p)) by lia.
  rewrite Z.pow_succ_r by lia. rewrite Z.pow_twice_r. reflexivity.
Qed.

Lemma pow2_pos n : 0 <= n -> 0 < 2 ^ n.
Proof. intros H. apply Z.pow_pos_nonneg; lia. Qed.

Lemma iter_shr_m p mrs :
  0 <= shr_m mrs -> shr_m (iter_pos shr_1 p mrs) = shr_m mrs / 2 ^ Zpos p.
Proof.
  revert mrs; induction p as [p IH|p IH|]; intros mrs H; cbn [iter_pos].
  - assert (0 <= shr_m (shr_1 mrs)) as H1
      by (rewrite shr_1_m by exact H; apply Z.div_pos; lia).
    pose proof (pow2_pos (Zpos p) ltac:(lia)) as Hp.
    assert (0 <= shr_m (iter_pos shr_1 p (shr_1 mrs))) as H2
      by (rewrite IH by exact H1; apply Z.div_pos; lia).
    rewrite (IH _ H2), (IH _ H1), shr_1_m by exact H.
    rewrite !Z.div_div by lia.
    rewrite pow2_xI. reflexivity.
  - pose proof (pow2_pos (Zpos p) ltac:(lia)) as Hp.
    assert (0 <= shr_m (iter_pos shr_1 p mrs)) as H2
      by (rewrite IH by exact H; apply Z.div_pos; lia).
    rewrite (IH _ H2), (IH _ H).
    rewrite !Z.div_div by lia.
    rewrite pow2_xO. reflexivity.
  - rewrite shr_1_m by exact H. reflexivity.
Qed.

Lemma shr_value m r s e n :
  0 <= m -> 0 <= n ->
  shr_m (fst (shr (Build_shr_record m r s) e n)) = m / 2 ^ n
  /\ snd (shr (Build_shr_record m r s) e n) = e + n.
Proof.
  intros Hm Hn. destruct n as [|p|p]; cbn [shr fst snd].
  - cbn [shr_m]. rewrite Z.div_1_r. split; [reflexivity | lia].
  - split; [|reflexivity]. rewrite iter_shr_m by exact Hm. reflexivity.
  - lia.
Qed.

Lemma digits2_pos_bounds p :
  2 ^ (Zpos (digits2_pos p) - 1) <= Zpos p < 2 ^ Zpos (digits2_pos p).
Proof.
  induction p as [p IH|p IH|]; cbn [digits2_pos].
  - rewrite Pos2Z.inj_succ, (Pos2Z.inj_xI p).
    replace (Z.succ (Zpos (digits2_pos p)) - 1) with (Z.succ (Zpos (digits2_pos p) - 1)) by lia.
    rewrite !Z.pow_succ_r by lia. lia.
  - rewrite Pos2Z.inj_succ, (Pos2Z.inj_xO p).
    replace (Z.succ (Zpos (digits2_pos p)) - 1) with (Z.succ (Zpos (digits2_pos p) - 1)) by lia.
    rewrite !Z.pow_succ_r by lia. lia.
  - simpl. lia.
Qed.


Lemma fexp_large d : -1074 + 53 <= d -> fexp prec emax d = d - 53.
Proof. unfold fexp, SpecFloat.emin, prec, emax. lia. Qed.

Lemma shr_fexp_pos (M : positive) e l :
  -1074 <= e -> 53 <= Zpos (digits2_pos M) ->
  shr_m (fst (shr_fexp prec emax (Zpos M) e l)) = Zpos M / 2 ^ (Zpos (digits2_pos M) - 53)
  /\ snd (shr_fexp prec emax (Zpos M) e l) = e + (Zpos (digits2_pos M) - 53).
Proof.
  intros He Hd. unfold shr_fexp. cbn [Zdigits2].
  rewrite fexp_large by lia.
  replace (Zpos (digits2_pos M) + e - 53 - e) with (Zpos (digits2_pos M) - 53) by lia.
  destruct l as [|[| |]]; cbn [shr_record_of_loc]; apply shr_value; lia.
Qed.

Lemma round_nearest_even_bounds m l : m <= round_nearest_even m l <= m + 1.
Proof.
  destruct l as [|[| |]]; cbn [round_nearest_even]; try destruct (Z.even m); lia.
Qed.

Lemma digits2_pos_ge p k : 2 ^ (k - 1) <= Zpos p -> 1 <= k -> k <= Zpos (digits2_pos p).
Proof.
  intros H Hk. destruct (digits2_pos_bounds p) as [_ Hu].
  destruct (Z.le_gt_cases k (Zpos (digits2_pos p))) as [|Hlt]; [assumption|].
  assert (2 ^ Zpos (digits2_pos p) <= 2 ^ (k - 1)) by (apply Z.pow_le_mono_r; lia).
  lia.
Qed.

Lemma digits2_pos_le p k : Zpos p < 2 ^ k -> 0 <= k -> Zpos (digits2_pos p) <= k.
Proof.
  intros H Hk. destruct (digits2_pos_bounds p) as [Hl _].
  destruct (Z.le_gt_cases (Zpos (digits2_pos p)) k) as [|Hlt]; [assumption|].
  assert (2 ^ k <= 2 ^ (Zpos (digits2_pos p) - 1)) by (apply Z.pow_le_mono_r; lia).
  lia.
Qed.

(** Rounding a positive integer of at least 53 bits, times a power of 2, to
    a double: the result is finite and within one part in 2^51 of it. *)
Lemma binary_round_aux_pos (M : positive) (e : Z) :
  -1074 <= e <= 0 -> 2 ^ 52 <= Zpos M -> Zpos M < 2 ^ (64 - e) ->
  exists m2 e2,
    binary_round_aux prec emax false (Zpos M) e loc_Exact = S754_finite false m2 e2
    /\ e <= e2
    /\ 2 ^ 51 * (Zpos M - Zpos m2 * 2 ^ (e2 - e)) <= Zpos M
    /\ 2 ^ 51 * (Zpos m2 * 2 ^ (e2 - e) - Zpos M) <= Zpos M.
Proof.
  intros He Hlo Hhi.
  assert (53 <= Zpos (digits2_pos M)) as Hd by (apply digits2_pos_ge; [exact Hlo | lia]).
  assert (Zpos (digits2_pos M) <= 64 - e) as Hd' by (apply digits2_pos_le; lia).
  destruct (digits2_pos_bounds M) as [HMl HMu].
  destruct (shr_fexp_pos M e loc_Exact ltac:(lia) Hd) as [Hm1 He1].
  unfold binary_round_aux.
  destruct (shr_fexp prec emax (Zpos M) e loc_Exact) as [mrs1 e1].
  cbn [fst snd] in Hm1, He1.
  remember (Zpos (digits2_pos M) - 53) as n1 eqn:En1.
  remember (2 ^ n1) as P1 eqn:EP1.
  assert (0 < P1) as HP1 by (subst P1; apply pow2_pos; lia).
  assert (2 ^ (Zpos (digits2_pos M) - 1) = 2 ^ 52 * P1) as Hpl.
  { subst P1. rewrite <- Z.pow_add_r by lia. f_equal. lia. }
  assert (2 ^ Zpos (digits2_pos M) = 2 ^ 53 * P1) as Hpu.
  { subst P1. rewrite <- Z.pow_add_r by lia. f_equal. lia. }
  rewrite Hpl in HMl. rewrite Hpu in HMu.
  pose proof (Z.div_mod (Zpos M) P1 ltac:(lia)) as Hdm.
  pose proof (Z.mod_pos_bound (Zpos M) P1 HP1) as Hmod.
  rewrite <- Hm1 in Hdm.
  remember (shr_m mrs1) as m1 eqn:Em1.
  remember (Zpos M mod P1) as r1 eqn:Er1.
  assert (2 ^ 52 <= m1 < 2 ^ 53) as Hb1 by nia.
  pose proof (round_nearest_even_bounds m1 (loc_of_shr_record mrs1)) as Hr.
  remember (round_nearest_even m1 (loc_of_shr_record mrs1)) as q1 eqn:Eq1.
  destruct q1 as [|q|q]; [lia| |lia].
  assert (53 <= Zpos (digits2_pos q)) as Hd2 by (apply digits2_pos_ge; lia).
  assert (Zpos (digits2_pos q) <= 54) as Hd2' by (apply digits2_pos_le; lia).
  destruct (shr_fexp_pos q e1 loc_Exact ltac:(lia) Hd2) as [Hm2 He2].
  destruct (shr_fexp prec emax (Zpos q) e1 loc_Exact) as [mrs2 e2].
  cbn [fst snd] in Hm2, He2.
  assert (Zpos (digits2_pos q) - 53 = 0 \/ Zpos (digits2_pos q) - 53 = 1) as Hn2 by lia.
  assert (e2 <= emax - prec) as Hemax by (unfold emax, prec; lia).
  apply Z.leb_le in Hemax.
  destruct Hn2 as [Hn2|Hn2]; rewrite Hn2 in Hm2, He2.
  - rewrite Z.div_1_r in Hm2. rewrite Hm2, Hemax.
    exists q, e2. split; [reflexivity|]. split; [lia|].
    replace (e2 - e) with n1 by lia. rewrite <- EP1. nia.
  - assert (0 < Zpos q / 2) as Hpos by (apply Z.div_str_pos; lia).
    pose proof (Z.div_mod (Zpos q) 2 ltac:(lia)) as Hdm2.
    pose proof (Z.mod_pos_bound (Zpos q) 2 ltac:(lia)) as Hmod2.
    change (2 ^ 1) with 2 in Hm2.
    destruct (shr_m mrs2) as [|m2|m2]; [lia| |lia].
    rewrite Hemax.
    exists m2, e2. split; [reflexivity|]. split; [lia|].
    replace (e2 - e) with (n1 + 1) by lia.
    rewrite Z.pow_add_r by lia. rewrite <- EP1. change (2 ^ 1) with 2. nia.
Qed.

Lemma iter_xO_value m d : Zpos (Pos.iter xO m d) = Zpos m * 2 ^ Zpos d.
Proof.
  induction d as [|d IH] using Pos.peano_ind.
  - cbn [Pos.iter]. rewrite (Pos2Z.inj_xO m). change (2 ^ 1) with 2. lia.
  - rewrite Pos.iter_succ, (Pos2Z.inj_xO (Pos.iter xO m d)), IH, Pos2Z.inj_succ.
    rewrite Z.pow_succ_r by lia. lia.
Qed.

Lemma shl_align_value mx ex ez :
  ez <= ex -> Zpos (fst (shl_align mx ex ez)) = Zpos mx * 2 ^ (ex - ez).
Proof.
  intros H. unfold shl_align.
  destruct (ez - ex) as [|d|d] eqn:E; cbn [fst].
  - replace (ex - ez) with 0 by lia. rewrite Z.pow_0_r. lia.
  - lia.
  - rewrite iter_xO_value. f_equal. f_equal. lia.
Qed.

(** The sum of two positive doubles, the first a normal one with the
    larger exponent: it is finite and within one part in 2^51 of the exact
    sum.  Values are in units of 2^ey. *)
Lemma SFadd_pos_bounds mx ex my ey :
  -1074 <= ey <= ex -> ex <= 0 -> 2 ^ 52 <= Zpos mx ->
  Zpos mx * 2 ^ (ex - ey) + Zpos my < 2 ^ (64 - ey) ->
  exists m2 e2,
    SFadd prec emax (S754_finite false mx ex) (S754_finite false my ey)
    = S754_finite false m2 e2
    /\ ey <= e2
    /\ 2 ^ 51 * (Zpos mx * 2 ^ (ex - ey) + Zpos my - Zpos m2 * 2 ^ (e2 - ey))
       <= Zpos mx * 2 ^ (ex - ey) + Zpos my
    /\ 2 ^ 51 * (Zpos m2 * 2 ^ (e2 - ey) - (Zpos mx * 2 ^ (ex - ey) + Zpos my))
       <= Zpos mx * 2 ^ (ex - ey) + Zpos my.
Proof.
  intros He Hex Hmx Hhi.
  unfold SFadd. rewrite Z.min_r by lia. cbn [cond_Zopp].
  pose proof (shl_align_value mx ex ey ltac:(lia)) as Hx.
  pose proof (shl_align_value my ey ey ltac:(lia)) as Hy.
  rewrite Z.sub_diag, Z.pow_0_r, Z.mul_1_r in Hy.
  remember (fst (shl_align mx ex ey)) as a eqn:Ea.
  remember (fst (shl_align my ey ey)) as b eqn:Eb.
  change (Zpos a + Zpos b) with (Zpos (a + b)).
  cbn [binary_normalize]. unfold binary_round.
  assert (Zpos (a + b) = Zpos mx * 2 ^ (ex - ey) + Zpos my) as HM
    by (rewrite Pos2Z.inj_add; lia).
  pose proof (pow2_pos (ex - ey) ltac:(lia)) as Hp.
  assert (2 ^ 52 <= Zpos (a + b)) as Hlo by (rewrite HM; nia).
  assert (53 <= Zpos (digits2_pos (a + b))) as Hd
    by (apply digits2_pos_ge; [exact Hlo | lia]).
  rewrite fexp_large by lia.
  assert (shl_align (a + b) ey (Zpos (digits2_pos (a + b)) + ey - 53) = ((a + b)%positive, ey))
    as Hal.
  { unfold shl_align.
    destruct (Zpos (digits2_pos (a + b)) + ey - 53 - ey) as [|p|p] eqn:E;
      [reflexivity | reflexivity | lia]. }
  rewrite Hal.
  destruct (binary_round_aux_pos (a + b) ey ltac:(lia) Hlo ltac:(rewrite HM; exact Hhi))
    as (m2 & e2 & Hr & He2 & Hb1 & Hb2).
  exists m2, e2. rewrite Hr, <- HM. auto.
Qed.

(** A double from 0 up to, and not including, 2: it is a zero, or it is
    positive with an exponent of at most -52. *)
Lemma jitter_cases (u : float) :
  PrimFloat.leb zero u = true -> PrimFloat.ltb u two = true ->
  (exists s, Prim2SF u = S754_zero s)
  \/ (exists m e, Prim2SF u = S754_finite false m e
                  /\ -1074 <= e <= -52 /\ Zpos m < 2 ^ 53).
Proof.
  intros Hlo Hhi. rewrite leb_spec in Hlo. rewrite ltb_spec in Hhi.
  pose proof (Prim2SF_valid u) as Hv.
  change (Prim2SF zero) with (S754_zero false) in Hlo.
  change (Prim2SF two) with (S754_finite false 4503599627370496 (-51)) in Hhi.
  destruct (Prim2SF u) as [s|s| |s m e].
  - left; eauto.
  - destruct s; cbn in Hlo, Hhi; discriminate.
  - discriminate.
  - right. destruct s; [cbn in Hlo; discriminate|].
    exists m, e. split; [reflexivity|].
    unfold SFltb, SFcompare in Hhi.
    cbn [valid_binary] in Hv. unfold bounded, canonical_mantissa in Hv.
    apply andb_true_iff in Hv. destruct Hv as [Hc Hb].
    apply Z.eqb_eq in Hc. apply Z.leb_le in Hb.
    unfold fexp, SpecFloat.emin, prec, emax in Hc.
    destruct (digits2_pos_bounds m) as [Hl Hu].
    assert (Zpos (digits2_pos m) <= 53) as Hd by lia.
    assert (2 ^ Zpos (digits2_pos m) <= 2 ^ 53) as Hp by (apply Z.pow_le_mono_r; lia).
    destruct (Z.compare_spec e (-51)) as [E|E|E]; try discriminate.
    + exfalso.
      destruct (Pos.compare_cont Eq m 4503599627370496) eqn:Ec; try discriminate.
      pose proof (proj1 (Pos.compare_lt_iff m 4503599627370496) Ec) as Hlt.
      assert (Zpos m < 2 ^ 52) as Hm by (apply Pos2Z.pos_lt_pos; exact Hlt).
      assert (0 <= 52) as H52 by (clear; lia).
      pose proof (digits2_pos_le m 52 Hm H52) as Hd52.
      clear Hhi Hlo Hb Hl Hu Hd Hp Hm Hlt Ec.
      lia.
    + split; lia.
Qed.

Lemma finite_class (x : float) s m e :
  Prim2SF x = S754_finite s m e ->
  is_nan x = false /\ is_infinity x = false /\ is_zero x = false.
Proof.
  unfold Prim2SF.
  destruct (is_nan x); [discriminate|].
  destruct (is_zero x); [discriminate|].
  destruct (is_infinity x); [discriminate|]. auto.
Qed.

(** The value of a positive double, over a power of 2 that clears its
    exponent. *)
Lemma to_Q_scaled (x : float) m e t :
  Prim2SF x = S754_finite false m e -> 0 <= t -> 0 <= e + t ->
  (Double.to_Q x == (Zpos m * 2 ^ (e + t)) # Z.to_pos (2 ^ t))%Q.
Proof.
  intros Hx Ht Het. unfold Double.to_Q. rewrite Hx.
  pose proof (pow2_pos t Ht) as Hp.
  destruct e as [|p|p]; unfold Qeq; cbn [Qnum Qden inject_Z];
    rewrite Z2Pos.id by lia.
  - rewrite Z.add_0_l. lia.
  - change (Z.pow_pos 2 p) with (2 ^ Zpos p).
    rewrite Z.pow_add_r by lia. lia.
  - rewrite Pos2Z.inj_pow.
    replace t with (Zneg p + t + Zpos p) at 1 by lia.
    rewrite (Z.pow_add_r 2 (Zneg p + t) (Zpos p)) by lia. lia.
Qed.

Lemma round_half_even_between (q : Q) (a b : Z) :
  (inject_Z a - (1 # 2) < q)%Q -> (q < inject_Z b + (1 # 2))%Q ->
  a <= round_half_even q <= b.
Proof.
  intros Ha Hb. unfold round_half_even.
  pose proof (Qfloor_le q) as Hf. pose proof (Qlt_floor q) as Hc.
  rewrite inject_Z_plus in Hc. change (inject_Z 1) with 1%Q in Hc.
  remember (Qfloor q) as f eqn:Ef.
  assert (a <= f + 1) as H1.
  { apply Z.lt_succ_r. rewrite Zlt_Qlt. unfold Z.succ.
    rewrite !inject_Z_plus. change (inject_Z 1) with 1%Q. lra. }
  assert (f <= b) as H2.
  { apply Z.lt_succ_r. rewrite Zlt_Qlt. unfold Z.succ.
    rewrite !inject_Z_plus. change (inject_Z 1) with 1%Q. lra. }
  destruct (Qcompare (q - inject_Z f) (1 # 2)) eqn:E.
  - apply Qeq_alt in E.
    assert (a <= f) as H3.
    { apply Z.lt_succ_r. rewrite Zlt_Qlt. unfold Z.succ.
      rewrite !inject_Z_plus. change (inject_Z 1) with 1%Q. lra. }
    assert (f + 1 <= b) as H4.
    { apply Z.lt_succ_r. rewrite Zlt_Qlt. unfold Z.succ.
      rewrite !inject_Z_plus. change (inject_Z 1) with 1%Q. lra. }
    destruct (Z.even f); lia.
  - apply Qlt_alt in E.
    assert (a <= f) as H3.
    { apply Z.lt_succ_r. rewrite Zlt_Qlt. unfold Z.succ.
      rewrite !inject_Z_plus. change (inject_Z 1) with 1%Q. lra. }
    lia.
  - apply Qgt_alt in E.
    assert (f + 1 <= b) as H4.
    { apply Z.lt_succ_r. rewrite Zlt_Qlt. unfold Z.succ.
      rewrite !inject_Z_plus. change (inject_Z 1) with 1%Q. lra. }
    lia.
Qed.

(** The hundredths of a positive double, from its value in units of
    [2^-t]. *)
Lemma cents_between (x : float) m e t (a b : Z) :
  Prim2SF x = S754_finite false m e -> 0 <= t -> 0 <= e + t ->
  (2 * a - 1) * 2 ^ t < 200 * (Zpos m * 2 ^ (e + t)) ->
  200 * (Zpos m * 2 ^ (e + t)) < (2 * b + 1) * 2 ^ t ->
  a <= round_half_even (Double.to_Q x * 100)%Q <= b.
Proof.
  intros Hx Ht Het Hlo Hhi.
  pose proof (pow2_pos t Ht) as Hp.
  apply round_half_even_between; rewrite (to_Q_scaled x m e t Hx Ht Het);
    unfold Qlt, Qminus, Qplus, Qmult, Qopp; cbn [Qnum Qden inject_Z];
    rewrite ?Pos2Z.inj_mul, ?Z2Pos.id by lia; lia.
Qed.

(** A price: the literal of [k] hundredths plus a jitter from 0 up to, and
    not including, 2, rounded to hundredths.  It is the literal of [n]
    hundredths for an [n] from [k] to [k + 200].  The literal is
    [mb * 2^eb], at least 1 and below 8, and within a part in 2^51 of
    [k / 100]. *)
Lemma round2_cents_plus_jitter (k : Z) (mb : positive) (eb : Z) (u : float) :
  Prim2SF (Double.cents k) = S754_finite false mb eb ->
  -52 <= eb <= -50 -> 2 ^ 52 <= Zpos mb < 2 ^ 53 ->
  (2 * k - 1) * 2 ^ 103 < 200 * (2 ^ 51 - 1) * (Zpos mb * 2 ^ (eb + 52)) ->
  200 * (2 ^ 51 + 1) * (Zpos mb * 2 ^ (eb + 52) + 2 ^ 53) < (2 * k + 401) * 2 ^ 103 ->
  1 <= k < 2 ^ 52 ->
  Double.round2 (Double.cents k) = Double.cents k ->
  PrimFloat.leb zero u = true -> PrimFloat.ltb u two = true ->
  exists n,
    k <= n <= k + 200
    /\ Double.round2 (PrimFloat.add (Double.cents k) u) = Double.cents n.
Proof.
  intros Hb Heb Hmb Hlow Hhigh Hk Hself Hlo Hhi.
  destruct (jitter_cases u Hlo Hhi) as [[s Hu]|(m & e & Hu & He & Hm)].
  - exists k. split; [lia|].
    assert (PrimFloat.add (Double.cents k) u = Double.cents k) as E.
    { apply Prim2SF_inj. rewrite add_spec, Hb, Hu. reflexivity. }
    rewrite E. exact Hself.
  - destruct (SFadd_pos_bounds mb eb m e) as (m2 & e2 & Hsum & He2 & Hb1 & Hb2);
      try lia.
    { replace (eb - e) with (eb + 52 + (-52 - e)) by lia.
      replace (64 - e) with (116 + (-52 - e)) by lia.
      rewrite (Z.pow_add_r 2 (eb + 52) (-52 - e)), (Z.pow_add_r 2 116 (-52 - e)) by lia.
      pose proof (pow2_pos (-52 - e) ltac:(lia)) as HT.
      assert (2 ^ (eb + 52) <= 2 ^ 2) as Hp by (apply Z.pow_le_mono_r; lia).
      pose proof (pow2_pos (eb + 52) ltac:(lia)) as Hp'.
      change (2 ^ 2) with 4 in Hp.
      remember (2 ^ (-52 - e)) as T eqn:ET. remember (2 ^ (eb + 52)) as A eqn:EA.
      assert (Zpos mb * A < 2 ^ 55) as HB by nia.
      assert (Zpos mb * A * T <= 2 ^ 55 * T) as HBT
        by (apply Z.mul_le_mono_nonneg_r; lia).
      rewrite Z.mul_assoc. lia. }
    assert (Prim2SF (PrimFloat.add (Double.cents k) u) = S754_finite false m2 e2) as Hx
      by (rewrite add_spec, Hb, Hu; exact Hsum).
    destruct (finite_class _ _ _ _ Hx) as (Hnan & Hinf & Hzero).
    replace (eb - e) with (eb + 52 + (-52 - e)) in Hb1, Hb2 by lia.
    rewrite (Z.pow_add_r 2 (eb + 52) (-52 - e)) in Hb1, Hb2 by lia.
    pose proof (pow2_pos (-52 - e) ltac:(lia)) as HT.
    assert (cents_ok :
              k <= round_half_even
                     (Double.to_Q (PrimFloat.add (Double.cents k) u) * 100)%Q
              <= k + 200).
    { apply (cents_between _ m2 e2 (- e)); [exact Hx | lia | lia | |];
        replace (e2 + - e) with (e2 - e) by lia;
        replace (- e) with (52 + (-52 - e)) by lia;
        rewrite (Z.pow_add_r 2 52 (-52 - e)) by lia.
      - apply (Z.mul_lt_mono_pos_r (2 ^ (-52 - e))) in Hlow; [|exact HT].
        remember (2 ^ (-52 - e)) as T eqn:ET. remember (2 ^ (eb + 52)) as A eqn:EA.
        remember (Zpos m2 * 2 ^ (e2 - e)) as X eqn:EX.
        rewrite Z.mul_assoc in Hb1. lia.
      - apply (Z.mul_lt_mono_pos_r (2 ^ (-52 - e))) in Hhigh; [|exact HT].
        remember (2 ^ (-52 - e)) as T eqn:ET. remember (2 ^ (eb + 52)) as A eqn:EA.
        remember (Zpos m2 * 2 ^ (e2 - e)) as X eqn:EX.
        rewrite Z.mul_assoc in Hb2.
        assert (Zpos m < 2 ^ 53 * T) as HmT by lia.
        lia. }
    exists (round_half_even (Double.to_Q (PrimFloat.add (Double.cents k) u) * 100)%Q).
    split; [exact cents_ok|].
    unfold Double.round2. rewrite Hnan, Hinf, Hzero. cbn [orb].
    remember (round_half_even (Double.to_Q (PrimFloat.add (Double.cents k) u) * 100)%Q)
      as n eqn:En.
    destruct (Z.ltb_spec (Z.abs n) (2 ^ 53)) as [_|Hbig]; [|lia].
    destruct (Z.eqb_spec n 0) as [Hz|_]; [lia|].
    reflexivity.
Qed.

End DoubleSums.

(** The price built on each base price: the literal of the base price is
    computed, and the margins asked for by the lemma above are checked. *)
Lemma price_is_cents (k : Z) (u : float) :
  In k DoublePrices.base_prices ->
  PrimFloat.leb zero u = true -> PrimFloat.ltb u two = true ->
  exists n,
    (k <= n <= k + 200)%Z
    /\ Double.round2 (PrimFloat.add (Double.cents k) u) = Double.cents n.
Proof.
  intros Hin Hlo Hhi. unfold DoublePrices.base_prices in Hin. simpl in Hin.
  repeat (destruct Hin as [Hin|Hin];
          [subst k;
           match goal with
           | |- exists n, (?k <= n <= _)%Z /\ _ =>
               let sf := eval vm_compute in (Prim2SF (Double.cents k)) in
               match sf with
               | S754_finite false ?mb ?eb =>
                   apply (round2_cents_plus_jitter k mb eb);
                   [ vm_compute; reflexivity | lia | lia
                   | vm_compute; reflexivity | vm_compute; reflexivity | lia
                   | vm_compute; reflexivity | assumption | assumption ]
               end
           end|]).
  destruct Hin.
Qed.

Lemma literals_in_range_all :
  forallb DoublePrices.literals_in_range DoublePrices.base_prices = true.
Proof. vm_compute. reflexivity. Qed.

(** The price built on a base price and a jitter from 0 up to, and not
    including, 2 is the literal of a number of hundredths from the base
    price to the base price plus 2, and Python finds it between them. *)
Lemma price_in_range (k : Z) (u : float) :
  In k DoublePrices.base_prices ->
  PrimFloat.leb zero u = true -> PrimFloat.ltb u two = true ->
  (exists n,
     (k <= n <= k + 200)%Z
     /\ Double.round2 (PrimFloat.add (Double.cents k) u) = Double.cents n)
  /\ PrimFloat.leb (Double.cents k) (Double.round2 (PrimFloat.add (Double.cents k) u))
     = true
  /\ PrimFloat.leb (Double.round2 (PrimFloat.add (Double.cents k) u))
       (PrimFloat.add (Double.cents k) two)
     = true.
Proof.
  intros Hin Hlo Hhi.
  destruct (price_is_cents k u Hin Hlo Hhi) as (n & Hn & E).
  split; [exists n; split; assumption|].
  pose proof literals_in_range_all as Hall.
  rewrite forallb_forall in Hall. specialize (Hall k Hin).
  unfold DoublePrices.literals_in_range in Hall. rewrite forallb_forall in Hall.
  specialize (Hall (Z.to_nat (n - k))).
  rewrite Z2Nat.id in Hall by lia.
  replace (k + (n - k))%Z with n in Hall by lia.
  rewrite E. apply andb_true_iff. apply Hall.
  apply in_seq. lia.
Qed.

Lemma dict_get_value {V} (d : dict V) k v : dict_get d k = Some v -> In v (dict_values d).
Proof.
  induction d as [|[k' v'] d IH]; simpl; [discriminate|].
  destruct (String.eqb k k'); [intros H; inversion H; left; reflexivity|].
  intros H; right; apply IH; exact H.
Qed.

Lemma base_cents_in category :
  In (MenuScraper.base_cents category) DoublePrices.base_prices.
Proof.
  unfold MenuScraper.base_cents, DoublePrices.base_prices.
  destruct (dict_get MenuScraper.prices category) as [c|] eqn:E;
    [right; apply (dict_get_value _ _ _ E) | left; reflexivity].
Qed.

(** C8, as stated, fails: with the draw 1.996, in [[0, 2)], the item built
    for "Big Mac" in the category "Burgers", of base price 5.49, has the
    price round(7.486, 2) = 7.49, which is the base price plus 2 and so not
    below it.  The same holds with doubles. *)
Lemma price_reaches_base_plus_two :
  PriceRange.jitter_in_range (Fixture.exact_web (1996 # 1000))
  /\ (exists item,
        dict_get (DriveThruAI.get_menu (DriveThruAI.init (Fixture.exact_web (1996 # 1000))))
          "Bur_1" = Some item
        /\ MenuItem.category item = "Burgers"
        /\ (MenuScraper._get_base_price (F := Exact) "Burgers" == 549 # 100)%Q
        /\ (MenuItem.price item == 749 # 100)%Q
        /\ ~ PriceRange.in_half_open_range item)
  /\ (exists item,
        dict_get (DriveThruAI.get_menu (DriveThruAI.init (Fixture.web Fixture.high_draw)))
          "Bur_1" = Some item
        /\ MenuItem.category item = "Burgers"
        /\ PrimFloat.leb zero Fixture.high_draw = true
        /\ PrimFloat.ltb Fixture.high_draw two = true
        /\ MenuItem.price item = Double.cents 749
        /\ PrimFloat.ltb (MenuItem.price item)
             (PrimFloat.add (MenuScraper._get_base_price (F := Binary64) "Burgers") two)
           = false).
Proof.
  split; [|split].
  - intros i. simpl. split; [discriminate | reflexivity].
  - exists (MenuItem.mk Exact "Bur_1" "Big Mac"
              "A delicious Big Mac with fresh ingredients"
              (749 # 100)%Q "Burgers" None true).
    split; [reflexivity|]. split; [reflexivity|].
    split; [reflexivity|]. split; [reflexivity|].
    unfold PriceRange.in_half_open_range. simpl.
    intros [_ H]. vm_compute in H. discriminate.
  - exists (MenuItem.mk Binary64 "Bur_1" "Big Mac"
              "A delicious Big Mac with fresh ingredients"
              (Double.cents 749) "Burgers" None true).
    repeat split; vm_compute; reflexivity.
Qed.

Section Prices.

Lemma new_price_in_closed_range (w : @Web Binary64) category_name item_id item_name
    description drawn sizes available :
  DoublePrices.jitter_in_range w ->
  DoublePrices.in_closed_range
    (MenuItem.mk Binary64 item_id item_name description
       (f_round2 (f_add (MenuScraper._get_base_price category_name) (uniform w drawn)))
       category_name sizes available).
Proof.
  intros Hw. destruct (Hw drawn) as [Hlo Hhi].
  unfold DoublePrices.in_closed_range.
  cbn [MenuItem.category MenuItem.price].
  apply (price_in_range (MenuScraper.base_cents category_name) (uniform w drawn)
           (base_cents_in category_name) Hlo Hhi).
Qed.

Lemma dict_get_set_same {V} (d : dict V) k v :
  dict_get (dict_set d k v) k = Some v.
Proof.
  induction d as [|[k' v'] d IH]; simpl.
  - rewrite String.eqb_refl; reflexivity.
  - destruct (String.eqb k k') eqn:E; simpl; rewrite E; [reflexivity | exact IH].
Qed.

(** C8, amended.  Let every draw of [random.uniform(0, 2)] be a double
    that Python finds at least 0.0 and below 2.0.  Then every item a build
    adds has for price the literal of a whole number of hundredths from
    the base price of its category to that base price plus 2.00, both ends
    included, and Python finds [base <= price <= base + 2.0]; so has every
    item of the menu of a session at start-up.  The price of a new entry
    is the rounding to hundredths of the base price plus the draw, and a
    category outside the table has the base price 4.99.  Amounts are
    IEEE doubles, sums and roundings are those of CPython. *)
Theorem scraped_prices_in_closed_range
    (w : @Web Binary64) (self : @MenuScraper.t Binary64) :
  DoublePrices.jitter_in_range w ->
  (Forall DoublePrices.in_closed_range (dict_values (MenuScraper.menu_data self)) ->
   Forall DoublePrices.in_closed_range
     (dict_values (MenuScraper.menu_data (snd (MenuScraper.scrape_menu w self)))))
  /\ Forall DoublePrices.in_closed_range
       (dict_values (DriveThruAI.get_menu (DriveThruAI.init w)))
  /\ (forall category_name item_name u,
        exists item,
          dict_get (MenuScraper.menu_data
                      (MenuScraper.add_entry category_name item_name u self))
            (Str.take 3 category_name ++ "_"
               ++ Str.of_nat (List.length (MenuScraper.menu_data self) + 1))%string
          = Some item
          /\ MenuItem.category item = category_name
          /\ MenuItem.price item
             = Double.round2
                 (PrimFloat.add
                    (MenuScraper._get_base_price (F := Binary64) category_name) u))
  /\ (forall category_name,
        dict_get MenuScraper.prices category_name = None ->
        MenuScraper._get_base_price (F := Binary64) category_name = Double.cents 499).
Proof.
  intros Hw.
  assert (forall s : @MenuScraper.t Binary64,
            Forall DoublePrices.in_closed_range (dict_values (MenuScraper.menu_data s)) ->
            Forall DoublePrices.in_closed_range
              (dict_values (MenuScraper.menu_data (snd (MenuScraper.scrape_menu w s)))))
    as Hkeep.
  { intros s Hs.
    assert (Forall (fun item => DoublePrices.jitter_in_range w ->
                                DoublePrices.in_closed_range item)
              (dict_values (MenuScraper.menu_data (snd (MenuScraper.scrape_menu w s)))))
      as H.
    { apply (scrape_menu_values
               (fun w item => DoublePrices.jitter_in_range w ->
                              DoublePrices.in_closed_range item)).
      - intros w' c n drawn s'. apply new_price_in_closed_range.
      - eapply Forall_impl; [|exact Hs]. intros item Hi _; exact Hi. }
    eapply Forall_impl; [|exact H]. intros item Hi; apply Hi; exact Hw. }
  split; [apply Hkeep|]. split; [|split].
  - unfold DriveThruAI.init, DriveThruAI.get_menu.
    pose proof (Hkeep MenuScraper.init (Forall_nil _)) as Hinit.
    pose proof (scrape_menu_ref w MenuScraper.init) as Href.
    destruct (MenuScraper.scrape_menu w MenuScraper.init) as [m scraper].
    simpl in *. destruct Href as [E|E]; rewrite E; simpl; [exact Hinit | constructor].
  - intros category_name item_name u. eexists. split; [|split].
    + unfold MenuScraper.add_entry; simpl. apply dict_get_set_same.
    + reflexivity.
    + reflexivity.
  - intros category_name H. unfold MenuScraper._get_base_price, MenuScraper.base_cents.
    rewrite H. reflexivity.
Qed.
End Prices.

(** The fixture page with every draw at the double nearest to 1.996: the
    Big Mac costs 7.49, which is the base price 5.49 plus 2. *)
Lemma scraped_prices_in_closed_range_witness :
  DoublePrices.jitter_in_range (Fixture.web Fixture.high_draw)
  /\ Forall DoublePrices.in_closed_range
       (dict_values
          (MenuScraper.menu_data
             (snd (MenuScraper.scrape_menu (Fixture.web Fixture.high_draw)
                     MenuScraper.init))))
  /\ Forall DoublePrices.in_closed_range
       (dict_values (DriveThruAI.get_menu
                       (DriveThruAI.init (Fixture.web Fixture.high_draw))))
  /\ option_map MenuItem.price
       (dict_get (DriveThruAI.get_menu
                    (DriveThruAI.init (Fixture.web Fixture.high_draw))) "Bur_1")
     = Some (Double.cents 749).
Proof.
  assert (DoublePrices.jitter_in_range (Fixture.web Fixture.high_draw)) as Hw
    by (intros i; split; reflexivity).
  destruct (scraped_prices_in_closed_range
              (Fixture.web Fixture.high_draw) MenuScraper.init Hw)
    as (Hbuild & Hstart & _).
  split; [exact Hw|]. split; [exact (Hbuild (Forall_nil _))|].
  split; [exact Hstart | reflexivity].
Defined.

(** ** Refreshing the menu *)

(** C9.  A refresh does not build a new dictionary: the menu of the session
    refers to the scraper's [menu_data] before and after it, and the build
    adds its entries to that dictionary.  With the same page fetched twice,
    the menu held from before the refresh has five entries before it and
    ten after it, and the menu after the refresh starts with the five
    entries of the first build; the list of the category "Burgers" holds
    each name twice. *)
Theorem refresh_menu_extends_prior_menu :
  DriveThruAI.menu Fixture.session = ScraperMenuData
  /\ DriveThruAI.menu (DriveThruAI.refresh_menu (Fixture.web (Double.cents 50)) Fixture.session)
     = ScraperMenuData
  /\ dict_keys (DriveThruAI.get_menu Fixture.session)
     = ["Bur_1"; "Bur_2"; "McN_3"; "McC_4"; "Bev_5"]
  /\ dict_keys
       (DriveThruAI.contents (DriveThruAI.menu Fixture.session)
          (DriveThruAI.menu_scraper
             (DriveThruAI.refresh_menu (Fixture.web (Double.cents 50)) Fixture.session)))
     = ["Bur_1"; "Bur_2"; "McN_3"; "McC_4"; "Bev_5";
        "Bur_6"; "Bur_7"; "McN_8"; "McC_9"; "Bev_10"]
  /\ firstn 5
       (DriveThruAI.get_menu
          (DriveThruAI.refresh_menu (Fixture.web (Double.cents 50)) Fixture.session))
     = DriveThruAI.get_menu Fixture.session
  /\ option_map (map MenuItem.name)
       (dict_get
          (MenuScraper.categories
             (DriveThruAI.menu_scraper
                (DriveThruAI.refresh_menu (Fixture.web (Double.cents 50)) Fixture.session)))
          "Burgers")
     = Some ["Big Mac"; "Big Mac Meal"; "Big Mac"; "Big Mac Meal"].
Proof. repeat split; reflexivity. Qed.

(** * Further properties *)

(** ** Adding a line by id *)

Section AddById.
Context {F : PyFloat}.

(** [add_item_to_order] returns [False] exactly when there is no active
    order, or the id is not on the menu, or the item has sizes and the size
    given is none of them; and then the session is left as it was. *)
Theorem add_item_to_order_refusal
    (deps : DriveThruAI.t) (item_id : string) (quantity : Z)
    (size : option ItemSize.t) (special_instructions : option string) :
  (fst (DriveThruAI.add_item_to_order deps item_id quantity size special_instructions)
   = Return false
   <-> DriveThruAI.current_order deps = None
       \/ dict_get (DriveThruAI.get_menu deps) item_id = None
       \/ exists menu_item,
            dict_get (DriveThruAI.get_menu deps) item_id = Some menu_item
            /\ size_accepted menu_item size = false)
  /\ (fst (DriveThruAI.add_item_to_order deps item_id quantity size special_instructions)
      = Return false ->
      snd (DriveThruAI.add_item_to_order deps item_id quantity size special_instructions)
      = deps).
Proof.
  unfold DriveThruAI.add_item_to_order, size_accepted.
  destruct (DriveThruAI.current_order deps) as [order|] eqn:Eo;
    [|split; [split; auto | reflexivity]].
  destruct (dict_get _ item_id) as [menu_item|] eqn:Eg;
    [|split; [split; auto | reflexivity]].
  destruct (MenuItem.has_sizes menu_item
            && negb (ItemSize.mem size (MenuItem.sizes menu_item))) eqn:Es.
  - split; [|reflexivity]. split; [|reflexivity].
    intros _. right; right. exists menu_item. rewrite Es. auto.
  - destruct (Order.calculate_total _) as [x|]; simpl.
    + split; [|discriminate]. split; [discriminate|].
      intros [H|[H|(m & Hm & H)]]; try discriminate.
      inversion Hm; subst m. rewrite Es in H. discriminate.
    + split; [|discriminate]. split; [discriminate|].
      intros [H|[H|(m & Hm & H)]]; try discriminate.
      inversion Hm; subst m. rewrite Es in H. discriminate.
Qed.

(** When [add_item_to_order] returns [True], the active order has one more
    line, put last: the menu item under the id given, with the quantity,
    the size and the instructions given.  The lines before it, the id, the
    date and the status of the order, the menu, the scraper and the history
    are as they were, and the total is the sum over the new lines. *)
Theorem add_item_to_order_appends
    (deps deps' : DriveThruAI.t) (item_id : string) (quantity : Z)
    (size : option ItemSize.t) (special_instructions : option string) :
  DriveThruAI.add_item_to_order deps item_id quantity size special_instructions
  = (Return true, deps') ->
  exists o menu_item x,
    DriveThruAI.current_order deps = Some o
    /\ dict_get (DriveThruAI.get_menu deps) item_id = Some menu_item
    /\ size_accepted menu_item size = true
    /\ lines_sum (Order.items o ++ [new_line menu_item quantity size special_instructions])
       = Some x
    /\ DriveThruAI.current_order deps'
       = Some (Order.mk F (Order.id o)
                 (Order.items o ++ [new_line menu_item quantity size special_instructions])
                 (Order.created_at o) (Order.status o) x)
    /\ DriveThruAI.menu deps' = DriveThruAI.menu deps
    /\ DriveThruAI.menu_scraper deps' = DriveThruAI.menu_scraper deps
    /\ DriveThruAI.orders_history deps' = DriveThruAI.orders_history deps.
Proof.
  unfold DriveThruAI.add_item_to_order, size_accepted.
  destruct (DriveThruAI.current_order deps) as [order|] eqn:Eo; [|discriminate].
  destruct (dict_get _ item_id) as [menu_item|] eqn:Eg; [|discriminate].
  destruct (MenuItem.has_sizes menu_item
            && negb (ItemSize.mem size (MenuItem.sizes menu_item))) eqn:Es;
    [discriminate|].
  destruct (Order.calculate_total _) as [x|] eqn:Et; [|discriminate].
  intros H; inversion H; subst deps'; clear H.
  exists order, menu_item, x.
  rewrite calculate_total_sum in Et. simpl in Et.
  rewrite Es. repeat split; auto.
Qed.

(** The only exception [add_item_to_order] lets escape is [OverflowError],
    when a quantity is beyond the floats; the new line is then in the
    order all the same, and the total is the one from before, which no
    longer is the sum over the lines. *)
Theorem add_item_to_order_overflow
    (deps deps' : DriveThruAI.t) (item_id : string) (quantity : Z)
    (size : option ItemSize.t) (special_instructions : option string) (e : Exn) :
  DriveThruAI.add_item_to_order deps item_id quantity size special_instructions
  = (Raise e, deps') ->
  e = OverflowError
  /\ exists o menu_item,
       DriveThruAI.current_order deps = Some o
       /\ dict_get (DriveThruAI.get_menu deps) item_id = Some menu_item
       /\ lines_sum (Order.items o ++ [new_line menu_item quantity size special_instructions])
          = None
       /\ DriveThruAI.current_order deps'
          = Some (Order.mk F (Order.id o)
                    (Order.items o
                       ++ [new_line menu_item quantity size special_instructions])
                    (Order.created_at o) (Order.status o) (Order.total o)).
Proof.
  unfold DriveThruAI.add_item_to_order.
  destruct (DriveThruAI.current_order deps) as [order|] eqn:Eo; [|discriminate].
  destruct (dict_get _ item_id) as [menu_item|] eqn:Eg; [|discriminate].
  destruct (_ && _); [discriminate|].
  destruct (Order.calculate_total _) as [x|] eqn:Et; [discriminate|].
  intros H; inversion H; subst; clear H.
  split; [reflexivity|]. exists order, menu_item.
  rewrite calculate_total_sum in Et. simpl in Et.
  repeat split; auto.
Qed.
End AddById.

(** An unknown id on the fixture. *)
Lemma add_item_to_order_refusal_witness :
  fst (DriveThruAI.add_item_to_order Fixture.ordering "Bur_9" 1 None None) = Return false
  /\ snd (DriveThruAI.add_item_to_order Fixture.ordering "Bur_9" 1 None None)
     = Fixture.ordering.
Proof.
  destruct (add_item_to_order_refusal Fixture.ordering "Bur_9" 1 None None)
    as [[_ Hback] Hsame].
  assert (fst (DriveThruAI.add_item_to_order Fixture.ordering "Bur_9" 1 None None)
          = Return false) as Hfalse
    by (apply Hback; right; left; reflexivity).
  split; [exact Hfalse | exact (Hsame Hfalse)].
Defined.

(** A large Coca-Cola added after the two Big Macs. *)
Lemma add_item_to_order_appends_witness :
  exists deps' o,
    DriveThruAI.add_item_to_order Fixture.ordering "Bev_5" 3 (Some ItemSize.LARGE) None
    = (Return true, deps')
    /\ DriveThruAI.current_order deps' = Some o
    /\ map (fun line => MenuItem.name (OrderItem.menu_item line)) (Order.items o)
       = ["Big Mac"; "Coca-Cola"].
Proof.
  destruct (DriveThruAI.add_item_to_order Fixture.ordering "Bev_5" 3
              (Some ItemSize.LARGE) None) as [r deps'] eqn:E.
  assert (r = Return true) as Hr
    by (change r with (fst (r, deps')); rewrite <- E; reflexivity).
  subst r.
  destruct (add_item_to_order_appends Fixture.ordering deps' "Bev_5" 3
              (Some ItemSize.LARGE) None E)
    as (o & item & x & Ho & Hitem & _ & _ & Hnew & _).
  exists deps'. eexists. split; [reflexivity|]. split; [exact Hnew|].
  assert (Order.items o
          = [new_line Fixture.big_mac 2 None None]) as Hitems.
  { assert (DriveThruAI.current_order Fixture.ordering
            = Some (Order.mk Binary64 "order_1" [new_line Fixture.big_mac 2 None None]
                      0%Z "in_progress" (Double.cents 1198))) as Hc by reflexivity.
    rewrite Hc in Ho. inversion Ho. reflexivity. }
  assert (item = Fixture.coca_cola) as Hi.
  { assert (dict_get (DriveThruAI.get_menu Fixture.ordering) "Bev_5"
            = Some Fixture.coca_cola) as Hg by reflexivity.
    rewrite Hg in Hitem. inversion Hitem. reflexivity. }
  simpl. rewrite Hitems, Hi. reflexivity.
Defined.

(** A quantity of 2^1024 does not convert to a double. *)
Lemma add_item_to_order_overflow_witness :
  exists deps' o,
    DriveThruAI.add_item_to_order Fixture.ordering "Bur_1" (2 ^ 1024) None None
    = (Raise OverflowError, deps')
    /\ DriveThruAI.current_order deps' = Some o
    /\ List.length (Order.items o) = 2
    /\ Order.total o = Double.cents 1198.
Proof.
  destruct (DriveThruAI.add_item_to_order Fixture.ordering "Bur_1" (2 ^ 1024) None None)
    as [r deps'] eqn:E.
  assert (r = Raise OverflowError) as Hr
    by (change r with (fst (r, deps')); rewrite <- E; reflexivity).
  subst r.
  destruct (add_item_to_order_overflow Fixture.ordering deps' "Bur_1" (2 ^ 1024)
              None None OverflowError E)
    as (_ & o & item & Ho & _ & _ & Hnew).
  assert (DriveThruAI.current_order Fixture.ordering
          = Some (Order.mk Binary64 "order_1" [new_line Fixture.big_mac 2 None None]
                    0%Z "in_progress" (Double.cents 1198))) as Hc by reflexivity.
  rewrite Hc in Ho. inversion Ho; subst o; clear Ho.
  exists deps'. eexists. split; [reflexivity|]. split; [exact Hnew|].
  split; reflexivity.
Defined.

(** ** The ids of the orders *)

Section OrderIds.
Context {F : PyFloat}.

Lemma to_uint_not_nil n : Nat.to_uint n <> Decimal.Nil.
Proof.
  intros H. assert (n = 0) as E.
  { rewrite <- (DecimalNat.Unsigned.of_to n), H. reflexivity. }
  subst n. discriminate.
Qed.

(** Two numbers with the same decimal writing are the same. *)
Lemma of_nat_inj n m : Str.of_nat n = Str.of_nat m -> n = m.
Proof.
  unfold Str.of_nat. intros H.
  apply DecimalNat.Unsigned.to_uint_inj.
  assert (Some (Nat.to_uint n) = Some (Nat.to_uint m)) as E.
  { rewrite <- (NilZero.usu _ (to_uint_not_nil n)),
            <- (NilZero.usu _ (to_uint_not_nil m)), H.
    reflexivity. }
  inversion E; reflexivity.
Qed.

Lemma order_id_inj n m : order_id n = order_id m -> n = m.
Proof.
  unfold order_id. intros H. simpl in H. inversion H as [E].
  apply of_nat_inj; exact E.
Qed.

Lemma order_id_kept_refl deps : order_id_kept deps deps.
Proof. split; [reflexivity|]. intros o' E. right; eauto. Qed.

Lemma order_id_kept_set deps o o' :
  DriveThruAI.current_order deps = Some o ->
  Order.id o' = Order.id o ->
  order_id_kept deps (DriveThruAI.set_current_order deps (Some o')).
Proof.
  intros Ho Hid. split; [reflexivity|]. simpl. intros o'' E; inversion E; subst.
  right; eauto.
Qed.

Lemma order_id_kept_trans a b c :
  order_id_kept a b -> order_id_kept b c -> order_id_kept a c.
Proof.
  intros (H1 & C1) (H2 & C2). split; [congruence|].
  intros o' E. destruct (C2 o' E) as [Hn|(o & Eo & Ei)].
  - left. rewrite Hn, H1. reflexivity.
  - destruct (C1 o Eo) as [Hn|(o0 & Eo0 & Ei0)].
    + left. congruence.
    + right. exists o0. split; congruence.
Qed.

Lemma add_item_to_order_id deps item_id quantity size instr :
  order_id_kept deps
    (snd (DriveThruAI.add_item_to_order deps item_id quantity size instr)).
Proof.
  unfold DriveThruAI.add_item_to_order.
  repeat split_match; simpl;
    try apply order_id_kept_refl;
    eapply order_id_kept_set; eauto.
Qed.

Lemma remove_item_from_order_id deps item_index :
  order_id_kept deps (snd (DriveThruAI.remove_item_from_order deps item_index)).
Proof.
  unfold DriveThruAI.remove_item_from_order.
  repeat split_match; simpl;
    try apply order_id_kept_refl;
    eapply order_id_kept_set; eauto.
Qed.

Lemma ensure_order_id now deps : order_id_kept deps (ensure_order now deps).
Proof.
  unfold ensure_order.
  destruct (DriveThruAI.current_order deps) eqn:E; [apply order_id_kept_refl|].
  split; [reflexivity|]. simpl. intros o' H; inversion H; subst. left; reflexivity.
Qed.

Lemma add_to_order_id now deps item_name quantity size instr :
  order_id_kept deps (snd (add_to_order now deps item_name quantity size instr)).
Proof.
  eapply order_id_kept_trans; [apply (ensure_order_id now)|].
  unfold add_to_order.
  pose proof (add_item_to_order_id (ensure_order now deps)) as Hadd.
  repeat split_match; simpl; try apply order_id_kept_refl;
    match goal with
    | E : DriveThruAI.add_item_to_order _ ?i ?q ?s ?n = (_, ?d) |- _ =>
        specialize (Hadd i q s n); rewrite E in Hadd; exact Hadd
    end.
Qed.

Lemma remove_from_order_id deps item_name quantity :
  order_id_kept deps (snd (remove_from_order deps item_name quantity)).
Proof.
  unfold remove_from_order.
  repeat split_match; simpl;
    try apply order_id_kept_refl;
    eapply order_id_kept_set; eauto.
Qed.

Lemma apply_id m deps : order_id_kept deps (snd (apply m deps)).
Proof.
  destruct m as [item_id q sz instr | idx | now name q sz instr | name q]; simpl.
  - pose proof (add_item_to_order_id deps item_id q sz instr) as H.
    destruct (DriveThruAI.add_item_to_order _ _ _ _ _) as [[b|e] d]; exact H.
  - pose proof (remove_item_from_order_id deps idx) as H.
    destruct (DriveThruAI.remove_item_from_order _ _) as [[b|e] d]; exact H.
  - pose proof (add_to_order_id now deps name q sz instr) as H.
    destruct (add_to_order _ _ _ _ _ _) as [[r|e] d]; [destruct r|]; exact H.
  - pose proof (remove_from_order_id deps name q) as H.
    destruct (remove_from_order _ _ _) as [[r|e] d]; [destruct r|]; exact H.
Qed.

Lemma order_ids_ok_kept deps deps' :
  order_ids_ok deps -> order_id_kept deps deps' -> order_ids_ok deps'.
Proof.
  intros [Hh Hc] [Eh Ec]. split.
  - rewrite Eh. exact Hh.
  - intros o' E. rewrite Eh.
    destruct (Ec o' E) as [Hn|(o & Eo & Ei)]; [exact Hn|].
    rewrite Ei. apply Hc; exact Eo.
Qed.

Lemma reachable_order_ids deps : reachable deps -> order_ids_ok deps.
Proof.
  induction 1 as [w | w deps R IH | now deps R IH | deps R IH | m deps R IH].
  - unfold DriveThruAI.init.
    destruct (MenuScraper.scrape_menu w MenuScraper.init) as [m scraper].
    split; simpl.
    + intros [|i] o E; discriminate.
    + discriminate.
  - destruct IH as [Hh Hc]. unfold DriveThruAI.refresh_menu.
    destruct (MenuScraper.scrape_menu w _) as [m scraper].
    split; simpl; assumption.
  - destruct IH as [Hh Hc]. split; simpl; [exact Hh|].
    intros o E; inversion E; subst; reflexivity.
  - unfold DriveThruAI.checkout.
    destruct (DriveThruAI.current_order deps) as [o|] eqn:E; [|exact IH].
    destruct (Order.items o); [exact IH|].
    destruct IH as [Hh Hc]. split; simpl; [|discriminate].
    intros i o' Hn.
    destruct (Nat.lt_ge_cases i (List.length (DriveThruAI.orders_history deps)))
      as [Hlt|Hge].
    + rewrite nth_error_app1 in Hn by exact Hlt. apply Hh; exact Hn.
    + rewrite nth_error_app2 in Hn by exact Hge.
      destruct (i - List.length (DriveThruAI.orders_history deps)) as [|k] eqn:Ek;
        [|destruct k; discriminate].
      simpl in Hn. inversion Hn; subst o'. simpl.
      rewrite (Hc o E). f_equal. lia.
  - eapply order_ids_ok_kept; [exact IH | apply apply_id].
Qed.

(** In every session the program can be in, the order at position [i] of
    the history (from 0) has the id "order_" followed by [i + 1], and the
    active order has the number after the last; so no two orders of the
    history share an id, and the active order has the id of none of them. *)
Theorem order_ids_are_distinct (deps : DriveThruAI.t) :
  reachable deps ->
  order_ids_ok deps
  /\ NoDup (map Order.id (DriveThruAI.orders_history deps))
  /\ (forall o, DriveThruAI.current_order deps = Some o ->
                ~ In (Order.id o) (map Order.id (DriveThruAI.orders_history deps))).
Proof.
  intros R. pose proof (reachable_order_ids deps R) as [Hh Hc].
  split; [split; assumption|]. split.
  - apply NoDup_nth_error. intros i j Hi E.
    rewrite length_map in Hi.
    rewrite !nth_error_map in E.
    destruct (nth_error (DriveThruAI.orders_history deps) i) as [oi|] eqn:Ei;
      [|apply nth_error_None in Ei; lia].
    destruct (nth_error (DriveThruAI.orders_history deps) j) as [oj|] eqn:Ej;
      [|discriminate].
    simpl in E. inversion E as [E'].
    rewrite (Hh i oi Ei), (Hh j oj Ej) in E'.
    apply order_id_inj in E'. lia.
  - intros o Ho Hin. apply In_nth_error in Hin. destruct Hin as [i Hi].
    rewrite nth_error_map in Hi.
    destruct (nth_error (DriveThruAI.orders_history deps) i) as [oi|] eqn:Ei;
      [|discriminate].
    simpl in Hi. inversion Hi as [E'].
    rewrite (Hh i oi Ei), (Hc o Ho) in E'.
    apply order_id_inj in E'.
    assert (i < List.length (DriveThruAI.orders_history deps))
      by (apply nth_error_Some; congruence).
    lia.
Qed.

(** After a checkout that succeeded, another checkout returns [False] and
    changes nothing, and [start_new_order] gives an order with no line
    whose id has the number after the order just checked out. *)
Theorem checkout_then_checkout (deps deps' : DriveThruAI.t) (now : Z) :
  DriveThruAI.checkout deps = (true, deps') ->
  DriveThruAI.checkout deps' = (false, deps')
  /\ checkout_order deps' = (NotCheckedOut, deps')
  /\ Order.items (fst (DriveThruAI.start_new_order now deps')) = []
  /\ Order.id (fst (DriveThruAI.start_new_order now deps'))
     = order_id (List.length (DriveThruAI.orders_history deps) + 2).
Proof.
  unfold checkout_order, DriveThruAI.checkout.
  destruct (DriveThruAI.current_order deps) as [o|]; [|discriminate].
  destruct (Order.items o); [discriminate|].
  intros H; inversion H; subst deps'; clear H. simpl.
  repeat split. unfold order_id. rewrite length_app.
  replace (List.length (DriveThruAI.orders_history deps)
           + List.length [Order.set_status o "completed"] + 1)
    with (List.length (DriveThruAI.orders_history deps) + 2) by (simpl; lia).
  reflexivity.
Qed.
End OrderIds.

(** The fixture after checkout. *)
Lemma order_ids_are_distinct_witness :
  reachable (snd (DriveThruAI.checkout Fixture.ordering))
  /\ map Order.id (DriveThruAI.orders_history (snd (DriveThruAI.checkout Fixture.ordering)))
     = ["order_1"]
  /\ NoDup (map Order.id
              (DriveThruAI.orders_history (snd (DriveThruAI.checkout Fixture.ordering)))).
Proof.
  assert (reachable (snd (DriveThruAI.checkout Fixture.ordering))) as R
    by (apply reach_checkout, reach_apply, reach_start, reach_init).
  split; [exact R|]. split; [reflexivity|].
  apply (order_ids_are_distinct _ R).
Defined.

(** The fixture checked out twice, and the order started next. *)
Lemma checkout_then_checkout_witness :
  DriveThruAI.checkout Fixture.ordering
  = (true, snd (DriveThruAI.checkout Fixture.ordering))
  /\ fst (DriveThruAI.checkout (snd (DriveThruAI.checkout Fixture.ordering))) = false
  /\ Order.id (fst (DriveThruAI.start_new_order 9
                      (snd (DriveThruAI.checkout Fixture.ordering))))
     = "order_2".
Proof.
  assert (DriveThruAI.checkout Fixture.ordering
          = (true, snd (DriveThruAI.checkout Fixture.ordering))) as E by reflexivity.
  destruct (checkout_then_checkout Fixture.ordering _ 9 E) as (H1 & _ & _ & H2).
  split; [exact E|]. split; [rewrite H1; reflexivity|].
  rewrite H2. reflexivity.
Defined.

(** ** What the search finds *)

Section SearchSound.
Context {F : PyFloat}.

Lemma match_loop_sound input entries bm bs r1 r2 :
  match_loop input entries bm bs = (r1, r2) ->
  (forall id, r1 = Some id ->
     exists item, In (id, item) entries
                  /\ input = clean_menu_name (MenuItem.name item))
  /\ (r2 = bm
      \/ exists id item,
           r2 = Some id /\ In (id, item) entries
           /\ partial_match input (clean_menu_name (MenuItem.name item)) = true
           /\ 0 < score input (clean_menu_name (MenuItem.name item))).
Proof.
  revert bm bs; induction entries as [|[id item] r IH]; intros bm bs; simpl.
  - intros H; inversion H; subst. split; [discriminate | left; reflexivity].
  - destruct (String.eqb input (clean_menu_name (MenuItem.name item))) eqn:Ex.
    + intros H; inversion H; subst. split; [|left; reflexivity].
      intros id' E; inversion E; subst id'. exists item.
      split; [left; reflexivity | apply String.eqb_eq; exact Ex].
    + assert (forall bm' bs',
                match_loop input r bm' bs' = (r1, r2) ->
                (bm' = bm
                 \/ exists item',
                      bm' = Some id /\ item' = item
                      /\ partial_match input (clean_menu_name (MenuItem.name item)) = true
                      /\ 0 < score input (clean_menu_name (MenuItem.name item))) ->
                (forall id0, r1 = Some id0 ->
                   exists item0, In (id0, item0) ((id, item) :: r)
                                 /\ input = clean_menu_name (MenuItem.name item0))
                /\ (r2 = bm
                    \/ exists id0 item0,
                         r2 = Some id0 /\ In (id0, item0) ((id, item) :: r)
                         /\ partial_match input (clean_menu_name (MenuItem.name item0)) = true
                         /\ 0 < score input (clean_menu_name (MenuItem.name item0))))
        as Hstep.
      { intros bm' bs' H Hbm. destruct (IH bm' bs' H) as [H1 H2]. split.
        - intros id0 E. destruct (H1 id0 E) as (item0 & Hin & Heq).
          exists item0. split; [right; exact Hin | exact Heq].
        - destruct H2 as [H2|(id0 & item0 & E & Hin & Hp & Hs)].
          + destruct Hbm as [Hbm|(item' & Hbm & _ & Hp & Hs)].
            * left; congruence.
            * right. exists id, item. repeat split; auto; [congruence | left; reflexivity].
          + right. exists id0, item0. repeat split; auto. right; exact Hin. }
      destruct (partial_match input (clean_menu_name (MenuItem.name item))) eqn:Ep.
      * destruct (Nat.ltb_spec bs (score input (clean_menu_name (MenuItem.name item)))).
        -- intros H'. apply (Hstep _ _ H'). right. exists item.
           repeat split; auto. lia.
        -- intros H'. apply (Hstep _ _ H'). left; reflexivity.
      * intros H'. apply (Hstep _ _ H'). left; reflexivity.
Qed.

Lemma find_item_in_menu (menu : dict MenuItem.t) (item_name id : string) :
  find_item menu item_name = Some id -> exists item, In (id, item) menu.
Proof.
  unfold find_item.
  destruct (match_loop (clean_input item_name) menu None 0) as [r1 r2] eqn:E.
  destruct (match_loop_sound _ _ _ _ _ _ E) as [H1 H2].
  destruct (negb (truthy r1) && truthy r2); intros Hr.
  - subst r2. destruct H2 as [H2|(id0 & item0 & E0 & Hin & _)]; [discriminate|].
    inversion E0; subst id0. exists item0. exact Hin.
  - destruct (H1 id Hr) as (item & Hin & _). exists item. exact Hin.
Qed.

(** Let the name asked for and the names of the menu be in ASCII.  The
    item [find_item] gives is an entry of the menu, and either its cleaned
    name is the cleaned name asked for, or one of the two cleaned names
    holds the other and they share a word. *)
Theorem find_item_sound (menu : dict MenuItem.t) (item_name id : string) :
  Str.isascii item_name = true ->
  menu_isascii menu = true ->
  find_item menu item_name = Some id ->
  exists item,
    In (id, item) menu
    /\ (exact_match item_name item
        \/ (substring_match item_name item /\ 0 < match_score item_name item)).
Proof.
  intros _ _. unfold find_item.
  destruct (match_loop (clean_input item_name) menu None 0) as [r1 r2] eqn:E.
  destruct (match_loop_sound _ _ _ _ _ _ E) as [H1 H2].
  destruct (negb (truthy r1) && truthy r2) eqn:Et; intros Hr.
  - subst r2. destruct H2 as [H2|(id0 & item0 & E0 & Hin & Hp & Hs)];
      [discriminate|].
    inversion E0; subst id0. exists item0. split; [exact Hin|]. right. split; assumption.
  - destruct (H1 id Hr) as (item & Hin & Heq).
    exists item. split; [exact Hin|]. left. symmetry; exact Heq.
Qed.

Lemma dict_get_in {V} (d : dict V) k v :
  In (k, v) d -> exists v', dict_get d k = Some v'.
Proof.
  induction d as [|[k' v0] d IH]; simpl; [tauto|].
  intros [H|H].
  - inversion H; subst. rewrite String.eqb_refl. eauto.
  - destruct (String.eqb k k'); eauto.
Qed.

Lemma first_exact_match item_name (entries : dict MenuItem.t) id item :
  In (id, item) entries -> exact_match item_name item ->
  exists before id' item' after,
    entries = before ++ (id', item') :: after
    /\ no_exact_match item_name before
    /\ exact_match item_name item'.
Proof.
  induction entries as [|[k it] r IH]; simpl; [tauto|].
  intros Hin Hx.
  destruct (String.eqb (clean_input item_name) (clean_menu_name (MenuItem.name it)))
    eqn:E.
  - exists [], k, it, r. split; [reflexivity|]. split.
    + intros ? ? [].
    + apply eqb_exact_match; exact E.
  - destruct Hin as [Hin|Hin].
    + inversion Hin; subst. apply eqb_exact_match in Hx. congruence.
    + destruct (IH Hin Hx) as (before & id' & item' & after & He & Hn & Hx').
      exists ((k, it) :: before), id', item', after.
      split; [rewrite He; reflexivity|]. split; [|exact Hx'].
      intros k0 it0 [H0|H0].
      * inversion H0; subst. intros Hc. apply eqb_exact_match in Hc. congruence.
      * apply (Hn k0 it0 H0).
Qed.

Lemma best_after_bounds item_name (entries : dict MenuItem.t) bm bs :
  bs <= snd (best_after (clean_input item_name) entries bm bs)
  /\ (forall id item, In (id, item) entries -> substring_match item_name item ->
        match_score item_name item
        <= snd (best_after (clean_input item_name) entries bm bs))
  /\ (bs < snd (best_after (clean_input item_name) entries bm bs) ->
      exists id item, In (id, item) entries
        /\ fst (best_after (clean_input item_name) entries bm bs) = Some id).
Proof.
  revert bm bs; induction entries as [|[k it] r IH]; intros bm bs; simpl.
  - split; [lia|]. split; [tauto | lia].
  - destruct (partial_match (clean_input item_name) (clean_menu_name (MenuItem.name it)))
      eqn:Ep; simpl.
    + destruct (Nat.ltb_spec bs
                  (score (clean_input item_name) (clean_menu_name (MenuItem.name it))))
        as [Hlt|Hge].
      * destruct (IH (Some k)
                    (score (clean_input item_name) (clean_menu_name (MenuItem.name it))))
          as (H1 & H2 & H3).
        split; [lia|]. split.
        -- intros id item [Hin|Hin] Hp.
           ++ inversion Hin; subst. exact H1.
           ++ apply (H2 id item Hin Hp).
        -- intros _.
           destruct (Nat.eq_dec
                       (score (clean_input item_name)
                          (clean_menu_name (MenuItem.name it)))
                       (snd (best_after (clean_input item_name) r (Some k)
                               (score (clean_input item_name)
                                  (clean_menu_name (MenuItem.name it)))))) as [Heq|Hne].
           ++ exists k, it. split; [left; reflexivity|].
              rewrite best_after_keep; [reflexivity|].
              intros id item Hin Hp. pose proof (H2 id item Hin Hp) as Hle.
              unfold match_score in *. lia.
           ++ destruct H3 as (id & item & Hin & Hf); [lia|].
              exists id, item. split; [right; exact Hin | exact Hf].
      * destruct (IH bm bs) as (H1 & H2 & H3).
        split; [exact H1|]. split.
        -- intros id item [Hin|Hin] Hp.
           ++ inversion Hin; subst. unfold match_score. lia.
           ++ apply (H2 id item Hin Hp).
        -- intros Hlt. destruct (H3 Hlt) as (id & item & Hin & Hf).
           exists id, item. split; [right; exact Hin | exact Hf].
    + destruct (IH bm bs) as (H1 & H2 & H3).
      split; [exact H1|]. split.
      * intros id item [Hin|Hin] Hp.
        -- inversion Hin; subst. unfold substring_match in Hp. congruence.
        -- apply (H2 id item Hin Hp).
      * intros Hlt. destruct (H3 Hlt) as (id & item & Hin & Hf).
        exists id, item. split; [right; exact Hin | exact Hf].
Qed.

(** Let the name asked for and the names of the menu be in ASCII.  On a
    menu with no empty id, [find_item] finds nothing exactly when no entry
    has the cleaned name asked for and no entry whose cleaned name holds
    it, or is held by it, shares a word with it. *)
Theorem find_item_none_iff (menu : dict MenuItem.t) (item_name : string) :
  Str.isascii item_name = true ->
  menu_isascii menu = true ->
  (forall id item, In (id, item) menu -> id <> EmptyString) ->
  (find_item menu item_name = None
   <-> forall id item, In (id, item) menu ->
         ~ exact_match item_name item
         /\ (substring_match item_name item -> match_score item_name item = 0)).
Proof.
  intros _ _ Hids. split.
  - intros Hnone.
    assert (no_exact_match item_name menu) as Hno.
    { intros id item Hin Hx.
      destruct (first_exact_match item_name menu id item Hin Hx)
        as (before & id' & item' & after & He & Hn & Hx').
      assert (id' <> EmptyString) as Hid'
        by (apply (Hids id' item'); rewrite He; apply in_elt).
      rewrite He, (find_item_exact item_name before id' item' after Hn Hx' Hid') in Hnone.
      discriminate. }
    intros id item Hin. split; [apply (Hno id item Hin)|].
    intros Hp.
    destruct (best_after_bounds item_name menu None 0) as (_ & H2 & H3).
    pose proof (H2 id item Hin Hp) as Hle.
    destruct (Nat.eq_dec (match_score item_name item) 0) as [Hz|Hnz]; [exact Hz|].
    destruct H3 as (id' & item' & Hin' & Hf); [lia|].
    unfold find_item in Hnone.
    rewrite (match_loop_no_exact item_name menu None 0 Hno), Hf in Hnone.
    simpl in Hnone. rewrite (truthy_nonempty id' (Hids id' item' Hin')) in Hnone.
    discriminate.
  - intros H. apply find_item_none.
    + intros id item Hin. apply (H id item Hin).
    + intros id item Hin. apply (H id item Hin).
Qed.
End SearchSound.

(** "mcnuggets please" on the menu without coffee. *)
Lemma find_item_sound_witness :
  Str.isascii "mcnuggets please" = true
  /\ menu_isascii Scenario.ascii_menu = true
  /\ find_item Scenario.ascii_menu "mcnuggets please" = Some "McN_3"
  /\ exists item,
       In ("McN_3", item) Scenario.ascii_menu
       /\ (exact_match "mcnuggets please" item
           \/ (substring_match "mcnuggets please" item
               /\ 0 < match_score "mcnuggets please" item)).
Proof.
  assert (find_item Scenario.ascii_menu "mcnuggets please" = Some "McN_3") as E
    by reflexivity.
  split; [reflexivity|]. split; [reflexivity|]. split; [exact E|].
  apply (find_item_sound Scenario.ascii_menu "mcnuggets please" "McN_3"
           eq_refl eq_refl E).
Defined.

(** "apple pie" on the menu without coffee: no name holds it or is held by
    it. *)
Lemma find_item_none_iff_witness :
  Str.isascii "apple pie" = true
  /\ menu_isascii Scenario.ascii_menu = true
  /\ (forall id item, In (id, item) Scenario.ascii_menu -> id <> EmptyString)
  /\ find_item Scenario.ascii_menu "apple pie" = None.
Proof.
  assert (forall id item, In (id, item) Scenario.ascii_menu -> id <> EmptyString)
    as Hids
    by (intros id item Hin; unfold Scenario.ascii_menu in Hin; each_entry;
        discriminate).
  split; [reflexivity|]. split; [reflexivity|]. split; [exact Hids|].
  apply (find_item_none_iff Scenario.ascii_menu "apple pie" eq_refl eq_refl Hids).
  intros id item Hin. unfold Scenario.ascii_menu in Hin.
  each_entry; (split; [intros E; vm_compute in E; discriminate
                      | intros E; vm_compute in E; discriminate]).
Defined.

(** ** What the tool that adds does *)

Section AddTool.
Context {F : PyFloat}.

Lemma add_item_to_order_raises deps item_id quantity size instr e deps' :
  DriveThruAI.add_item_to_order deps item_id quantity size instr = (Raise e, deps') ->
  e = OverflowError.
Proof.
  unfold DriveThruAI.add_item_to_order.
  repeat split_match; intros H; inversion H; reflexivity.
Qed.

Lemma add_item_to_order_false_same deps item_id quantity size instr deps' :
  DriveThruAI.add_item_to_order deps item_id quantity size instr = (Return false, deps') ->
  deps' = deps.
Proof.
  unfold DriveThruAI.add_item_to_order.
  repeat split_match; intros H; inversion H; reflexivity.
Qed.

Lemma truthy_some x : truthy x = true -> exists s, x = Some s /\ s <> EmptyString.
Proof.
  destruct x as [s|]; simpl; [|discriminate].
  destruct s; [discriminate|]. intros _. eexists; split; [reflexivity | discriminate].
Qed.

(** [add_to_order] never fails on the look-up of the item it found: the
    only exception it lets escape is the [OverflowError] of a quantity
    beyond the floats. *)
Theorem add_to_order_raises_only_overflow
    (now : Z) (deps deps' : DriveThruAI.t) (item_name : string) (quantity : Z)
    (size : option ItemSize.t) (special_instructions : option string) (e : Exn) :
  add_to_order now deps item_name quantity size special_instructions = (Raise e, deps') ->
  e = OverflowError.
Proof.
  unfold add_to_order.
  destruct (truthy (find_item (DriveThruAI.get_menu (ensure_order now deps)) item_name))
    eqn:Et; simpl; [|discriminate].
  destruct (truthy_some _ Et) as (s & Es & _). rewrite Es.
  destruct (find_item_in_menu _ _ _ Es) as [item Hin].
  destruct (dict_get_in _ _ _ Hin) as [menu_item Hget]. rewrite Hget.
  destruct (Str.contains "milk" _); [discriminate|].
  destruct (Str.contains "coffee" _); [discriminate|].
  destruct (_ && _); [discriminate|].
  destruct (DriveThruAI.add_item_to_order _ _ _ _ _) as [[[|]|e'] d] eqn:Ea;
    try discriminate.
  intros H; inversion H; subst.
  apply (add_item_to_order_raises _ _ _ _ _ _ _ Ea).
Qed.

(** Unless [add_to_order] reports the item added, it leaves the session as
    it is once it has an order: no line is added for a name that is not
    found, for a question about milk, coffee or the size, or for a size
    that is refused. *)
Theorem add_to_order_no_line_unless_added
    (now : Z) (deps deps' : DriveThruAI.t) (item_name : string) (quantity : Z)
    (size : option ItemSize.t) (special_instructions : option string) (reply : Reply) :
  add_to_order now deps item_name quantity size special_instructions
  = (Return reply, deps') ->
  (forall q item sz, reply <> Added q item sz) ->
  deps' = ensure_order now deps.
Proof.
  unfold add_to_order.
  destruct (negb _); [intros H; inversion H; reflexivity|].
  destruct (dict_get _ _) as [menu_item|]; [|discriminate].
  destruct (Str.contains "milk" _); [intros H; inversion H; reflexivity|].
  destruct (Str.contains "coffee" _); [intros H; inversion H; reflexivity|].
  destruct (_ && _); [intros H; inversion H; reflexivity|].
  destruct (DriveThruAI.add_item_to_order _ _ _ _ _) as [[[|]|e'] d] eqn:Ea;
    intros H; inversion H; subst.
  - intros Hn. exfalso. eapply Hn; reflexivity.
  - intros _. apply (add_item_to_order_false_same _ _ _ _ _ _ Ea).
Qed.

Lemma add_to_order_added_facts now deps deps' item_name quantity size instr
    q menu_item sz :
  add_to_order now deps item_name quantity size instr
  = (Return (Added q menu_item sz), deps') ->
  Str.contains "milk" (Str.lower (MenuItem.name menu_item)) = false
  /\ Str.contains "coffee" (Str.lower (MenuItem.name menu_item)) = false.
Proof.
  unfold add_to_order.
  destruct (negb _); [discriminate|].
  destruct (dict_get _ _) as [item|]; [|discriminate].
  destruct (Str.contains "milk" _) eqn:Em; [discriminate|].
  destruct (Str.contains "coffee" _) eqn:Ec; [discriminate|].
  destruct (_ && _); [discriminate|].
  destruct (DriveThruAI.add_item_to_order _ _ _ _ _) as [[[|]|e'] d];
    try discriminate.
  intros H; inversion H; subst. split; assumption.
Qed.

(** When [add_to_order] reports an item added, the item is the entry of the
    menu under the id the search found; its name, in lower case, holds
    neither "milk" nor "coffee"; if it has sizes, a size was given; and the
    line was added by [add_item_to_order] on the session with its order,
    with the quantity, the size and the instructions given. *)
Theorem add_to_order_added
    (now : Z) (deps deps' : DriveThruAI.t) (item_name : string) (quantity : Z)
    (size : option ItemSize.t) (special_instructions : option string)
    (q : Z) (menu_item : MenuItem.t) (sz : option ItemSize.t) :
  add_to_order now deps item_name quantity size special_instructions
  = (Return (Added q menu_item sz), deps') ->
  q = quantity /\ sz = size
  /\ exists item_id,
       find_item (DriveThruAI.get_menu deps) item_name = Some item_id
       /\ dict_get (DriveThruAI.get_menu deps) item_id = Some menu_item
       /\ Str.contains "milk" (Str.lower (MenuItem.name menu_item)) = false
       /\ Str.contains "coffee" (Str.lower (MenuItem.name menu_item)) = false
       /\ (MenuItem.has_sizes menu_item = true -> exists s, size = Some s)
       /\ DriveThruAI.add_item_to_order (ensure_order now deps) item_id quantity size
            special_instructions
          = (Return true, deps').
Proof.
  unfold add_to_order. rewrite ensure_order_menu.
  destruct (truthy (find_item (DriveThruAI.get_menu deps) item_name))
    eqn:Et; simpl; [|discriminate].
  destruct (truthy_some _ Et) as (s & Es & _). rewrite Es.
  destruct (dict_get _ s) as [item|] eqn:Hget; [|discriminate].
  destruct (Str.contains "milk" _) eqn:Em; [discriminate|].
  destruct (Str.contains "coffee" _) eqn:Ec; [discriminate|].
  destruct (MenuItem.has_sizes item
            && match size with Some _ => false | None => true end) eqn:Esz;
    [discriminate|].
  destruct (DriveThruAI.add_item_to_order _ _ _ _ _) as [[[|]|e'] d] eqn:Ea;
    try discriminate.
  intros H; injection H as Hq Hi Hsz Hd. subst q menu_item sz deps'.
  split; [reflexivity|]. split; [reflexivity|].
  exists s. repeat split; auto.
  intros Hs. rewrite Hs in Esz. destruct size as [s0|]; [eauto | discriminate].
Qed.

(** An item that mentions milk or coffee is never added by [add_to_order],
    whatever the name, the quantity and the size given. *)
Theorem add_to_order_never_adds_milk_or_coffee
    (now : Z) (deps : DriveThruAI.t) (item_name : string) (quantity : Z)
    (size : option ItemSize.t) (special_instructions : option string)
    (q : Z) (menu_item : MenuItem.t) (sz : option ItemSize.t) :
  mentions "milk" menu_item \/ mentions "coffee" menu_item ->
  fst (add_to_order now deps item_name quantity size special_instructions)
  <> Return (Added q menu_item sz).
Proof.
  intros Hword Hadded.
  destruct (add_to_order now deps item_name quantity size special_instructions)
    as [r deps'] eqn:E.
  simpl in Hadded. subst r.
  destruct (add_to_order_added_facts now deps deps' item_name quantity size
              special_instructions q menu_item sz E) as (Hm & Hc).
  destruct Hword as [Hw|Hw]; apply mentions_lower in Hw; try reflexivity; congruence.
Qed.

(** Let the name asked for and the names of the menu be in ASCII.  For an
    item found that has sizes and whose name, in lower case, holds neither
    "milk" nor "coffee", [add_to_order] with no size asks for the size and
    adds no line. *)
Theorem add_to_order_asks_size
    (now : Z) (deps : DriveThruAI.t) (item_name : string) (quantity : Z)
    (special_instructions : option string) (item_id : string) (menu_item : MenuItem.t) :
  Str.isascii item_name = true ->
  menu_isascii (DriveThruAI.get_menu deps) = true ->
  find_item (DriveThruAI.get_menu deps) item_name = Some item_id ->
  item_id <> EmptyString ->
  dict_get (DriveThruAI.get_menu deps) item_id = Some menu_item ->
  Str.contains "milk" (Str.lower (MenuItem.name menu_item)) = false ->
  Str.contains "coffee" (Str.lower (MenuItem.name menu_item)) = false ->
  MenuItem.has_sizes menu_item = true ->
  add_to_order now deps item_name quantity None special_instructions
  = (Return (WhichSize menu_item), ensure_order now deps).
Proof.
  intros _ _ Hfind Hid Hget Hm Hc Hs. unfold add_to_order.
  rewrite ensure_order_menu, Hfind. simpl.
  rewrite (truthy_nonempty item_id Hid). simpl.
  rewrite Hget, Hm, Hc, Hs. reflexivity.
Qed.
End AddTool.

(** A Big Mac in a quantity of 2^1024, on the fixture. *)
Lemma add_to_order_raises_only_overflow_witness :
  exists e deps',
    add_to_order 0 Fixture.ordering "big mac" (2 ^ 1024) None None = (Raise e, deps')
    /\ e = OverflowError.
Proof.
  exists OverflowError.
  exists (snd (add_to_order 0 Fixture.ordering "big mac" (2 ^ 1024) None None)).
  assert (add_to_order 0 Fixture.ordering "big mac" (2 ^ 1024) None None
          = (Raise OverflowError,
             snd (add_to_order 0 Fixture.ordering "big mac" (2 ^ 1024) None None)))
    as E by reflexivity.
  split; [exact E|].
  apply (add_to_order_raises_only_overflow _ _ _ _ _ _ _ _ E).
Defined.

(** "apple pie" asked for on the fixture with its two Big Macs. *)
Lemma add_to_order_no_line_unless_added_witness :
  add_to_order 0 Fixture.ordering "apple pie" 1 None None
  = (Return (NotOnMenu "apple pie"), Fixture.ordering).
Proof.
  assert (add_to_order 0 Fixture.ordering "apple pie" 1 None None
          = (Return (NotOnMenu "apple pie"),
             snd (add_to_order 0 Fixture.ordering "apple pie" 1 None None)))
    as E by reflexivity.
  assert (forall q item sz,
            NotOnMenu (F := Binary64) "apple pie" <> Added q item sz) as Hne
    by (intros q item sz H; discriminate).
  pose proof (add_to_order_no_line_unless_added _ _ _ _ _ _ _ _ E Hne) as Hsame.
  rewrite E, Hsame. reflexivity.
Defined.

(** A Big Mac asked for on the fixture. *)
Lemma add_to_order_added_witness :
  add_to_order 0 Fixture.started "big mac" 2 None None
  = (Return (Added 2 Fixture.big_mac None), Fixture.ordering)
  /\ find_item (DriveThruAI.get_menu Fixture.started) "big mac" = Some "Bur_1".
Proof.
  assert (add_to_order 0 Fixture.started "big mac" 2 None None
          = (Return (Added 2 Fixture.big_mac None), Fixture.ordering)) as E
    by reflexivity.
  split; [exact E|].
  destruct (add_to_order_added _ _ _ _ _ _ _ _ _ _ E)
    as (_ & _ & item_id & Hfind & _).
  rewrite Hfind. f_equal.
  assert (find_item (DriveThruAI.get_menu Fixture.started) "big mac" = Some "Bur_1")
    as Hc by reflexivity.
  rewrite Hc in Hfind. inversion Hfind. reflexivity.
Defined.

(** The coffee of the fixture asked for by its full name, with a size. *)
Lemma add_to_order_never_adds_milk_or_coffee_witness :
  mentions "coffee" Fixture.coffee
  /\ fst (add_to_order 0 Fixture.started "McCafé Premium Roast Coffee" 1
            (Some ItemSize.MEDIUM) None)
     <> Return (Added 1 Fixture.coffee (Some ItemSize.MEDIUM)).
Proof.
  assert (mentions "coffee" Fixture.coffee) as Hw by (right; reflexivity).
  split; [exact Hw|].
  apply add_to_order_never_adds_milk_or_coffee. right; exact Hw.
Defined.

(** A Coca-Cola asked for with no size, on the menu without coffee. *)
Lemma add_to_order_asks_size_witness :
  add_to_order 0 Scenario.ascii_ordering "coca-cola" 1 None None
  = (Return (WhichSize Scenario.coca_cola), Scenario.ascii_ordering).
Proof.
  apply (add_to_order_asks_size 0 Scenario.ascii_ordering "coca-cola" 1 None "Bev_4"
           Scenario.coca_cola).
  - reflexivity.
  - reflexivity.
  - reflexivity.
  - discriminate.
  - reflexivity.
  - reflexivity.
  - reflexivity.
  - reflexivity.
Defined.

(** ** Removing lines by name *)

Section RemoveByName.
Context {F : PyFloat}.

Lemma positions_snoc item_name l line i :
  positions item_name (l ++ [line]) i
  = positions item_name l i
    ++ (if line_matches item_name line then [i + List.length l] else []).
Proof.
  revert i; induction l as [|x l IH]; intros i; simpl.
  - unfold line_matches. rewrite Nat.add_0_r.
    destruct (Str.contains _ _); reflexivity.
  - rewrite IH. replace (S i + List.length l) with (i + S (List.length l)) by lia.
    destruct (Str.contains (Str.lower item_name)
                (Str.lower (MenuItem.name (OrderItem.menu_item x)))); reflexivity.
Qed.

Lemma positions_count item_name l i :
  List.length (positions item_name l i) = count_matching item_name l.
Proof.
  unfold count_matching. revert i; induction l as [|x l IH]; intros i; simpl.
  - reflexivity.
  - unfold line_matches at 1.
    destruct (Str.contains _ _); simpl; rewrite IH; reflexivity.
Qed.

Lemma remove_nth_middle {A} (l : list A) x t :
  remove_nth (List.length l) (l ++ x :: t) = l ++ t.
Proof. induction l as [|y l IH]; simpl; [reflexivity | rewrite IH; reflexivity]. Qed.

Lemma list_pop_middle {A} (l : list A) x t :
  list_pop (l ++ x :: t) (Z.of_nat (List.length l)) = Some (x, l ++ t).
Proof.
  unfold list_pop.
  destruct (Z.ltb_spec (Z.of_nat (List.length l)) 0); [lia|].
  rewrite length_app. simpl.
  destruct (Z.ltb_spec (Z.of_nat (List.length l)) 0); [lia|].
  destruct (Z.leb_spec (Z.of_nat (List.length l + S (List.length t)))
              (Z.of_nat (List.length l))); [lia|].
  simpl. rewrite Nat2Z.id, nth_error_app2, Nat.sub_diag by lia. simpl.
  rewrite remove_nth_middle. reflexivity.
Qed.

Lemma count_matching_snoc item_name l line :
  count_matching item_name (l ++ [line])
  = count_matching item_name l + (if line_matches item_name line then 1 else 0).
Proof.
  unfold count_matching. rewrite filter_app, length_app. simpl.
  destruct (line_matches item_name line); reflexivity.
Qed.

Lemma drop_last_matching_snoc item_name n l line :
  drop_last_matching item_name n (l ++ [line])
  = if line_matches item_name line
    then match n with
         | O => drop_last_matching item_name O l ++ [line]
         | S k => drop_last_matching item_name k l
         end
    else drop_last_matching item_name n l ++ [line].
Proof.
  unfold drop_last_matching. rewrite rev_app_distr. simpl.
  destruct (line_matches item_name line); [destruct n|]; reflexivity.
Qed.

(** The loop pops the last matching lines first, as many as the quantity
    allows, and never pops out of range. *)
Lemma pop_loop_spec item_name quantity l t c :
  pop_loop quantity (rev (positions item_name l 0)) (l ++ t) c
  = Some (drop_last_matching item_name (Z.to_nat quantity - c) l ++ t,
          c + Nat.min (Z.to_nat quantity - c) (count_matching item_name l)).
Proof.
  revert t c; induction l as [|line l IH] using rev_ind; intros t c.
  - simpl. rewrite Nat.min_0_r, Nat.add_0_r. reflexivity.
  - rewrite positions_snoc, rev_app_distr, count_matching_snoc,
      drop_last_matching_snoc. simpl (0 + _).
    destruct (line_matches item_name line) eqn:Em.
    + simpl.
      destruct (Z.ltb_spec (Z.of_nat c) quantity) as [Hlt|Hge].
      * rewrite <- app_assoc. simpl. rewrite list_pop_middle, IH.
        assert (Z.to_nat quantity - c = S (Z.to_nat quantity - S c)) as E by lia.
        rewrite E. f_equal. f_equal. lia.
      * rewrite <- app_assoc. simpl. rewrite IH.
        assert (Z.to_nat quantity - c = 0) as E by lia.
        rewrite E. rewrite <- app_assoc. simpl. reflexivity.
    + simpl. rewrite <- !app_assoc. simpl. rewrite IH. f_equal. f_equal. lia.
Qed.

(** Let the name given and the names of the items of the lines be in
    ASCII.  With lines in the order that match the name given,
    [remove_from_order] removes the last of them, as many as the quantity
    given when there are that many (none for a quantity of 0 or less),
    keeps every other line in its place, stores the sum over the lines
    left as the total, and reports how many lines it removed.  No [pop] is
    out of range; the only exception is the [OverflowError] of the sum. *)
Theorem remove_from_order_removes_latest
    (deps : DriveThruAI.t) (o : Order.t) (item_name : string) (quantity : Z) :
  Str.isascii item_name = true ->
  lines_isascii (Order.items o) = true ->
  DriveThruAI.current_order deps = Some o ->
  0 < count_matching item_name (Order.items o) ->
  remove_from_order deps item_name quantity
  = let rest := drop_last_matching item_name (Z.to_nat quantity) (Order.items o) in
    let removed := Nat.min (Z.to_nat quantity) (count_matching item_name (Order.items o)) in
    match lines_sum rest with
    | Some x =>
        (Return (Removed removed item_name),
         DriveThruAI.set_current_order deps
           (Some (Order.mk F (Order.id o) rest (Order.created_at o) (Order.status o) x)))
    | None =>
        (Raise OverflowError,
         DriveThruAI.set_current_order deps
           (Some (Order.mk F (Order.id o) rest (Order.created_at o) (Order.status o)
                    (Order.total o))))
    end.
Proof.
  intros _ _ Ho Hcount. unfold remove_from_order. rewrite Ho.
  destruct (Order.items o) as [|line lines] eqn:El;
    [unfold count_matching in Hcount; simpl in Hcount; lia|].
  rewrite <- El in *.
  destruct (positions item_name (Order.items o) 0) as [|i more] eqn:Ep.
  { pose proof (positions_count item_name (Order.items o) 0) as Hl.
    rewrite Ep in Hl. simpl in Hl. lia. }
  rewrite <- Ep.
  pose proof (pop_loop_spec item_name quantity (Order.items o) [] 0) as Hpop.
  rewrite !app_nil_r, Nat.sub_0_r in Hpop. simpl in Hpop.
  rewrite Hpop, calculate_total_sum. simpl.
  destruct (lines_sum _); reflexivity.
Qed.

(** Let the name given and the names of the items of the lines be in
    ASCII.  With no line that matches the name given, [remove_from_order]
    changes nothing: it reports an empty order when there is no order or
    no line, and otherwise that the name is not in the order. *)
Theorem remove_from_order_no_match
    (deps : DriveThruAI.t) (item_name : string) (quantity : Z) :
  Str.isascii item_name = true ->
  lines_isascii (active_lines deps) = true ->
  count_matching item_name (active_lines deps) = 0 ->
  remove_from_order deps item_name quantity
  = (Return (match active_lines deps with
             | [] => OrderEmpty
             | _ :: _ => NotInOrder item_name
             end), deps).
Proof.
  intros _ _. unfold active_lines, remove_from_order.
  destruct (DriveThruAI.current_order deps) as [o|]; [|reflexivity].
  destruct (Order.items o) as [|line lines] eqn:El; [reflexivity|].
  rewrite <- El. intros Hcount.
  pose proof (positions_count item_name (Order.items o) 0) as Hl.
  rewrite Hcount in Hl.
  destruct (positions item_name (Order.items o) 0); [reflexivity | discriminate].
Qed.
End RemoveByName.

(** One "big mac" removed from two Big Macs, a Coca-Cola and a Big Mac
    Meal: the meal, which is the last line that matches, goes. *)
Lemma remove_from_order_removes_latest_witness :
  Scenario.line_names Scenario.three_lines = ["Big Mac"; "Coca-Cola"; "Big Mac Meal"]
  /\ exists deps',
       remove_from_order Scenario.three_lines "big mac" 1
       = (Return (Removed 1 "big mac"), deps')
       /\ Scenario.line_names deps' = ["Big Mac"; "Coca-Cola"].
Proof.
  split; [reflexivity|].
  assert (DriveThruAI.current_order Scenario.three_lines
          = Some Scenario.three_lines_order) as Ho by reflexivity.
  assert (0 < count_matching "big mac" (Order.items Scenario.three_lines_order))
    as Hcount by (vm_compute; lia).
  assert (lines_isascii (Order.items Scenario.three_lines_order) = true) as Hascii
    by reflexivity.
  rewrite (remove_from_order_removes_latest Scenario.three_lines
             Scenario.three_lines_order "big mac" 1 eq_refl Hascii Ho Hcount).
  eexists. split; reflexivity.
Defined.

(** "fries" asked back from the same order. *)
Lemma remove_from_order_no_match_witness :
  remove_from_order Scenario.three_lines "fries" 1
  = (Return (NotInOrder "fries"), Scenario.three_lines).
Proof.
  apply (remove_from_order_no_match Scenario.three_lines "fries" 1).
  - reflexivity.
  - reflexivity.
  - vm_compute. reflexivity.
Defined.

(** ** Strings *)

Lemma is_space_lower_char c : Str.is_space (Str.lower_char c) = Str.is_space c.
Proof.
  destruct c as [b0 b1 b2 b3 b4 b5 b6 b7].
  destruct b0, b1, b2, b3, b4, b5, b6, b7; reflexivity.
Qed.

Lemma lstrip_lower s : Str.lstrip (Str.lower s) = Str.lower (Str.lstrip s).
Proof.
  induction s as [|c s IH]; simpl; [reflexivity|].
  rewrite is_space_lower_char. destruct (Str.is_space c); [exact IH | reflexivity].
Qed.

Lemma rstrip_lower s : Str.rstrip (Str.lower s) = Str.lower (Str.rstrip s).
Proof.
  induction s as [|c s IH]; simpl; [reflexivity|].
  rewrite IH, is_space_lower_char.
  destruct (Str.rstrip s); simpl; [destruct (Str.is_space c)|]; reflexivity.
Qed.

Lemma strip_lower s : Str.strip (Str.lower s) = Str.lower (Str.strip s).
Proof. unfold Str.strip. rewrite lstrip_lower, rstrip_lower. reflexivity. Qed.

Lemma rstrip_rstrip s : Str.rstrip (Str.rstrip s) = Str.rstrip s.
Proof.
  induction s as [|c s IH]; simpl; [reflexivity|].
  destruct (Str.rstrip s) as [|c' r] eqn:E.
  - destruct (Str.is_space c) eqn:Ec; simpl; [reflexivity | rewrite Ec; reflexivity].
  - change (Str.rstrip (String c (String c' r)))
      with (match Str.rstrip (String c' r) with
            | EmptyString =>
                if Str.is_space c then EmptyString else String c EmptyString
            | r' => String c r'
            end).
    rewrite IH. reflexivity.
Qed.

Lemma lstrip_head s :
  Str.lstrip s = EmptyString
  \/ exists c r, Str.lstrip s = String c r /\ Str.is_space c = false.
Proof.
  induction s as [|c s IH]; simpl; [left; reflexivity|].
  destruct (Str.is_space c) eqn:E; [exact IH|].
  right. exists c, s. split; [reflexivity | exact E].
Qed.

Lemma rstrip_head c r :
  Str.is_space c = false -> exists r', Str.rstrip (String c r) = String c r'.
Proof.
  intros E. simpl. destruct (Str.rstrip r); [rewrite E|]; eauto.
Qed.

(** Stripping twice is stripping once. *)
Lemma strip_strip s : Str.strip (Str.strip s) = Str.strip s.
Proof.
  unfold Str.strip.
  destruct (lstrip_head s) as [E|(c & r & E & Hc)]; rewrite E.
  - reflexivity.
  - destruct (rstrip_head c r Hc) as [r' E']. rewrite E'.
    simpl Str.lstrip. rewrite Hc. rewrite <- E'. apply rstrip_rstrip.
Qed.

Lemma isascii_lstrip s : Str.isascii s = true -> Str.isascii (Str.lstrip s) = true.
Proof.
  induction s as [|c s IH]; [reflexivity|].
  cbn [Str.isascii Str.lstrip]. intros H.
  destruct (Str.is_space c).
  - apply andb_true_iff in H. apply IH, H.
  - exact H.
Qed.

Lemma isascii_rstrip s : Str.isascii s = true -> Str.isascii (Str.rstrip s) = true.
Proof.
  induction s as [|c s IH]; [reflexivity|].
  cbn [Str.isascii Str.rstrip]. intros H.
  apply andb_true_iff in H. destruct H as [Hc Hs]. specialize (IH Hs).
  destruct (Str.rstrip s) as [|c' r'].
  - destruct (Str.is_space c); [reflexivity|].
    cbn [Str.isascii]. rewrite Hc. reflexivity.
  - change (Str.isascii (String c (String c' r')))
      with (Nat.ltb (nat_of_ascii c) 128 && Str.isascii (String c' r')).
    rewrite Hc, IH. reflexivity.
Qed.

(** Stripping keeps a string in ASCII. *)
Lemma isascii_strip s : Str.isascii s = true -> Str.isascii (Str.strip s) = true.
Proof. intros H. unfold Str.strip. apply isascii_rstrip, isascii_lstrip, H. Qed.

Lemma append_same_length a b x y :
  String.length a = String.length b -> (a ++ x = b ++ y)%string -> x = y.
Proof.
  revert b; induction a as [|c a IH]; intros [|d b]; simpl; try discriminate.
  - intros _ H; exact H.
  - intros Hl H. inversion Hl. inversion H. eauto.
Qed.

Lemma truthy_append a b : Str.truthy (a ++ String "_" b)%string = true.
Proof. destruct a; reflexivity. Qed.

(** ** What a build does to the scraper *)

Section ScraperInvariant.
Context {F : PyFloat}.

Lemma category_prefix_length c :
  In c category_names -> String.length (Str.take 3 c) = 3.
Proof.
  unfold category_names. simpl. intros H.
  repeat (destruct H as [H|H]; [subst c; reflexivity|]). destruct H.
Qed.

Lemma dict_get_absent {V} (d : dict V) k :
  (forall k' v, In (k', v) d -> k' <> k) -> dict_get d k = None.
Proof.
  induction d as [|[k0 v0] d IH]; simpl; intros H; [reflexivity|].
  destruct (String.eqb k k0) eqn:E.
  - apply String.eqb_eq in E. exfalso. apply (H k0 v0); auto.
  - apply IH. intros k' v Hin. apply (H k' v). right; exact Hin.
Qed.

Lemma dict_set_absent {V} (d : dict V) k v :
  dict_get d k = None -> dict_set d k v = d ++ [(k, v)].
Proof.
  induction d as [|[k0 v0] d IH]; simpl; [reflexivity|].
  destruct (String.eqb k k0); [discriminate|].
  intros H. rewrite (IH H). reflexivity.
Qed.

Lemma dict_keys_set_present {V} (d : dict V) k v v0 :
  dict_get d k = Some v0 -> dict_keys (dict_set d k v) = dict_keys d.
Proof.
  induction d as [|[k0 v1] d IH]; simpl; [discriminate|].
  destruct (String.eqb k k0); [reflexivity|].
  intros H. simpl. f_equal. apply IH; exact H.
Qed.

Lemma dict_get_set_other {V} (d : dict V) k k' v :
  k' <> k -> dict_get (dict_set d k v) k' = dict_get d k'.
Proof.
  intros Hne. induction d as [|[k0 v0] d IH]; simpl.
  - destruct (String.eqb k' k) eqn:E; [apply String.eqb_eq in E; contradiction|].
    reflexivity.
  - destruct (String.eqb k k0) eqn:E; simpl.
    + apply String.eqb_eq in E. subst k0.
      destruct (String.eqb k' k) eqn:E'; [apply String.eqb_eq in E'; contradiction|].
      reflexivity.
    + destruct (String.eqb k' k0); [reflexivity | exact IH].
Qed.

Lemma dict_get_key {V} (d : dict V) k :
  In k (dict_keys d) -> exists v, dict_get d k = Some v.
Proof.
  induction d as [|[k0 v0] d IH]; simpl; [tauto|].
  intros [H|H].
  - subst k0. rewrite String.eqb_refl. eauto.
  - destruct (String.eqb k k0); eauto.
Qed.

Lemma new_key_fresh self category_name :
  scraper_ok self -> In category_name category_names ->
  dict_get (MenuScraper.menu_data self)
    (Str.take 3 category_name ++ "_"
       ++ Str.of_nat (List.length (MenuScraper.menu_data self) + 1))%string
  = None.
Proof.
  intros [_ Hentries _] Hc. apply dict_get_absent. intros k' item Hin Heq.
  apply In_nth_error in Hin. destruct Hin as [i Hi].
  assert (i < List.length (MenuScraper.menu_data self)) as Hlt
    by (apply nth_error_Some; congruence).
  destruct (Hentries i k' item Hi) as (Hc' & Hkey & _).
  rewrite Hkey in Heq.
  apply append_same_length in Heq;
    [|rewrite !category_prefix_length by assumption; reflexivity].
  simpl in Heq. inversion Heq as [E]. apply of_nat_inj in E. lia.
Qed.

Lemma of_category_snoc category_name items item :
  of_category category_name (items ++ [item])
  = of_category category_name items
    ++ (if String.eqb (MenuItem.category item) category_name then [item] else []).
Proof.
  unfold of_category. rewrite filter_app. simpl.
  destruct (String.eqb _ _); reflexivity.
Qed.

(** A new entry goes last, and the scraper stays well-formed. *)
Lemma add_entry_spec self category_name item_name u :
  scraper_ok self -> In category_name category_names ->
  Str.truthy item_name = true -> Str.strip item_name = item_name ->
  scraper_ok (MenuScraper.add_entry category_name item_name u self)
  /\ exists key item,
       MenuScraper.menu_data (MenuScraper.add_entry category_name item_name u self)
       = MenuScraper.menu_data self ++ [(key, item)]
       /\ MenuItem.category item = category_name
       /\ MenuItem.name item = item_name.
Proof.
  intros Hok Hc Hname Hstrip.
  pose proof (new_key_fresh self category_name Hok Hc) as Hfresh.
  destruct Hok as [Hnames Hentries Hlists].
  assert (In category_name (dict_keys (MenuScraper.categories self))) as Hkey
    by (rewrite Hnames; exact Hc).
  destruct (dict_get_key _ _ Hkey) as [l Hl].
  unfold MenuScraper.add_entry, MenuScraper.append_to_category.
  rewrite Hl, (dict_set_absent _ _ _ Hfresh). simpl.
  split; [|eexists; eexists; split; [reflexivity | split; reflexivity]].
  split; simpl.
  - rewrite (dict_keys_set_present _ _ _ _ Hl). exact Hnames.
  - intros i key item Hi.
    destruct (Nat.lt_ge_cases i (List.length (MenuScraper.menu_data self)))
      as [Hlt|Hge].
    + rewrite nth_error_app1 in Hi by exact Hlt. apply Hentries; exact Hi.
    + rewrite nth_error_app2 in Hi by exact Hge.
      destruct (i - List.length (MenuScraper.menu_data self)) as [|k] eqn:Ek;
        [|destruct k; discriminate].
      simpl in Hi. inversion Hi; subst key item; clear Hi.
      assert (i = List.length (MenuScraper.menu_data self)) as Ei by lia.
      subst i. unfold entry_at. simpl. repeat split; auto.
  - intros c l' Hget. unfold dict_values. rewrite map_app. simpl.
    fold (dict_values (MenuScraper.menu_data self)).
    rewrite of_category_snoc. simpl.
    destruct (String.eqb category_name c) eqn:E.
    + apply String.eqb_eq in E. subst c.
      rewrite dict_get_set_same in Hget. inversion Hget.
      rewrite (Hlists _ _ Hl). reflexivity.
    + assert (c <> category_name) as Hne
        by (intros Hc'; subst c; rewrite String.eqb_refl in E; discriminate).
      rewrite (dict_get_set_other _ _ _ _ Hne) in Hget.
      rewrite app_nil_r. apply Hlists; exact Hget.
Qed.

Lemma scrape_entries_spec w category_name texts self drawn :
  scraper_ok self -> In category_name category_names ->
  scraper_ok (fst (MenuScraper.scrape_entries w category_name texts self drawn))
  /\ exists added,
       MenuScraper.menu_data
         (fst (MenuScraper.scrape_entries w category_name texts self drawn))
       = MenuScraper.menu_data self ++ added
       /\ entry_names added
          = map (pair category_name) (filter Str.truthy (map Str.strip texts)).
Proof.
  intros Hok Hc. revert self drawn Hok.
  induction texts as [|text r IH]; intros self drawn Hok; simpl.
  - split; [exact Hok|]. exists []. rewrite app_nil_r. split; reflexivity.
  - destruct (Str.truthy (Str.strip text)) eqn:Et.
    + destruct (add_entry_spec self category_name (Str.strip text) (uniform w drawn)
                  Hok Hc Et (strip_strip text))
        as (Hok' & key & item & Hdata & Hcat & Hname).
      destruct (IH _ (S drawn) Hok') as (Hok'' & added & Hdata' & Hnames).
      split; [exact Hok''|].
      exists ((key, item) :: added). split.
      * rewrite Hdata', Hdata, <- app_assoc. reflexivity.
      * simpl. rewrite Hcat, Hname, Hnames. reflexivity.
    + apply IH; exact Hok.
Qed.

Lemma scrape_categories_spec w page names self drawn :
  scraper_ok self -> (forall c, In c names -> In c category_names) ->
  scraper_ok (snd (MenuScraper.scrape_categories w page names self drawn))
  /\ fst (MenuScraper.scrape_categories w page names self drawn)
     = page_complete page names
  /\ exists added,
       MenuScraper.menu_data
         (snd (MenuScraper.scrape_categories w page names self drawn))
       = MenuScraper.menu_data self ++ added
       /\ entry_names added = page_entries page names.
Proof.
  revert self drawn; induction names as [|c r IH]; intros self drawn Hok Hnames; simpl.
  - split; [exact Hok|]. split; [reflexivity|].
    exists []. rewrite app_nil_r. split; reflexivity.
  - assert (forall c', In c' r -> In c' category_names) as Hr
      by (intros c' Hin; apply Hnames; right; exact Hin).
    destruct (page c) as [| |texts].
    + apply IH; assumption.
    + split; [exact Hok|]. split; [reflexivity|].
      exists []. rewrite app_nil_r. split; reflexivity.
    + destruct (scrape_entries_spec w c texts self drawn Hok
                  (Hnames c (or_introl eq_refl)))
        as (Hok' & added & Hdata & Hadded).
      destruct (MenuScraper.scrape_entries w c texts self drawn) as [self' drawn'].
      simpl in Hok', Hdata.
      destruct (IH self' drawn' Hok' Hr) as (Hok'' & Hfst & added' & Hdata' & Hadded').
      split; [exact Hok''|]. split; [exact Hfst|].
      exists (added ++ added'). split.
      * rewrite Hdata', Hdata, <- app_assoc. reflexivity.
      * unfold entry_names in *. rewrite map_app, Hadded, Hadded'. reflexivity.
Qed.

Lemma scraper_ok_init : scraper_ok MenuScraper.init.
Proof.
  split.
  - reflexivity.
  - intros [|i] key item H; discriminate.
  - intros c l. unfold MenuScraper.init. simpl.
    repeat (destruct (String.eqb c _); [intros H; inversion H; reflexivity|]).
    discriminate.
Qed.

Lemma scrape_menu_ok w self :
  scraper_ok self -> scraper_ok (snd (MenuScraper.scrape_menu w self)).
Proof.
  intros Hok. unfold MenuScraper.scrape_menu.
  destruct (response w) as [page|]; [|exact Hok].
  destruct (scrape_categories_spec w page (dict_keys (MenuScraper.categories self))
              self 0 Hok) as (Hok' & _).
  { rewrite (ok_names self Hok). auto. }
  destruct (MenuScraper.scrape_categories _ _ _ _ _) as [[|] self']; exact Hok'.
Qed.

Lemma scraper_reachable_ok self : scraper_reachable self -> scraper_ok self.
Proof.
  induction 1 as [|w self R IH]; [apply scraper_ok_init | apply scrape_menu_ok; exact IH].
Qed.

(** Let the texts of the lists of the page be in ASCII.  A build adds its
    entries after those of the builds before, which stay as they are: one
    entry for each non-empty stripped text of the page, category after
    category, up to the first category whose list is missing.  The
    dictionary returned is [menu_data] when no list is missing, and a new
    empty one otherwise. *)
Theorem scrape_menu_adds_page_entries
    (w : Web) (page : string -> Listing) (self : MenuScraper.t) :
  scraper_reachable self ->
  response w = Some page ->
  page_isascii page category_names = true ->
  fst (MenuScraper.scrape_menu w self)
  = (if page_complete page category_names then ScraperMenuData else OwnDict [])
  /\ exists added,
       MenuScraper.menu_data (snd (MenuScraper.scrape_menu w self))
       = MenuScraper.menu_data self ++ added
       /\ entry_names added = page_entries page category_names.
Proof.
  intros R Hpage _. pose proof (scraper_reachable_ok self R) as Hok.
  unfold MenuScraper.scrape_menu. rewrite Hpage.
  destruct (scrape_categories_spec w page (dict_keys (MenuScraper.categories self))
              self 0 Hok) as (_ & Hfst & Hadded).
  { rewrite (ok_names self Hok). auto. }
  rewrite (ok_names self Hok) in *.
  destruct (MenuScraper.scrape_categories w page category_names self 0)
    as [[|] self']; simpl in *; rewrite <- Hfst; split; auto.
Qed.

Lemma page_entries_isascii page names :
  page_isascii page names = true ->
  forallb Str.isascii (map snd (page_entries page names)) = true.
Proof.
  induction names as [|c r IH]; [reflexivity|].
  cbn [page_isascii page_entries]. intros H.
  apply andb_true_iff in H. destruct H as [Hc Hr].
  destruct (page c) as [| |texts]; [apply IH; exact Hr | reflexivity |].
  rewrite map_app, forallb_app, (IH Hr), andb_true_r.
  apply forallb_forall. intros x Hx.
  apply in_map_iff in Hx. destruct Hx as ([c' n] & En & Hx). simpl in En. subst x.
  apply in_map_iff in Hx. destruct Hx as (n' & En' & Hx). inversion En'; subst c' n'.
  apply filter_In in Hx. destruct Hx as [Hx _].
  apply in_map_iff in Hx. destruct Hx as (t & Ht & Hin). subst n.
  apply isascii_strip. rewrite forallb_forall in Hc. apply Hc; exact Hin.
Qed.

Lemma menu_isascii_names (entries : dict MenuItem.t) :
  menu_isascii entries = forallb Str.isascii (map snd (entry_names entries)).
Proof.
  unfold menu_isascii, entry_names.
  induction entries as [|e r IH]; [reflexivity|].
  cbn [map forallb snd]. rewrite IH. reflexivity.
Qed.

(** A build from a page whose texts are in ASCII keeps the names in
    ASCII. *)
Lemma scrape_menu_keeps_isascii w page self :
  scraper_ok self ->
  response w = Some page ->
  page_isascii page category_names = true ->
  menu_isascii (MenuScraper.menu_data self) = true ->
  menu_isascii (MenuScraper.menu_data (snd (MenuScraper.scrape_menu w self))) = true.
Proof.
  intros Hok Hpage Hascii Hold.
  unfold MenuScraper.scrape_menu. rewrite Hpage.
  destruct (scrape_categories_spec w page (dict_keys (MenuScraper.categories self))
              self 0 Hok) as (_ & _ & added & Hdata & Hadded).
  { rewrite (ok_names self Hok). auto. }
  rewrite (ok_names self Hok) in *.
  assert (menu_isascii
            (MenuScraper.menu_data
               (snd (MenuScraper.scrape_categories w page category_names self 0)))
          = true) as H.
  { rewrite Hdata. unfold menu_isascii in *. rewrite forallb_app, Hold.
    fold (menu_isascii added). rewrite menu_isascii_names, Hadded.
    apply page_entries_isascii; exact Hascii. }
  destruct (MenuScraper.scrape_categories w page category_names self 0)
    as [[|] self']; exact H.
Qed.

(** In every scraper the program can hold, the entry at position [i] of
    [menu_data] has for key, and for id, the first three letters of its
    category, "_" and [i + 1]; its name is not empty and has no ASCII
    white space at either end; its description and sizes are those of its
    category; and no two entries have the same key.  A build from a page
    whose texts are in ASCII keeps the names in ASCII, and a name in ASCII
    with no ASCII white space at either end is a stripped one. *)
Theorem scraped_entries_well_formed (self : MenuScraper.t) :
  scraper_reachable self ->
  (forall i key item,
     nth_error (MenuScraper.menu_data self) i = Some (key, item) ->
     entry_at i key item)
  /\ NoDup (dict_keys (MenuScraper.menu_data self))
  /\ (forall w page,
        response w = Some page ->
        page_isascii page category_names = true ->
        menu_isascii (MenuScraper.menu_data self) = true ->
        menu_isascii (MenuScraper.menu_data (snd (MenuScraper.scrape_menu w self)))
        = true).
Proof.
  intros R. pose proof (scraper_reachable_ok self R) as Hok.
  pose proof (ok_entries self Hok) as Hentries.
  split; [exact Hentries|].
  split; [|intros w page; apply scrape_menu_keeps_isascii; exact Hok].
  apply NoDup_nth_error. intros i j Hi E.
  unfold dict_keys in *. rewrite length_map in Hi. rewrite !nth_error_map in E.
  destruct (nth_error (MenuScraper.menu_data self) i) as [[ki vi]|] eqn:Ei;
    [|apply nth_error_None in Ei; lia].
  destruct (nth_error (MenuScraper.menu_data self) j) as [[kj vj]|] eqn:Ej;
    [|discriminate].
  simpl in E. inversion E as [E'].
  destruct (Hentries i ki vi Ei) as (Hci & Hki & _).
  destruct (Hentries j kj vj Ej) as (Hcj & Hkj & _).
  rewrite Hki, Hkj in E'.
  apply append_same_length in E';
    [|rewrite !category_prefix_length by assumption; reflexivity].
  simpl in E'. inversion E' as [E'']. apply of_nat_inj in E''. lia.
Qed.

(** In every scraper the program can hold, the categories are the ten it
    starts with, and the list of each category holds the items of
    [menu_data] of that category, in the order of [menu_data]. *)
Theorem categories_in_sync (self : MenuScraper.t) :
  scraper_reachable self ->
  dict_keys (MenuScraper.categories self) = category_names
  /\ forall category_name l,
       dict_get (MenuScraper.categories self) category_name = Some l ->
       l = of_category category_name (dict_values (MenuScraper.menu_data self)).
Proof.
  intros R. pose proof (scraper_reachable_ok self R) as [Hnames _ Hlists].
  split; assumption.
Qed.
End ScraperInvariant.

(** The page without coffee fetched a second time. *)
Lemma scrape_menu_adds_page_entries_witness :
  page_isascii Scenario.ascii_page (category_names (F := Binary64)) = true
  /\ page_entries Scenario.ascii_page (category_names (F := Binary64))
     = [ ("Burgers", "Big Mac"); ("Burgers", "Big Mac Meal");
         ("McNuggets", "McNuggets"); ("Beverages", "Coca-Cola") ]
  /\ exists added,
       MenuScraper.menu_data
         (snd (MenuScraper.scrape_menu Scenario.ascii_web
                 (snd (MenuScraper.scrape_menu Scenario.ascii_web MenuScraper.init))))
       = MenuScraper.menu_data
           (snd (MenuScraper.scrape_menu Scenario.ascii_web MenuScraper.init))
         ++ added
       /\ entry_names added
          = page_entries Scenario.ascii_page (category_names (F := Binary64)).
Proof.
  split; [reflexivity|]. split; [reflexivity|].
  apply (scrape_menu_adds_page_entries Scenario.ascii_web Scenario.ascii_page).
  - apply scraper_scraped, scraper_new.
  - reflexivity.
  - reflexivity.
Defined.

(** The scraper of the fixture after a second build, and the scraper built
    from the page without coffee after a second build from it. *)
Lemma scraped_entries_well_formed_witness :
  NoDup (dict_keys
           (MenuScraper.menu_data
              (snd (MenuScraper.scrape_menu (Fixture.web (Double.cents 50))
                      (snd (MenuScraper.scrape_menu (Fixture.web (Double.cents 50))
                              MenuScraper.init))))))
  /\ menu_isascii
       (MenuScraper.menu_data
          (snd (MenuScraper.scrape_menu Scenario.ascii_web
                  (snd (MenuScraper.scrape_menu Scenario.ascii_web MenuScraper.init)))))
     = true.
Proof.
  split.
  - apply scraped_entries_well_formed.
    apply scraper_scraped, scraper_scraped, scraper_new.
  - apply (scraped_entries_well_formed
             (snd (MenuScraper.scrape_menu Scenario.ascii_web MenuScraper.init))
             (scraper_scraped _ _ scraper_new)) with (page := Scenario.ascii_page).
    + reflexivity.
    + reflexivity.
    + reflexivity.
Defined.

(** The list of burgers of the fixture. *)
Lemma categories_in_sync_witness :
  option_map (map MenuItem.name)
    (dict_get
       (MenuScraper.categories
          (snd (MenuScraper.scrape_menu (Fixture.web (Double.cents 50))
                  MenuScraper.init)))
       "Burgers")
  = Some ["Big Mac"; "Big Mac Meal"]
  /\ dict_keys
       (MenuScraper.categories
          (snd (MenuScraper.scrape_menu (Fixture.web (Double.cents 50))
                  MenuScraper.init)))
     = category_names (F := Binary64).
Proof.
  split; [reflexivity|].
  apply categories_in_sync. apply scraper_scraped, scraper_new.
Defined.

(** ** Builds that fail, and the session after them *)

Section FailedBuild.
Context {F : PyFloat}.

Lemma reachable_scraper deps :
  reachable deps -> scraper_reachable (DriveThruAI.menu_scraper deps).
Proof.
  induction 1 as [w | w deps R IH | now deps R IH | deps R IH | m deps R IH].
  - unfold DriveThruAI.init.
    pose proof (scraper_scraped w MenuScraper.init scraper_new) as H.
    destruct (MenuScraper.scrape_menu w MenuScraper.init) as [m scraper]. exact H.
  - unfold DriveThruAI.refresh_menu.
    pose proof (scraper_scraped w _ IH) as H.
    destruct (MenuScraper.scrape_menu w _) as [m scraper]. exact H.
  - exact IH.
  - unfold DriveThruAI.checkout.
    destruct (DriveThruAI.current_order deps) as [o|]; [|exact IH].
    destruct (Order.items o); exact IH.
  - destruct (apply_frame m deps) as (E & _). rewrite E. exact IH.
Qed.

Lemma empty_menu_finds_nothing now deps item_name quantity size instr :
  DriveThruAI.get_menu deps = [] ->
  add_to_order now deps item_name quantity size instr
  = (Return (NotOnMenu item_name), ensure_order now deps).
Proof.
  intros E. unfold add_to_order. rewrite ensure_order_menu, E. reflexivity.
Qed.

(** When the fetch of a refresh fails, or a list of the page is missing,
    the menu of the session is a new empty dictionary: whatever the name,
    [add_to_order] answers that it is not on the menu, and whatever the id,
    [add_item_to_order] returns [False].  The order, with its lines, and
    the history are as before, and the scraper has lost none of its
    entries. *)
Theorem failed_refresh_empties_menu (w : Web) (deps : DriveThruAI.t) :
  reachable deps ->
  response w = None
  \/ (exists page, response w = Some page /\ page_complete page category_names = false) ->
  DriveThruAI.get_menu (DriveThruAI.refresh_menu w deps) = []
  /\ DriveThruAI.current_order (DriveThruAI.refresh_menu w deps)
     = DriveThruAI.current_order deps
  /\ DriveThruAI.orders_history (DriveThruAI.refresh_menu w deps)
     = DriveThruAI.orders_history deps
  /\ (exists added,
        MenuScraper.menu_data (DriveThruAI.menu_scraper (DriveThruAI.refresh_menu w deps))
        = MenuScraper.menu_data (DriveThruAI.menu_scraper deps) ++ added)
  /\ (forall now item_name quantity size instr,
        fst (add_to_order now (DriveThruAI.refresh_menu w deps) item_name quantity size
               instr)
        = Return (NotOnMenu item_name))
  /\ (forall item_id quantity size instr,
        fst (DriveThruAI.add_item_to_order (DriveThruAI.refresh_menu w deps) item_id
               quantity size instr)
        = Return false).
Proof.
  intros R Hfail.
  assert (fst (MenuScraper.scrape_menu w (DriveThruAI.menu_scraper deps)) = OwnDict []
          /\ exists added,
               MenuScraper.menu_data
                 (snd (MenuScraper.scrape_menu w (DriveThruAI.menu_scraper deps)))
               = MenuScraper.menu_data (DriveThruAI.menu_scraper deps) ++ added)
    as [Hfst Hadded].
  { destruct Hfail as [Hnone|(page & Hpage & Hinc)].
    - unfold MenuScraper.scrape_menu. rewrite Hnone. simpl.
      split; [reflexivity|]. exists []. rewrite app_nil_r. reflexivity.
    - pose proof (scraper_reachable_ok _ (reachable_scraper deps R)) as Hok.
      unfold MenuScraper.scrape_menu. rewrite Hpage.
      destruct (scrape_categories_spec w page
                  (dict_keys (MenuScraper.categories (DriveThruAI.menu_scraper deps)))
                  (DriveThruAI.menu_scraper deps) 0 Hok)
        as (_ & Hc & added & Hdata & _).
      { rewrite (ok_names _ Hok). auto. }
      rewrite (ok_names _ Hok) in *. rewrite Hinc in Hc.
      destruct (MenuScraper.scrape_categories w page category_names
                  (DriveThruAI.menu_scraper deps) 0) as [b self'].
      simpl in Hc, Hdata. subst b. simpl. split; [reflexivity|].
      exists added. exact Hdata. }
  assert (DriveThruAI.get_menu (DriveThruAI.refresh_menu w deps) = []) as Hmenu.
  { unfold DriveThruAI.refresh_menu, DriveThruAI.get_menu.
    destruct (MenuScraper.scrape_menu w (DriveThruAI.menu_scraper deps)) as [m scraper].
    simpl in Hfst. subst m. reflexivity. }
  split; [exact Hmenu|].
  split; [unfold DriveThruAI.refresh_menu;
          destruct (MenuScraper.scrape_menu w _); reflexivity|].
  split; [unfold DriveThruAI.refresh_menu;
          destruct (MenuScraper.scrape_menu w _); reflexivity|].
  split.
  { unfold DriveThruAI.refresh_menu.
    destruct (MenuScraper.scrape_menu w (DriveThruAI.menu_scraper deps)) as [m scraper].
    exact Hadded. }
  split.
  - intros now item_name quantity size instr.
    rewrite (empty_menu_finds_nothing _ _ _ _ _ _ Hmenu). reflexivity.
  - intros item_id quantity size instr.
    unfold DriveThruAI.add_item_to_order. rewrite Hmenu.
    destruct (DriveThruAI.current_order _); reflexivity.
Qed.

Lemma clean_own_name name :
  Str.strip name = name -> clean_input name = clean_menu_name name.
Proof.
  intros H. unfold clean_input, clean_menu_name.
  rewrite strip_lower, H. reflexivity.
Qed.

(** In every session the program can be in whose menu has its names in
    ASCII, asking for an item of the menu by its own name finds an entry
    with the same cleaned name, the first of the menu that has it. *)
Theorem own_name_is_found (deps : DriveThruAI.t) (id : string) (item : MenuItem.t) :
  reachable deps ->
  menu_isascii (DriveThruAI.get_menu deps) = true ->
  In (id, item) (DriveThruAI.get_menu deps) ->
  exists before id' item' after,
    DriveThruAI.get_menu deps = before ++ (id', item') :: after
    /\ find_item (DriveThruAI.get_menu deps) (MenuItem.name item) = Some id'
    /\ clean_menu_name (MenuItem.name item') = clean_menu_name (MenuItem.name item)
    /\ no_exact_match (MenuItem.name item) before.
Proof.
  intros R _ Hin.
  pose proof (scraper_reachable_ok _ (reachable_scraper deps R)) as [_ Hentries _].
  assert (forall k it, In (k, it) (DriveThruAI.get_menu deps) ->
            k <> EmptyString /\ Str.strip (MenuItem.name it) = MenuItem.name it)
    as Hwf.
  { intros k it Hk. unfold DriveThruAI.get_menu in Hk.
    destruct (ok_menu deps (reachable_ok deps R)) as [Em|Em];
      rewrite Em in Hk; simpl in Hk; [|destruct Hk].
    apply In_nth_error in Hk. destruct Hk as [i Hi].
    destruct (Hentries i k it Hi) as (_ & Hkey & _ & _ & Hstrip & _).
    split; [|exact Hstrip].
    rewrite Hkey. intros E.
    pose proof (truthy_append (Str.take 3 (MenuItem.category it)) (Str.of_nat (i + 1)))
      as Ht.
    simpl in E. rewrite E in Ht. discriminate. }
  assert (exact_match (MenuItem.name item) item) as Hx.
  { unfold exact_match. symmetry. apply clean_own_name.
    apply (Hwf id item Hin). }
  destruct (first_exact_match _ _ id item Hin Hx)
    as (before & id' & item' & after & He & Hn & Hx').
  exists before, id', item', after.
  assert (In (id', item') (DriveThruAI.get_menu deps)) as Hin'
    by (rewrite He; apply in_elt).
  split; [exact He|]. split.
  - rewrite He. apply find_item_exact; [exact Hn | exact Hx' | apply (Hwf id' item' Hin')].
  - split; [|exact Hn].
    unfold exact_match in Hx, Hx'. congruence.
Qed.
End FailedBuild.

(** The fixture refreshed while the network is down, and with a page whose
    list of burgers is missing. *)
Lemma failed_refresh_empties_menu_witness :
  DriveThruAI.get_menu (DriveThruAI.refresh_menu Scenario.no_web Fixture.ordering) = []
  /\ DriveThruAI.get_menu (DriveThruAI.refresh_menu Scenario.broken_web Fixture.ordering)
     = []
  /\ dict_keys
       (MenuScraper.menu_data
          (DriveThruAI.menu_scraper
             (DriveThruAI.refresh_menu Scenario.broken_web Fixture.ordering)))
     = ["Bur_1"; "Bur_2"; "McN_3"; "McC_4"; "Bev_5"; "Bre_6"].
Proof.
  assert (reachable Fixture.ordering) as R
    by (apply reach_apply, reach_start, reach_init).
  split; [|split; [|reflexivity]].
  - apply (failed_refresh_empties_menu Scenario.no_web Fixture.ordering R).
    left; reflexivity.
  - apply (failed_refresh_empties_menu Scenario.broken_web Fixture.ordering R).
    right. exists Scenario.broken_page. split; reflexivity.
Defined.

(** "Big Mac Meal" asked for on the menu without coffee: the first entry
    with the cleaned name "big mac" is the Big Mac. *)
Lemma own_name_is_found_witness :
  menu_isascii (DriveThruAI.get_menu Scenario.ascii_ordering) = true
  /\ In ("Bur_2", Fixture.big_mac_meal) (DriveThruAI.get_menu Scenario.ascii_ordering)
  /\ find_item (DriveThruAI.get_menu Scenario.ascii_ordering) "Big Mac Meal"
     = Some "Bur_1".
Proof.
  assert (reachable Scenario.ascii_ordering) as R
    by (apply reach_apply, reach_start, reach_init).
  assert (In ("Bur_2", Fixture.big_mac_meal)
            (DriveThruAI.get_menu Scenario.ascii_ordering))
    as Hin by (right; left; reflexivity).
  split; [reflexivity|]. split; [exact Hin|].
  destruct (own_name_is_found Scenario.ascii_ordering "Bur_2" Fixture.big_mac_meal
              R eq_refl Hin)
    as (before & id' & item' & after & _ & Hfind & _).
  assert (find_item (DriveThruAI.get_menu Scenario.ascii_ordering) "Big Mac Meal"
          = Some "Bur_1") as Hc by reflexivity.
  simpl in Hfind. rewrite Hfind in Hc |- *. exact Hc.
Defined.

(** ** Negative indexes, and undoing an addition *)

Section Undo.
Context {F : PyFloat}.

(** With an active order of [n] lines, [remove_item_from_order] takes a
    negative index that a [Py_ssize_t] holds (from [-2^63] on) as counted
    from the end: from [-n] on it removes the line at [n + index] and
    returns [True]; below [-n] the [pop] raises [IndexError].  For an index
    below [-2^63] the [pop] raises [OverflowError].  After either
    exception the session is as it was. *)
Theorem remove_item_counts_from_end
    (deps : DriveThruAI.t) (o : Order.t) (item_index : Z) :
  DriveThruAI.current_order deps = Some o ->
  (item_index < 0)%Z ->
  (forall x,
     (ssize_t_min <= item_index)%Z ->
     (- Z.of_nat (List.length (Order.items o)) <= item_index)%Z ->
     lines_sum (remove_nth (Z.to_nat (Z.of_nat (List.length (Order.items o)) + item_index))
                  (Order.items o)) = Some x ->
     DriveThruAI.remove_item_from_order deps item_index
     = (Return true,
        DriveThruAI.set_current_order deps
          (Some (Order.mk F (Order.id o)
                   (remove_nth
                      (Z.to_nat (Z.of_nat (List.length (Order.items o)) + item_index))
                      (Order.items o))
                   (Order.created_at o) (Order.status o) x))))
  /\ ((ssize_t_min <= item_index)%Z ->
      (item_index < - Z.of_nat (List.length (Order.items o)))%Z ->
      DriveThruAI.remove_item_from_order deps item_index = (Raise IndexError, deps))
  /\ ((item_index < ssize_t_min)%Z ->
      DriveThruAI.remove_item_from_order deps item_index = (Raise OverflowError, deps)).
Proof.
  intros Ho Hneg. unfold DriveThruAI.remove_item_from_order, list_pop. rewrite Ho.
  destruct (Z.leb_spec (Z.of_nat (List.length (Order.items o))) item_index); [lia|].
  destruct (Z.ltb_spec item_index ssize_t_min) as [Hover|Hfits].
  { split; [intros x Hc; lia|]. split; [intros Hc; lia|]. reflexivity. }
  destruct (Z.ltb_spec item_index 0); [|lia].
  split; [|split; [|intros Hc; lia]].
  - intros x _ Hlow Hsum.
    destruct (Z.ltb_spec (item_index + Z.of_nat (List.length (Order.items o))) 0);
      [lia|].
    destruct (Z.leb_spec (Z.of_nat (List.length (Order.items o)))
                (item_index + Z.of_nat (List.length (Order.items o)))); [lia|].
    simpl.
    replace (item_index + Z.of_nat (List.length (Order.items o)))%Z
      with (Z.of_nat (List.length (Order.items o)) + item_index)%Z by lia.
    destruct (nth_error (Order.items o)
                (Z.to_nat (Z.of_nat (List.length (Order.items o)) + item_index)))
      as [line|] eqn:En; [|apply nth_error_None in En; lia].
    rewrite calculate_total_sum. simpl. rewrite Hsum. reflexivity.
  - intros _ Hlow.
    destruct (Z.ltb_spec (item_index + Z.of_nat (List.length (Order.items o))) 0);
      [|lia].
    reflexivity.
Qed.

Lemma session_eta (deps : DriveThruAI.t) o :
  DriveThruAI.current_order deps = Some o ->
  DriveThruAI.mk F (DriveThruAI.menu_scraper deps) (DriveThruAI.menu deps)
    (Some (Order.mk F (Order.id o) (Order.items o) (Order.created_at o)
             (Order.status o) (Order.total o)))
    (DriveThruAI.orders_history deps)
  = deps.
Proof.
  destruct deps as [scraper m cur hist], o as [id items created status total].
  simpl. intros E; rewrite E. reflexivity.
Qed.

Lemma add_item_to_order_result deps item_id quantity size instr deps' :
  DriveThruAI.add_item_to_order deps item_id quantity size instr = (Return true, deps') ->
  exists o menu_item x,
    DriveThruAI.current_order deps = Some o
    /\ dict_get (DriveThruAI.get_menu deps) item_id = Some menu_item
    /\ deps'
       = DriveThruAI.mk F (DriveThruAI.menu_scraper deps) (DriveThruAI.menu deps)
           (Some (Order.mk F (Order.id o)
                    (Order.items o ++ [new_line menu_item quantity size instr])
                    (Order.created_at o) (Order.status o) x))
           (DriveThruAI.orders_history deps).
Proof.
  unfold DriveThruAI.add_item_to_order.
  destruct (DriveThruAI.current_order deps) as [order|] eqn:Eo; [|discriminate].
  destruct (dict_get _ item_id) as [menu_item|] eqn:Eg; [|discriminate].
  destruct (_ && _); [discriminate|].
  destruct (Order.calculate_total _) as [x|]; [|discriminate].
  intros H; inversion H; subst deps'; clear H.
  exists order, menu_item, x. repeat split.
Qed.

(** After [add_item_to_order] returned [True] on an order whose total
    agreed with its lines, [remove_item_from_order] at the index of the new
    line, which is the number of lines there were, gives back the session
    from before the addition. *)
Theorem add_then_remove_by_index
    (deps deps' : DriveThruAI.t) (o : Order.t) (item_id : string) (quantity : Z)
    (size : option ItemSize.t) (special_instructions : option string) :
  DriveThruAI.add_item_to_order deps item_id quantity size special_instructions
  = (Return true, deps') ->
  DriveThruAI.current_order deps = Some o ->
  total_matches o ->
  DriveThruAI.remove_item_from_order deps' (Z.of_nat (List.length (Order.items o)))
  = (Return true, deps).
Proof.
  intros Hadd Ho Htotal.
  destruct (add_item_to_order_result _ _ _ _ _ _ Hadd)
    as (o' & menu_item & x & Ho' & _ & Hdeps').
  rewrite Ho in Ho'. inversion Ho'; subst o'; clear Ho'. subst deps'.
  unfold DriveThruAI.remove_item_from_order. simpl.
  rewrite length_app. simpl.
  destruct (Z.leb_spec (Z.of_nat (List.length (Order.items o) + 1))
              (Z.of_nat (List.length (Order.items o)))); [lia|].
  destruct (Z.ltb_spec (Z.of_nat (List.length (Order.items o))) ssize_t_min);
    [pose proof ssize_t_min_neg; lia|].
  rewrite list_pop_middle, app_nil_r, calculate_total_sum. simpl.
  unfold total_matches in Htotal. rewrite Htotal.
  f_equal. exact (session_eta deps o Ho).
Qed.

Lemma prefix_refl s : prefix s s = true.
Proof.
  induction s as [|c s IH]; simpl; [reflexivity|].
  destruct (ascii_dec c c); [exact IH | congruence].
Qed.

Lemma contains_refl s : Str.contains s s = true.
Proof.
  destruct s as [|a s]; [reflexivity|]. cbn [Str.contains].
  change (prefix (String a s) (String a s)) with (prefix (String a s) (String a s)).
  rewrite (prefix_refl (String a s)). reflexivity. Qed.

Lemma drop_matching_none item_name l : drop_matching item_name 0 l = l.
Proof.
  induction l as [|line l IH]; simpl; [reflexivity|].
  rewrite IH. destruct (line_matches item_name line); reflexivity.
Qed.

(** After [add_item_to_order] returned [True] on an order whose total
    agreed with its lines, [remove_from_order] for one item of the name of
    the item added removes the new line and gives back the session from
    before the addition. *)
Theorem add_then_remove_by_name
    (deps deps' : DriveThruAI.t) (o : Order.t) (item_id : string)
    (menu_item : MenuItem.t) (quantity : Z)
    (size : option ItemSize.t) (special_instructions : option string) :
  DriveThruAI.add_item_to_order deps item_id quantity size special_instructions
  = (Return true, deps') ->
  DriveThruAI.current_order deps = Some o ->
  dict_get (DriveThruAI.get_menu deps) item_id = Some menu_item ->
  total_matches o ->
  remove_from_order deps' (MenuItem.name menu_item) 1
  = (Return (Removed 1 (MenuItem.name menu_item)), deps).
Proof.
  intros Hadd Ho Hget Htotal.
  destruct (add_item_to_order_result _ _ _ _ _ _ Hadd)
    as (o' & item' & x & Ho' & Hget' & Hdeps').
  rewrite Ho in Ho'. inversion Ho'; subst o'; clear Ho'.
  rewrite Hget in Hget'. inversion Hget'; subst item'; clear Hget'. subst deps'.
  set (line := new_line menu_item quantity size special_instructions).
  assert (line_matches (MenuItem.name menu_item) line = true) as Hm
    by (unfold line_matches; simpl; apply contains_refl).
  unfold remove_from_order. simpl.
  destruct (Order.items o ++ [line]) as [|l0 ls] eqn:El;
    [destruct (Order.items o); discriminate|].
  rewrite <- El.
  pose proof (positions_snoc (MenuItem.name menu_item) (Order.items o) line 0) as Hp.
  rewrite Hm in Hp.
  destruct (positions (MenuItem.name menu_item) (Order.items o ++ [line]) 0)
    as [|i more] eqn:Ep;
    [destruct (positions (MenuItem.name menu_item) (Order.items o) 0); discriminate|].
  rewrite <- Ep.
  pose proof (pop_loop_spec (MenuItem.name menu_item) 1 (Order.items o ++ [line]) [] 0)
    as Hpop.
  rewrite !app_nil_r, drop_last_matching_snoc, count_matching_snoc, Hm in Hpop.
  rewrite Nat.add_1_r in Hpop. simpl in Hpop.
  unfold drop_last_matching in Hpop.
  rewrite drop_matching_none, rev_involutive in Hpop.
  rewrite Hpop, calculate_total_sum. simpl.
  unfold total_matches in Htotal. rewrite Htotal.
  f_equal. exact (session_eta deps o Ho).
Qed.

(** The quantity given never makes [add_item_to_order] return [False]: zero
    and negative quantities are accepted like any other. *)
Theorem add_item_to_order_ignores_quantity
    (deps : DriveThruAI.t) (item_id : string) (quantity quantity' : Z)
    (size : option ItemSize.t) (special_instructions : option string) :
  fst (DriveThruAI.add_item_to_order deps item_id quantity size special_instructions)
  = Return false
  <-> fst (DriveThruAI.add_item_to_order deps item_id quantity' size special_instructions)
      = Return false.
Proof.
  unfold DriveThruAI.add_item_to_order.
  destruct (DriveThruAI.current_order deps) as [order|]; [|tauto].
  destruct (dict_get _ item_id) as [menu_item|]; [|tauto].
  destruct (_ && _); [tauto|].
  do 2 destruct (Order.calculate_total _); simpl; split; discriminate.
Qed.
End Undo.

(** ** The name asked for, its case and the spaces around it *)

Section CaseAndSpaces.
Context {F : PyFloat}.

Lemma lower_char_lower_char c : Str.lower_char (Str.lower_char c) = Str.lower_char c.
Proof.
  destruct c as [b0 b1 b2 b3 b4 b5 b6 b7].
  destruct b0, b1, b2, b3, b4, b5, b6, b7; reflexivity.
Qed.

Lemma lower_lower s : Str.lower (Str.lower s) = Str.lower s.
Proof.
  induction s as [|c s IH]; simpl; [reflexivity|].
  rewrite lower_char_lower_char, IH. reflexivity.
Qed.

(** Let the name asked for and the names of the menu be in ASCII.  The
    search does not tell the name from the same name in lower case, or
    without the white space around it. *)
Theorem find_item_ignores_case_and_spaces (menu : dict MenuItem.t) (item_name : string) :
  Str.isascii item_name = true ->
  menu_isascii menu = true ->
  find_item menu (Str.lower item_name) = find_item menu item_name
  /\ find_item menu (Str.strip item_name) = find_item menu item_name.
Proof.
  intros _ _. unfold find_item, clean_input. split.
  - rewrite lower_lower. reflexivity.
  - rewrite <- strip_lower, strip_strip. reflexivity.
Qed.
End CaseAndSpaces.

(** "  BIG MAC " on the menu without coffee. *)
Lemma find_item_ignores_case_and_spaces_witness :
  Str.lower "  BIG MAC " = "  big mac "
  /\ Str.strip "  BIG MAC " = "BIG MAC"
  /\ find_item Scenario.ascii_menu "  big mac " = find_item Scenario.ascii_menu "  BIG MAC "
  /\ find_item Scenario.ascii_menu "BIG MAC" = find_item Scenario.ascii_menu "  BIG MAC "
  /\ find_item Scenario.ascii_menu "  BIG MAC " = Some "Bur_1".
Proof.
  destruct (find_item_ignores_case_and_spaces Scenario.ascii_menu "  BIG MAC "
              eq_refl eq_refl) as [Hlower Hstrip].
  split; [reflexivity|]. split; [reflexivity|].
  split; [exact Hlower|]. split; [exact Hstrip | reflexivity].
Defined.

(** Index -2 on the order of three lines removes the Coca-Cola in the
    middle; index -4 raises [IndexError], and index -2^63 - 1 raises
    [OverflowError]. *)
Lemma remove_item_counts_from_end_witness :
  exists deps',
    DriveThruAI.remove_item_from_order Scenario.three_lines (-2) = (Return true, deps')
    /\ Scenario.line_names deps' = ["Big Mac"; "Big Mac Meal"]
    /\ DriveThruAI.remove_item_from_order Scenario.three_lines (-4)
       = (Raise IndexError, Scenario.three_lines)
    /\ DriveThruAI.remove_item_from_order Scenario.three_lines (- 2 ^ 63 - 1)
       = (Raise OverflowError, Scenario.three_lines).
Proof.
  assert (DriveThruAI.current_order Scenario.three_lines
          = Some Scenario.three_lines_order) as Ho by reflexivity.
  destruct (remove_item_counts_from_end Scenario.three_lines
              Scenario.three_lines_order (-2) Ho eq_refl) as (Hin & _ & _).
  destruct (remove_item_counts_from_end Scenario.three_lines
              Scenario.three_lines_order (-4) Ho eq_refl) as (_ & Hout & _).
  destruct (remove_item_counts_from_end Scenario.three_lines
              Scenario.three_lines_order (- 2 ^ 63 - 1) Ho eq_refl) as (_ & _ & Hover).
  eexists. split; [|split; [|split]].
  - eapply Hin; [vm_compute; discriminate | vm_compute; discriminate | reflexivity].
  - reflexivity.
  - apply Hout; [vm_compute; discriminate | vm_compute; reflexivity].
  - apply Hover. vm_compute. reflexivity.
Defined.

(** A Coca-Cola added to the two Big Macs, then the line at index 1
    removed. *)
Lemma add_then_remove_by_index_witness :
  DriveThruAI.remove_item_from_order
    (snd (DriveThruAI.add_item_to_order Fixture.ordering "Bev_5" 1
            (Some ItemSize.LARGE) None)) 1
  = (Return true, Fixture.ordering).
Proof.
  change 1%Z with (Z.of_nat (List.length (Order.items Scenario.ordering_order))).
  eapply (add_then_remove_by_index Fixture.ordering _ Scenario.ordering_order "Bev_5" 1
            (Some ItemSize.LARGE) None).
  - reflexivity.
  - reflexivity.
  - reflexivity.
Defined.

(** A Coca-Cola added to the two Big Macs, then one "Coca-Cola" removed. *)
Lemma add_then_remove_by_name_witness :
  remove_from_order
    (snd (DriveThruAI.add_item_to_order Fixture.ordering "Bev_5" 1
            (Some ItemSize.LARGE) None)) "Coca-Cola" 1
  = (Return (Removed 1 "Coca-Cola"), Fixture.ordering).
Proof.
  eapply (add_then_remove_by_name Fixture.ordering _ Scenario.ordering_order "Bev_5"
            Fixture.coca_cola 1
            (Some ItemSize.LARGE) None).
  - reflexivity.
  - reflexivity.
  - reflexivity.
  - reflexivity.
Defined.
